(** * The meeting-analysis pipeline of the analyst agent

    A shallow embedding of [AnalystAgent] (package [client]): transcript
    ingestion ([ProcessUtterance]), the window selection of an analysis cycle
    ([getRecentTranscript], [updateAnalysis]), prompt construction
    ([buildAnalysisPrompt] and the functions below it), reply parsing
    ([extractJSONFromResponse]), citation merging ([addCitations]) and the
    query accessor ([GetAnalysis]).

    Conventions.
    - A Go [string] is a sequence of bytes: Rocq's [string], one [ascii] per
      byte.  [len] and every index count bytes.
    - A Go [int] is a [Z]; the values met here stay far from the 64-bit
      bounds.
    - A run-time panic (slice or index out of range, [make] with a negative
      length, a nil dereference) is the result [None] of an [option]. *)

From Stdlib Require Import ZArith QArith Ascii String List.
From stdpp Require Import base option list gmap strings pretty sorting.

Local Open Scope Z_scope.

Set Warnings "-register-all".

(** ** Go strings *)

Module GoString.

Definition len (s : string) : Z := Z.of_nat (String.length s).

Fixpoint take (n : nat) (s : string) : string :=
  match n, s with
  | S n', String c s' => String c (take n' s')
  | _, _ => EmptyString
  end.

Fixpoint drop (n : nat) (s : string) : string :=
  match n, s with
  | S n', String _ s' => drop n' s'
  | _, _ => s
  end.

(** [s[lo:hi]]; Go panics unless [0 <= lo <= hi <= len(s)]. *)
Definition slice (s : string) (lo hi : Z) : option string :=
  if bool_decide (0 <= lo ∧ lo <= hi ∧ hi <= len s)
  then Some (take (Z.to_nat (hi - lo)) (drop (Z.to_nat lo) s))
  else None.

(** [s[lo:]] *)
Definition slice_from (s : string) (lo : Z) : option string :=
  slice s lo (len s).

(** [s[:hi]] *)
Definition slice_to (s : string) (hi : Z) : option string :=
  slice s 0 hi.

(** [strings.HasPrefix] *)
Fixpoint HasPrefix (s pre : string) {struct s} : bool :=
  match pre, s with
  | EmptyString, _ => true
  | String a pre', String b s' => Ascii.eqb a b && HasPrefix s' pre'
  | String _ _, EmptyString => false
  end.

(** Offset of the first occurrence of [sep] in [s]. *)
Fixpoint find (s sep : string) : option nat :=
  if HasPrefix s sep then Some 0%nat
  else match s with
       | EmptyString => None
       | String _ s' => S <$> find s' sep
       end.

(** [strings.Index]: the byte offset of the first occurrence, [-1] when
    there is none. *)
Definition Index (s sep : string) : Z :=
  match find s sep with
  | Some i => Z.of_nat i
  | None => -1
  end.

(** [strings.Contains] *)
Definition Contains (s sub : string) : bool := bool_decide (0 <= Index s sub).

(** [strings.Join] *)
Definition Join (elems : list string) (sep : string) : string :=
  String.concat sep elems.

Definition of_bytes (l : list nat) : string :=
  string_of_list_ascii (ascii_of_nat <$> l).

(** The UTF-8 encodings of the code points for which [unicode.IsSpace]
    holds: U+0009..U+000D, U+0020, U+0085, U+00A0, U+1680,
    U+2000..U+200A, U+2028, U+2029, U+202F, U+205F, U+3000. *)
Definition space_encodings : list string :=
  of_bytes <$>
    [ [9]; [10]; [11]; [12]; [13]; [32];
      [194; 133]; [194; 160]; [225; 154; 128];
      [226; 128; 128]; [226; 128; 129]; [226; 128; 130]; [226; 128; 131];
      [226; 128; 132]; [226; 128; 133]; [226; 128; 134]; [226; 128; 135];
      [226; 128; 136]; [226; 128; 137]; [226; 128; 138];
      [226; 128; 168]; [226; 128; 169]; [226; 128; 175];
      [226; 129; 159]; [227; 128; 128] ]%nat.

(** Removes one leading pattern of [pats], the first that matches. *)
Fixpoint strip_one (pats : list string) (s : string) : option string :=
  match pats with
  | [] => None
  | p :: pats' =>
      if HasPrefix s p then Some (drop (String.length p) s)
      else strip_one pats' s
  end.

Fixpoint strip_all (fuel : nat) (pats : list string) (s : string) : string :=
  match fuel with
  | O => s
  | S fuel' =>
      match strip_one pats s with
      | Some s' => strip_all fuel' pats s'
      | None => s
      end
  end.

Definition TrimLeftSpace (s : string) : string :=
  strip_all (String.length s) space_encodings s.

Definition TrimRightSpace (s : string) : string :=
  String.rev
    (strip_all (String.length s) (String.rev <$> space_encodings)
       (String.rev s)).

(** [strings.TrimSpace]: leading and trailing white space removed, white
    space as [unicode.IsSpace] defines it. *)
Definition TrimSpace (s : string) : string :=
  TrimRightSpace (TrimLeftSpace s).

(** The number of fields [strings.Fields] splits [s] into: maximal runs of
    bytes that are not part of a white-space code point.  [in_field] tells
    whether the byte before the current position belongs to a field. *)
Fixpoint count_fields (fuel : nat) (in_field : bool) (s : string) : nat :=
  match fuel with
  | O => 0%nat
  | S fuel' =>
      match s with
      | EmptyString => 0%nat
      | String _ s' =>
          match strip_one space_encodings s with
          | Some rest => count_fields fuel' false rest
          | None =>
              ((if in_field then 0 else 1) + count_fields fuel' true s')%nat
          end
      end
  end.

Definition FieldsCount (s : string) : Z :=
  Z.of_nat (count_fields (String.length s) false s).

(** [fmt.Sprintf("%d", n)] *)
Definition itoa (n : Z) : string := pretty n.

(** The double-quote character. *)
Definition dq : string := String (ascii_of_nat 34) EmptyString.

End GoString.

(** ** Reply parsing *)

(** [extractJSONFromResponse]: the content of the first [```json] block. *)
Definition extractJSONFromResponse (response : string) : option string :=
  let startMarker := "```json" in
  let endMarker := "```" in
  let startIdx := GoString.Index response startMarker in
  if bool_decide (startIdx = -1) then Some ""
  else
    let startIdx := startIdx + GoString.len startMarker in
    tail ← GoString.slice_from response startIdx;
    let endIdx := GoString.Index tail endMarker in
    if bool_decide (endIdx = -1) then Some ""
    else
      inner ← GoString.slice response startIdx (startIdx + endIdx);
      Some (GoString.TrimSpace inner).

(** ** Decoding the extracted block

    A reader for the JSON texts the tasks hand to [json.Unmarshal]: objects,
    arrays, strings without escape sequences, integers, [true], [false] and
    [null].  Texts outside this fragment (escapes, fractions, exponents) are
    not decoded here and yield [None]. *)

Inductive json : Type :=
  | JNull
  | JBool (b : bool)
  | JNumber (n : Z)
  | JString (s : string)
  | JArray (elems : list json)
  | JObject (members : list (string * json)).

Module Json.

Definition is_ws (c : ascii) : bool :=
  match nat_of_ascii c with
  | 32%nat | 9%nat | 10%nat | 13%nat => true
  | _ => false
  end.

Fixpoint skip_ws (s : string) : string :=
  match s with
  | String c s' => if is_ws c then skip_ws s' else s
  | EmptyString => s
  end.

Definition digit (c : ascii) : option Z :=
  let n := nat_of_ascii c in
  if bool_decide (48 <= n ∧ n <= 57)%nat then Some (Z.of_nat n - 48) else None.

(** Digits of a number; [acc] is the value read so far. *)
Fixpoint read_digits (acc : Z) (s : string) : Z * string :=
  match s with
  | String c s' =>
      match digit c with
      | Some d => read_digits (10 * acc + d) s'
      | None => (acc, s)
      end
  | EmptyString => (acc, s)
  end.

Definition starts_digit (s : string) : bool :=
  match s with
  | String c _ => bool_decide (is_Some (digit c))
  | EmptyString => false
  end.

Definition ends_number (s : string) : bool :=
  match s with
  | String c _ =>
      negb (Ascii.eqb c "." || Ascii.eqb c "e" || Ascii.eqb c "E")%char
  | EmptyString => true
  end.

Definition read_number (s : string) : option (Z * string) :=
  let '(neg, s1) :=
    match s with
    | String c s' => if Ascii.eqb c "-"%char then (true, s') else (false, s)
    | EmptyString => (false, s)
    end in
  if starts_digit s1 then
    let '(n, rest) := read_digits 0 s1 in
    if ends_number rest then Some (if neg then - n else n, rest) else None
  else None.

(** The characters of a string literal after its opening quote. *)
Fixpoint read_string (s : string) : option (string * string) :=
  match s with
  | EmptyString => None
  | String c s' =>
      if Ascii.eqb c (ascii_of_nat 34) then Some (EmptyString, s')
      else if Ascii.eqb c (ascii_of_nat 92) then None
      else '(str, rest) ← read_string s'; Some (String c str, rest)
  end.

Fixpoint value (fuel : nat) (s : string) : option (json * string) :=
  match fuel with
  | O => None
  | S fuel' =>
      match skip_ws s with
      | String c s' =>
          if Ascii.eqb c "{"%char then
            match skip_ws s' with
            | String "}"%char rest => Some (JObject [], rest)
            | _ => '(ms, rest) ← members fuel' s'; Some (JObject ms, rest)
            end
          else if Ascii.eqb c "["%char then
            match skip_ws s' with
            | String "]"%char rest => Some (JArray [], rest)
            | _ => '(es, rest) ← elements fuel' s'; Some (JArray es, rest)
            end
          else if Ascii.eqb c (ascii_of_nat 34) then
            '(str, rest) ← read_string s'; Some (JString str, rest)
          else if GoString.HasPrefix (String c s') "true" then
            Some (JBool true, GoString.drop 4 (String c s'))
          else if GoString.HasPrefix (String c s') "false" then
            Some (JBool false, GoString.drop 5 (String c s'))
          else if GoString.HasPrefix (String c s') "null" then
            Some (JNull, GoString.drop 4 (String c s'))
          else
            '(n, rest) ← read_number (String c s'); Some (JNumber n, rest)
      | EmptyString => None
      end
  end
with elements (fuel : nat) (s : string) : option (list json * string) :=
  match fuel with
  | O => None
  | S fuel' =>
      '(v, rest) ← value fuel' s;
      match skip_ws rest with
      | String "]"%char rest' => Some ([v], rest')
      | String ","%char rest' =>
          '(vs, rest'') ← elements fuel' rest'; Some (v :: vs, rest'')
      | _ => None
      end
  end
with members (fuel : nat) (s : string)
    : option (list (string * json) * string) :=
  match fuel with
  | O => None
  | S fuel' =>
      match skip_ws s with
      | String c s1 =>
          if Ascii.eqb c (ascii_of_nat 34) then
            '(key, s2) ← read_string s1;
            match skip_ws s2 with
            | String ":"%char s3 =>
                '(v, rest) ← value fuel' s3;
                match skip_ws rest with
                | String "}"%char rest' => Some ([(key, v)], rest')
                | String ","%char rest' =>
                    '(ms, rest'') ← members fuel' rest';
                    Some ((key, v) :: ms, rest'')
                | _ => None
                end
            | _ => None
            end
          else None
      | EmptyString => None
      end
  end.

(** The whole text is one value, white space around it allowed. *)
Definition decode (s : string) : option json :=
  '(v, rest) ← value (S (String.length s)) s;
  match skip_ws rest with
  | EmptyString => Some v
  | _ => None
  end.

End Json.

Definition sample_reply : string :=
  "prefix ```json {" +:+ GoString.dq +:+ "a" +:+ GoString.dq +:+ ":1} ``` suffix".

Definition sample_object : string :=
  "{" +:+ GoString.dq +:+ "a" +:+ GoString.dq +:+ ":1}".

(** ** Time

    A [time.Time] is the number of nanoseconds since the Unix epoch, a
    [time.Duration] a number of nanoseconds.  A [float64] is the rational it
    denotes (NaN and the infinities are left out). *)

Definition Time := Z.
Definition Duration := Z.
Definition float64 := Q.

Module GoTime.

Definition Second : Duration := 1000000000.
Definition Minute : Duration := 60 * Second.

Definition maxDuration : Duration := 2 ^ 63 - 1.
Definition minDuration : Duration := - 2 ^ 63.

(** [time.Unix(sec, 0)] *)
Definition Unix (sec : Z) : Time := sec * Second.

(** The zero [time.Time]: January 1 of year 1, 00:00 UTC. *)
Definition zero : Time := Unix (-62135596800).

(** [t.Sub(u)]: the difference, saturated to the range of a [Duration]. *)
Definition Sub (t u : Time) : Duration :=
  Z.max minDuration (Z.min maxDuration (t - u)).

(** [time.Since(t)], the clock reading [now]. *)
Definition Since (now t : Time) : Duration := Sub now t.

(** [d.Minutes()] *)
Definition Minutes (d : Duration) : float64 := Qmake d 60000000000.

(** [int64(f)] for a [float64]: the fraction is dropped. *)
Definition int64_of_float (f : float64) : Z :=
  Z.quot (Qnum f) (Zpos (Qden f)).

End GoTime.

(** ** The analysis record *)

Record TranscriptEntry := {
  Timestamp : Time;
  Speaker : string;
  Text : string;
  IsAgent : bool
}.

Record GroundingChunk := {
  URI : string;
  Title : string
}.

Record GroundingSupport := {
  StartIndex : Z;
  EndIndex : Z;
  SegmentText : string;
  GroundingChunkIndices : list Z
}.

Record GroundingMetadata := {
  WebSearchQueries : list string;
  GroundingChunks : list GroundingChunk;
  GroundingSupports : list GroundingSupport
}.

Record GroundedContent := {
  ContentText : string;
  TextWithCitations : string;
  ContentMetadata : option GroundingMetadata
}.

Record ActionItem := {
  ID : string;
  Description : string;
  Assignee : string;
  Priority : string;
  ItemType : string;
  Status : string;
  CreatedAt : Time
}.

Record TopicDiscussion := {
  Topic : string;
  TopicStartTime : string;
  TopicDuration : float64;
  TopicSummary : string;
  TopicParticipants : list string
}.

Record AnalysisData := {
  MeetingID : string;
  MeetingURL : string;
  StartTime : Time;
  LastUpdated : Time;
  Transcript : list TranscriptEntry;
  Summary : string;
  GroundedSummary : option GroundedContent;
  KeyPoints : list string;
  GroundedKeyPoints : option GroundedContent;
  ActionItems : list ActionItem;
  Topics : list TopicDiscussion;
  Participants : list string;
  DurationMinutes : float64;
  WordCount : Z;
  Sentiment : string;
  Keywords : list string
}.

Definition set_Transcript (v : list TranscriptEntry) (d : AnalysisData) :=
  {| MeetingID := MeetingID d; MeetingURL := MeetingURL d;
     StartTime := StartTime d; LastUpdated := LastUpdated d;
     Transcript := v; Summary := Summary d;
     GroundedSummary := GroundedSummary d; KeyPoints := KeyPoints d;
     GroundedKeyPoints := GroundedKeyPoints d; ActionItems := ActionItems d;
     Topics := Topics d; Participants := Participants d;
     DurationMinutes := DurationMinutes d; WordCount := WordCount d;
     Sentiment := Sentiment d; Keywords := Keywords d |}.

Definition set_Participants (v : list string) (d : AnalysisData) :=
  {| MeetingID := MeetingID d; MeetingURL := MeetingURL d;
     StartTime := StartTime d; LastUpdated := LastUpdated d;
     Transcript := Transcript d; Summary := Summary d;
     GroundedSummary := GroundedSummary d; KeyPoints := KeyPoints d;
     GroundedKeyPoints := GroundedKeyPoints d; ActionItems := ActionItems d;
     Topics := Topics d; Participants := v;
     DurationMinutes := DurationMinutes d; WordCount := WordCount d;
     Sentiment := Sentiment d; Keywords := Keywords d |}.

(** The three assignments of the "update metadata" step. *)
Definition set_metadata (updated : Time) (words : Z) (minutes : float64)
    (d : AnalysisData) :=
  {| MeetingID := MeetingID d; MeetingURL := MeetingURL d;
     StartTime := StartTime d; LastUpdated := updated;
     Transcript := Transcript d; Summary := Summary d;
     GroundedSummary := GroundedSummary d; KeyPoints := KeyPoints d;
     GroundedKeyPoints := GroundedKeyPoints d; ActionItems := ActionItems d;
     Topics := Topics d; Participants := Participants d;
     DurationMinutes := minutes; WordCount := words;
     Sentiment := Sentiment d; Keywords := Keywords d |}.

(** ** The agent *)

(** What [Call] of an [llm.LLMProvider] returns: the text or an error. *)
Inductive result (A : Type) : Type :=
  | Ok (a : A)
  | Err (msg : string).
Arguments Ok {A} a.
Arguments Err {A} msg.

Record LLMProvider := {
  Call : string → result string;
  IsAvailable : bool
}.

Record AnalystAgent := {
  agentID : string;
  CustomPrompt : option string;
  data : AnalysisData;
  filePath : string;
  llmProvider : option LLMProvider;
  lastAnalysis : Time;
  currentAnalysisSnapshot : option (list TranscriptEntry)
}.

Definition set_data (d : AnalysisData) (a : AnalystAgent) :=
  {| agentID := agentID a; CustomPrompt := CustomPrompt a; data := d;
     filePath := filePath a; llmProvider := llmProvider a;
     lastAnalysis := lastAnalysis a;
     currentAnalysisSnapshot := currentAnalysisSnapshot a |}.

Definition set_lastAnalysis (t : Time) (a : AnalystAgent) :=
  {| agentID := agentID a; CustomPrompt := CustomPrompt a; data := data a;
     filePath := filePath a; llmProvider := llmProvider a;
     lastAnalysis := t;
     currentAnalysisSnapshot := currentAnalysisSnapshot a |}.

Definition set_snapshot (snap : option (list TranscriptEntry))
    (a : AnalystAgent) :=
  {| agentID := agentID a; CustomPrompt := CustomPrompt a; data := data a;
     filePath := filePath a; llmProvider := llmProvider a;
     lastAnalysis := lastAnalysis a;
     currentAnalysisSnapshot := snap |}.

(** ** Ingestion *)

(** A value of a [map[string]interface{}]: only its dynamic type matters to
    the type assertions of [ProcessUtterance]. *)
Inductive value : Type :=
  | VString (s : string)
  | VFloat64 (f : float64)
  | VOther.

(** [v.(string)] and [v.(float64)] on the result of a map lookup. *)
Definition as_string (v : option value) : option string :=
  match v with
  | Some (VString s) => Some s
  | _ => None
  end.

Definition as_float64 (v : option value) : option float64 :=
  match v with
  | Some (VFloat64 f) => Some f
  | _ => None
  end.

(** The three variables of the loop over the segments. *)
Record scan := {
  fullText : string;
  speaker : string;
  timestamp : Time
}.

(** One iteration of [for i, segment := range segments]. *)
Definition scan_step (i : nat) (segment : gmap string value) (st : scan)
    : scan :=
  let speaker' :=
    match as_string (segment !! "speaker") with
    | Some speakerVal =>
        if bool_decide (speakerVal ≠ "") then speakerVal else speaker st
    | None => speaker st
    end in
  let fullText' :=
    match as_string (segment !! "text") with
    | Some text =>
        if bool_decide (text ≠ "")
        then (if bool_decide (0 < i)%nat then fullText st +:+ " "
              else fullText st) +:+ text
        else fullText st
    | None => fullText st
    end in
  let timestamp' :=
    match as_float64 (segment !! "timestamp") with
    | Some ts => GoTime.Unix (GoTime.int64_of_float ts)
    | None => timestamp st
    end in
  {| fullText := fullText'; speaker := speaker'; timestamp := timestamp' |}.

Fixpoint scan_from (i : nat) (segments : list (gmap string value))
    (st : scan) : scan :=
  match segments with
  | [] => st
  | segment :: rest => scan_from (S i) rest (scan_step i segment st)
  end.

Definition scan_segments (now : Time) (segments : list (gmap string value))
    : scan :=
  scan_from 0 segments
    {| fullText := ""; speaker := "Participant"; timestamp := now |}.

(** [updateParticipants] *)
Definition updateParticipants (speaker : string) (d : AnalysisData)
    : AnalysisData :=
  if bool_decide (speaker ∈ Participants d) then d
  else set_Participants (Participants d ++ [speaker]) d.

(** The successive readings of the wall clock in one call of
    [ProcessUtterance]: the initial [timestamp], [LastUpdated], the
    [time.Since] of the duration and the [time.Since] of the trigger. *)
Record clock := {
  now_timestamp : Time;
  now_updated : Time;
  now_duration : Time;
  now_trigger : Time
}.

(** What a call does besides changing the agent: it writes the record to the
    agent's file, and it starts [updateAnalysis] in a goroutine. *)
Inductive effect : Type :=
  | SaveAnalysis (path : string) (d : AnalysisData)
  | GoUpdateAnalysis.

(** The trigger condition at the end of [ProcessUtterance]. *)
Definition trigger (now : Time) (a : AnalystAgent) : bool :=
  bool_decide (5 * GoTime.Minute < GoTime.Since now (lastAnalysis a))
  || bool_decide (Z.rem (Z.of_nat (length (Transcript (data a)))) 20 = 0).

(** [ProcessUtterance] *)
Definition ProcessUtterance (clk : clock) (segments : list (gmap string value))
    (a : AnalystAgent) : AnalystAgent * list effect :=
  if bool_decide (length segments = 0%nat) then (a, [])
  else
    let st := scan_segments (now_timestamp clk) segments in
    let transcriptText := fullText st in
    if bool_decide (transcriptText = "") then (a, [])
    else
      let entry :=
        {| Timestamp := timestamp st; Speaker := speaker st;
           Text := transcriptText; IsAgent := false |} in
      let d1 := set_Transcript (Transcript (data a) ++ [entry]) (data a) in
      let d2 := updateParticipants (speaker st) d1 in
      let d3 :=
        set_metadata (now_updated clk)
          (WordCount d2 + GoString.FieldsCount transcriptText)
          (GoTime.Minutes (GoTime.Since (now_duration clk) (StartTime d2)))
          d2 in
      let a' := set_data d3 a in
      (a', SaveAnalysis (filePath a') d3
             :: (if trigger (now_trigger clk) a' then [GoUpdateAnalysis]
                 else [])).

(** *** The contract of [Append], in the words of the specification *)

(** What a fragment supplies: a non-empty text, a non-empty speaker, a
    numeric timestamp. *)
Definition supplied_text (segment : gmap string value) : option string :=
  match as_string (segment !! "text") with
  | Some t => if bool_decide (t ≠ "") then Some t else None
  | None => None
  end.

Definition supplied_speaker (segment : gmap string value) : option string :=
  match as_string (segment !! "speaker") with
  | Some s => if bool_decide (s ≠ "") then Some s else None
  | None => None
  end.

Definition supplied_timestamp (segment : gmap string value) : option Time :=
  (λ ts, GoTime.Unix (GoTime.int64_of_float ts))
    <$> as_float64 (segment !! "timestamp").

(** The fragment texts concatenated with single-space separators. *)
Definition spec_text (segments : list (gmap string value)) : string :=
  GoString.Join (omap supplied_text segments) " ".

(** The last fragment that supplied a speaker, else the placeholder. *)
Definition spec_speaker (segments : list (gmap string value)) : string :=
  default "Participant" (last (omap supplied_speaker segments)).

(** The last fragment that supplied a timestamp, else the clock. *)
Definition spec_timestamp (now : Time) (segments : list (gmap string value))
    : Time :=
  default now (last (omap supplied_timestamp segments)).

(** Every text preceded by one space. *)
Fixpoint spaced (texts : list string) : string :=
  match texts with
  | [] => ""
  | t :: rest => " " +:+ t +:+ spaced rest
  end.

(** A batch is accepted when its concatenated text is not empty. *)
Definition accepted (segments : list (gmap string value)) : Prop :=
  fullText (scan_segments 0 segments) ≠ "".

(** *** Sample agents and batches *)

Definition empty_data (start : Time) : AnalysisData :=
  {| MeetingID := "agent-1"; MeetingURL := "https://meet.example/abc";
     StartTime := start; LastUpdated := start;
     Transcript := []; Summary := ""; GroundedSummary := None;
     KeyPoints := []; GroundedKeyPoints := None; ActionItems := [];
     Topics := []; Participants := []; DurationMinutes := 0%Q;
     WordCount := 0; Sentiment := ""; Keywords := [] |}.

Definition sample_agent : AnalystAgent :=
  {| agentID := "agent-1"; CustomPrompt := None;
     data := empty_data (GoTime.Unix 1700000000);
     filePath := "data/analysis/meeting_analysis_agent-1_1700000000.json";
     llmProvider := None;
     lastAnalysis := GoTime.Unix 1700000000;
     currentAnalysisSnapshot := None |}.

Definition sample_clock : clock :=
  {| now_timestamp := GoTime.Unix 1700000060;
     now_updated := GoTime.Unix 1700000060;
     now_duration := GoTime.Unix 1700000060;
     now_trigger := GoTime.Unix 1700000060 |}.

Definition seg (speaker text : option string) (ts : option float64)
    : gmap string value :=
  list_to_map
    (from_option (λ s, [("speaker", VString s)]) [] speaker
     ++ from_option (λ s, [("text", VString s)]) [] text
     ++ from_option (λ f, [("timestamp", VFloat64 f)]) [] ts).

(** A batch whose first fragment carries a speaker and no text. *)
Definition late_text_batch : list (gmap string value) :=
  [ seg (Some "Bob") None None; seg None (Some "hello") None ].

(** A batch whose first fragment carries an empty text. *)
Definition empty_first_batch : list (gmap string value) :=
  [ seg (Some "Bob") (Some "") None; seg None (Some "hello") None ].

(** A batch of two texts, two speakers and one timestamp. *)
Definition two_fragment_batch : list (gmap string value) :=
  [ seg (Some "Ann") (Some "good") (Some (1700000042 # 1)%Q);
    seg (Some "Bob") (Some "morning") None ].

(** A batch without any text. *)
Definition silent_batch : list (gmap string value) :=
  [ seg (Some "Ann") (Some "") None; seg (Some "Bob") None None ].

(** ** The analysis cycle *)

(** [make([]T, n)]: [n] zero values; a negative [n] panics. *)
Definition go_make {A : Type} (zero : A) (n : Z) : option (list A) :=
  if bool_decide (0 <= n) then Some (replicate (Z.to_nat n) zero) else None.

(** [copy(dst, src)]: the first [min(len(dst), len(src))] elements of [dst]
    are overwritten. *)
Definition go_copy {A : Type} (dst src : list A) : list A :=
  let n := Nat.min (length dst) (length src) in
  take n src ++ drop n dst.

Definition zero_entry : TranscriptEntry :=
  {| Timestamp := GoTime.zero; Speaker := ""; Text := ""; IsAgent := false |}.

(** [entries[start:]]; [start] outside [0..len(entries)] panics. *)
Definition entries_from (entries : list TranscriptEntry) (start : Z)
    : option (list TranscriptEntry) :=
  if bool_decide (0 <= start ∧ start <= Z.of_nat (length entries))
  then Some (drop (Z.to_nat start) entries)
  else None.

(** The body shared by the two branches of [getRecentTranscript]. *)
Definition tail_window (entries : list TranscriptEntry) (count : Z)
    : option (list TranscriptEntry) :=
  let total := Z.of_nat (length entries) in
  if bool_decide (total = 0) then Some []
  else
    let start := total - count in
    let start := if bool_decide (start < 0) then 0 else start in
    let actualCount := total - start in
    result ← go_make zero_entry actualCount;
    src ← entries_from entries start;
    Some (go_copy result src).

(** [getRecentTranscript]: the window comes from the snapshot of the running
    cycle when there is one, from the live transcript otherwise. *)
Definition getRecentTranscript (a : AnalystAgent) (count : Z)
    : option (list TranscriptEntry) :=
  match currentAnalysisSnapshot a with
  | Some snapshot => tail_window snapshot count
  | None => tail_window (Transcript (data a)) count
  end.

(** The five tasks of [updateAnalysis] in their order, each with the size of
    the window it asks [getRecentTranscript] for: [generateSummary],
    [extractKeyPoints], [identifyActionItems], [extractTopics],
    [analyzeSentimentAndKeywords]. *)
Definition analysis_tasks : list (string * Z) :=
  [ ("summary", 50); ("key_points", 30); ("action_items", 40);
    ("topics", 50); ("sentiment_keywords", 20) ].

(** What a task does with its window (prompt, call of the model, decoding)
    ends in assignments to the record; [commit] stands for all of it. *)
Definition commit_fn : Type :=
  string → list TranscriptEntry → AnalysisData → AnalysisData.

(** The steps another goroutine can take while a cycle runs, and the steps
    of the cycle itself. *)
Inductive step : Type :=
  | StepAppend (clk : clock) (segments : list (gmap string value))
  | StepTask (name : string) (count : Z).

(** Start of [updateAnalysis]: the cycle time is recorded and the transcript
    is copied; an empty transcript ends the cycle before a snapshot is
    installed. *)
Definition begin_cycle (now : Time) (a : AnalystAgent)
    : AnalystAgent * bool :=
  let a1 := set_lastAnalysis now a in
  let transcriptSnapshot :=
    go_copy
      (replicate (length (Transcript (data a1))) zero_entry)
      (Transcript (data a1)) in
  if bool_decide (length transcriptSnapshot = 0%nat) then (a1, false)
  else (set_snapshot (Some transcriptSnapshot) a1, true).

(** One step; a task first selects its window and returns when it is
    empty.  The windows the tasks saw are collected in the second
    component. *)
Definition run_step (commit : commit_fn) (s : step)
    (st : AnalystAgent * list (list TranscriptEntry))
    : option (AnalystAgent * list (list TranscriptEntry)) :=
  let '(a, seen) := st in
  match s with
  | StepAppend clk segments =>
      Some ((ProcessUtterance clk segments a).1, seen)
  | StepTask name count =>
      transcript ← getRecentTranscript a count;
      if bool_decide (length transcript = 0%nat)
      then Some (a, seen ++ [transcript])
      else Some (set_data (commit name transcript (data a)) a,
                 seen ++ [transcript])
  end.

Fixpoint run_steps (commit : commit_fn) (steps : list step)
    (st : AnalystAgent * list (list TranscriptEntry))
    : option (AnalystAgent * list (list TranscriptEntry)) :=
  match steps with
  | [] => Some st
  | s :: rest => st' ← run_step commit s st; run_steps commit rest st'
  end.

(** End of [updateAnalysis]: the snapshot is cleared, [LastUpdated] advanced
    and the record saved. *)
Definition end_cycle (now : Time) (a : AnalystAgent)
    : AnalystAgent * list effect :=
  let a1 := set_snapshot None a in
  let d := set_metadata now (WordCount (data a1)) (DurationMinutes (data a1))
             (data a1) in
  let a2 := set_data d a1 in
  (a2, [SaveAnalysis (filePath a2) d]).

(** The five tasks, with the calls of [ProcessUtterance] that other
    goroutines make before each of them ([concurrent k] before task [k]). *)
Definition cycle_steps
    (concurrent : nat → list (clock * list (gmap string value)))
    : list step :=
  mjoin
    (imap (λ k task,
             ((λ c, StepAppend c.1 c.2) <$> concurrent k)
             ++ [StepTask task.1 task.2])
          analysis_tasks).

(** [updateAnalysis], run against the appends of [concurrent]. *)
Definition updateAnalysis (now_begin now_end : Time) (commit : commit_fn)
    (concurrent : nat → list (clock * list (gmap string value)))
    (a : AnalystAgent)
    : option (AnalystAgent * list (list TranscriptEntry)) :=
  let '(a1, started) := begin_cycle now_begin a in
  if started then
    '(a2, seen) ← run_steps commit (cycle_steps concurrent) (a1, []);
    Some ((end_cycle now_end a2).1, seen)
  else Some (a1, []).

(** *** Window selection, in the words of the specification *)

(** The last [n] entries, all of them if there are fewer. *)
Definition last_entries (n : nat) (entries : list TranscriptEntry)
    : list TranscriptEntry :=
  drop (length entries - n) entries.

(** The last [min(count, length)] entries. *)
Definition window (entries : list TranscriptEntry) (count : Z)
    : list TranscriptEntry :=
  last_entries (Z.to_nat (Z.min count (Z.of_nat (length entries)))) entries.

(** The window sizes the tasks among [steps] ask for. *)
Definition task_counts (steps : list step) : list Z :=
  omap (λ s, match s with StepTask _ count => Some count | _ => None end)
    steps.

Definition entry_of (who what : string) (sec : Z) : TranscriptEntry :=
  {| Timestamp := GoTime.Unix sec; Speaker := who; Text := what;
     IsAgent := false |}.

(** An agent in the middle of a cycle: the snapshot has two entries, the
    live transcript already a third. *)
Definition mid_cycle_agent : AnalystAgent :=
  let e1 := entry_of "Ann" "good morning" 1700000001 in
  let e2 := entry_of "Bob" "hello Ann" 1700000002 in
  let e3 := entry_of "Ann" "shall we start" 1700000003 in
  set_snapshot (Some [e1; e2])
    (set_data (set_Transcript [e1; e2; e3] (data sample_agent)) sample_agent).

(** The same cycle seen later: two more entries have arrived. *)
Definition later_mid_cycle_agent : AnalystAgent :=
  set_data
    (set_Transcript
       (Transcript (data mid_cycle_agent)
          ++ [entry_of "Bob" "yes" 1700000004;
              entry_of "Ann" "first item" 1700000005])
       (data mid_cycle_agent))
    mid_cycle_agent.

(** ** Prompt construction *)

(** [fmt.Sprintf] for formats whose only verb is [%s]. *)
Fixpoint Sprintf (format : string) (args : list string) : string :=
  match format with
  | String "%"%char (String "s"%char rest) =>
      match args with
      | arg :: args' => arg +:+ Sprintf rest args'
      | [] => "%!s(MISSING)" +:+ Sprintf rest []
      end
  | String c rest => String c (Sprintf rest args)
  | EmptyString => EmptyString
  end.

(** The instruction is lowered before the scan.  On ASCII-only input
    [strings.ToLower] is this function. *)
Definition lower_ascii (c : ascii) : ascii :=
  let n := nat_of_ascii c in
  if bool_decide (65 <= n ∧ n <= 90)%nat then ascii_of_nat (n + 32) else c.

Fixpoint ToLowerASCII (s : string) : string :=
  match s with
  | String c s' => String (lower_ascii c) (ToLowerASCII s')
  | EmptyString => EmptyString
  end.

(** The number of code points of a UTF-8 text: the bytes that are not
    continuation bytes. *)
Fixpoint code_points (s : string) : Z :=
  match s with
  | String c s' =>
      (if bool_decide (128 <= nat_of_ascii c ∧ nat_of_ascii c < 192)%nat
       then 0 else 1) + code_points s'
  | EmptyString => 0
  end.

Definition harmfulPatterns : list string :=
  [ "<script"; "javascript:"; "eval("; "function(";
    "import "; "require("; "exec("; "system(";
    "rm "; "del "; "format "; "drop table";
    "alter table"; "truncate table" ].

Definition default_summary_format : string :=
  "Analyze this meeting transcript and provide a comprehensive summary. You MUST use the google_search tool to validate and verify any factual claims, statistics, figures, technical details, company information, or specific statements that can be fact-checked.

Focus on:
- Main topics discussed
- Key decisions made
- Important information shared
- Overall meeting progress and outcomes
- Validation of any claims, facts, or figures mentioned

IMPORTANT: For any factual statements, statistics, company data, technical specifications, or verifiable claims mentioned in the meeting:
1. Use google_search to verify the accuracy
2. Cross-reference multiple sources when possible
3. Note if information cannot be verified or appears outdated
4. Include relevant context from your search results

Transcript:
%s".

Definition default_key_points_format : string :=
  "Extract the most important key points from this meeting transcript. Focus on:
- Important decisions or agreements
- Critical information shared
- Action-oriented statements
- Questions that need answers
- Commitments made

Transcript:
%s".

Definition default_action_items_format : string :=
  "Identify action items from this meeting transcript. Be VERY AGGRESSIVE in finding actionables - look beyond explicit tasks to identify research opportunities, follow-ups, and valuable investigations.

Look for:
- Explicit tasks that need to be completed
- Follow-ups required from discussions
- Decisions that need implementation
- Assignments given to specific people
- Deadlines mentioned
- Research opportunities mentioned or implied
- Unresolved questions that need investigation
- Topics that participants showed interest in exploring further
- Problems or challenges that need solutions
- Ideas worth developing or validating
- Market research, competitive analysis, or data gathering needs
- Technical investigations or proof-of-concepts to build
- Stakeholder consultations or expert opinions to seek
- Tools, processes, or systems to evaluate
- Industry trends or best practices to research

For discussions about personalities, roles, or team dynamics:
- Research specific methodologies, frameworks, or tools mentioned
- Investigate industry best practices for team challenges discussed
- Find case studies or examples relevant to situations discussed
- Look up experts, books, or resources that could help

EVEN IF NO EXPLICIT TASKS ARE MENTIONED, identify valuable research directions, learning opportunities, or investigative actions that would benefit the participants based on their discussions.

For each action item, specify:
- Description of what needs to be done
- Who is responsible (if mentioned, otherwise suggest who might be best suited)
- Priority level (high/medium/low) based on urgency and importance
- Due date (if mentioned, otherwise suggest reasonable timeframe)
- Type: task/research/investigation/follow-up/decision

Transcript:
%s".

Definition default_topics_format : string :=
  "Analyze this meeting transcript and identify the main discussion topics. For each topic, provide:
- Topic name/title
- Brief summary of what was discussed
- Key participants involved
- Approximate start time and duration

Transcript:
%s".

Definition default_sentiment_keywords_format : string :=
  "Analyze the sentiment and extract keywords from this meeting transcript.

Determine the overall sentiment of the discussion and identify the most important keywords and phrases.

Transcript:
%s".

Definition default_other_format : string :=
  "Analyze this meeting transcript and provide insights.

Transcript:
%s".

Definition direct_summary_format : string :=
  "Analyze this meeting transcript and provide a comprehensive summary.

Additional Instructions: %s

Transcript:
%s".

Definition direct_key_points_format : string :=
  "Extract the most important key points from this meeting transcript.

Additional Instructions: %s

Transcript:
%s".

Definition direct_action_items_format : string :=
  "Identify all actionable items from this meeting transcript.

Additional Instructions: %s

For each action item, specify:
- Description of what needs to be done
- Who is responsible (if mentioned)
- Priority level (high/medium/low)
- Due date (if mentioned)

Transcript:
%s".

Definition direct_topics_format : string :=
  "Analyze this meeting transcript and identify the main discussion topics.

Additional Instructions: %s

For each topic, provide:
- Topic name/title
- Brief summary of what was discussed
- Key participants involved
- Approximate start time and duration

Transcript:
%s".

Definition direct_sentiment_keywords_format : string :=
  "Analyze the sentiment and extract important keywords from this meeting transcript.

Additional Instructions: %s

Determine the overall sentiment and identify key themes and important terms.

Transcript:
%s".

Definition secure_summary_format : string :=
  "%s

Based on your expertise and role described above, analyze this meeting transcript and provide a comprehensive summary.

Transcript:
%s".

Definition secure_key_points_format : string :=
  "%s

Based on your expertise and role described above, extract the most important key points from this meeting transcript.

Transcript:
%s".

Definition secure_action_items_format : string :=
  "%s

Based on your expertise and role described above, identify all actionable items from this meeting transcript.

For each action item, specify:
- Description of what needs to be done
- Who is responsible (if mentioned)
- Priority level (high/medium/low)
- Due date (if mentioned)

Transcript:
%s".

Definition secure_topics_format : string :=
  "%s

Based on your expertise and role described above, analyze this meeting transcript and identify the main discussion topics.

For each topic, provide:
- Topic name/title
- Brief summary of what was discussed
- Key participants involved
- Approximate start time and duration

Transcript:
%s".

Definition secure_sentiment_keywords_format : string :=
  "%s

Based on your expertise and role described above, analyze the sentiment and extract important keywords from this meeting transcript.

Determine the overall sentiment and identify key themes and important terms.

Transcript:
%s".

Definition task_prompt_format : string :=
  "Given this role description for an analyst agent:

%s

Generate specific instructions for how this agent should approach %s in meetings. Focus on their expertise, experience level, analytical style, and specific methodologies they should use. Provide clear, actionable guidance that captures their unique approach to this type of analysis.

Keep the response focused and professional, as these instructions will be used directly in LLM prompts.".

(** The format [extractKeyPoints] passes to [buildAnalysisPrompt]. *)
Definition extractKeyPoints_format : string :=
  "Extract the key points from this meeting transcript. Focus on:
- Important decisions or agreements
- Critical information shared
- Action-oriented statements
- Questions that need answers
- Commitments made

Provide the most important takeaways from the discussion.

Transcript:
%s

Provide your response in the following JSON format within a code block:
`json
{
  " +:+ GoString.dq +:+
  "key_points" +:+ GoString.dq +:+
  ": [" +:+ GoString.dq +:+
  "point1" +:+ GoString.dq +:+
  ", " +:+ GoString.dq +:+
  "point2" +:+ GoString.dq +:+
  ", " +:+ GoString.dq +:+
  "point3" +:+ GoString.dq +:+
  "]
}
`".

(** The format [generateSummary] passes to [buildAnalysisPrompt]. *)
Definition generateSummary_format : string :=
  "Analyze this meeting transcript and provide a comprehensive summary. You MUST use the google_search tool to validate and verify any factual claims, statistics, figures, technical details, company information, or specific statements that can be fact-checked.

		Focus on:
		- Main topics discussed
		- Key decisions made  
		- Important information shared
		- Overall meeting progress and outcomes
		- Validation of any claims, facts, or figures mentioned

		IMPORTANT: For any factual statements, statistics, company data, technical specifications, or verifiable claims mentioned in the meeting:
		1. Use google_search to verify the accuracy
		2. Cross-reference multiple sources when possible
		3. Note if information cannot be verified or appears outdated
		4. Include relevant context from your search results

		Transcript:
		%s

		Provide your response in the following JSON format within a code block:
		`json
		{
			" +:+ GoString.dq +:+
  "summary" +:+ GoString.dq +:+
  ": " +:+ GoString.dq +:+
  "Your comprehensive summary here with validated facts and verified information" +:+ GoString.dq +:+
  ",
			" +:+ GoString.dq +:+
  "key_themes" +:+ GoString.dq +:+
  ": [" +:+ GoString.dq +:+
  "theme1" +:+ GoString.dq +:+
  ", " +:+ GoString.dq +:+
  "theme2" +:+ GoString.dq +:+
  ", " +:+ GoString.dq +:+
  "theme3" +:+ GoString.dq +:+
  "]
		}
		`".

(** The format [identifyActionItems] passes to [buildAnalysisPrompt]. *)
Definition identifyActionItems_format : string :=
  "Identify action items from this meeting transcript. Be VERY AGGRESSIVE in finding actionables - look beyond explicit tasks to identify research opportunities, follow-ups, and valuable investigations.

Look for:
- Explicit tasks that need to be completed
- Follow-ups required from discussions
- Decisions that need implementation
- Assignments given to specific people
- Deadlines mentioned
- Research opportunities mentioned or implied
- Unresolved questions that need investigation
- Topics that participants showed interest in exploring further
- Problems or challenges that need solutions
- Ideas worth developing or validating
- Market research, competitive analysis, or data gathering needs
- Technical investigations or proof-of-concepts to build
- Stakeholder consultations or expert opinions to seek
- Tools, processes, or systems to evaluate
- Industry trends or best practices to research

For discussions about personalities, roles, or team dynamics:
- Research specific methodologies, frameworks, or tools mentioned
- Investigate industry best practices for team challenges discussed
- Find case studies or examples relevant to situations discussed
- Look up experts, books, or resources that could help

EVEN IF NO EXPLICIT TASKS ARE MENTIONED, identify valuable research directions, learning opportunities, or investigative actions that would benefit the participants based on their discussions.

For each action item, identify:
- Description of what needs to be done
- Who is responsible (if mentioned, otherwise suggest who might be best suited)
- Priority level (high/medium/low) based on urgency and importance
- Due date (if mentioned, otherwise suggest reasonable timeframe)
- Type: task/research/investigation/follow-up/decision

Transcript:
%s

Provide your response in the following JSON format within a code block:
`json
{
  " +:+ GoString.dq +:+
  "action_items" +:+ GoString.dq +:+
  ": [
    {
      " +:+ GoString.dq +:+
  "description" +:+ GoString.dq +:+
  ": " +:+ GoString.dq +:+
  "Task description - be specific about what needs to be researched/done/investigated" +:+ GoString.dq +:+
  ",
      " +:+ GoString.dq +:+
  "assignee" +:+ GoString.dq +:+
  ": " +:+ GoString.dq +:+
  "Person name (optional) or use 'Reviewer'" +:+ GoString.dq +:+
  ",
      " +:+ GoString.dq +:+
  "priority" +:+ GoString.dq +:+
  ": " +:+ GoString.dq +:+
  "high (try to not use high until very necessary) / medium / low" +:+ GoString.dq +:+
  ",
      " +:+ GoString.dq +:+
  "type" +:+ GoString.dq +:+
  ": " +:+ GoString.dq +:+
  "task/research/investigation/follow-up/decision" +:+ GoString.dq +:+
  "
    }
  ]
}
`".

(** The format [extractTopics] passes to [buildAnalysisPrompt]. *)
Definition extractTopics_format : string :=
  "Analyze this meeting transcript and identify the main discussion topics. For each topic, provide:
- Topic name/title
- Brief summary of what was discussed
- Key participants involved
- Approximate start time and duration

Transcript:
%s

Provide your response in the following JSON format within a code block:
`json
{
  " +:+ GoString.dq +:+
  "topics" +:+ GoString.dq +:+
  ": [
    {
      " +:+ GoString.dq +:+
  "topic" +:+ GoString.dq +:+
  ": " +:+ GoString.dq +:+
  "Topic name" +:+ GoString.dq +:+
  ",
      " +:+ GoString.dq +:+
  "summary" +:+ GoString.dq +:+
  ": " +:+ GoString.dq +:+
  "Brief summary of discussion" +:+ GoString.dq +:+
  ",
      " +:+ GoString.dq +:+
  "participants" +:+ GoString.dq +:+
  ": [" +:+ GoString.dq +:+
  "Speaker1" +:+ GoString.dq +:+
  ", " +:+ GoString.dq +:+
  "Speaker2" +:+ GoString.dq +:+
  "],
      " +:+ GoString.dq +:+
  "start_time" +:+ GoString.dq +:+
  ": " +:+ GoString.dq +:+
  "HH:MM" +:+ GoString.dq +:+
  ",
      " +:+ GoString.dq +:+
  "duration_minutes" +:+ GoString.dq +:+
  ": 15
    }
  ]
}
`".

(** The format [analyzeSentimentAndKeywords] passes to [buildAnalysisPrompt]. *)
Definition analyzeSentimentAndKeywords_format : string :=
  "Analyze the sentiment and extract keywords from this meeting transcript.

Determine the overall sentiment of the discussion and identify the most important keywords and phrases.

Transcript:
%s

Provide your response in the following JSON format within a code block:
`json
{
  " +:+ GoString.dq +:+
  "sentiment" +:+ GoString.dq +:+
  ": " +:+ GoString.dq +:+
  "positive/negative/neutral/mixed" +:+ GoString.dq +:+
  ",
  " +:+ GoString.dq +:+
  "keywords" +:+ GoString.dq +:+
  ": [" +:+ GoString.dq +:+
  "keyword1" +:+ GoString.dq +:+
  ", " +:+ GoString.dq +:+
  "keyword2" +:+ GoString.dq +:+
  ", " +:+ GoString.dq +:+
  "keyword3" +:+ GoString.dq +:+
  "],
  " +:+ GoString.dq +:+
  "confidence" +:+ GoString.dq +:+
  ": 0.85
}
`".

(** The five tasks by analysis type, each with the format it passes to
    [buildAnalysisPrompt]: the prompt of the task when the agent has no
    custom instructions is that format filled with the transcript. *)
Definition task_formats : list (string * string) :=
  [ ("summary", generateSummary_format);
    ("key_points", extractKeyPoints_format);
    ("action_items", identifyActionItems_format);
    ("topics", extractTopics_format);
    ("sentiment_keywords", analyzeSentimentAndKeywords_format) ].

(** The format [getDefaultPrompt] fills for an analysis type, by the cases
    of its switch. *)
Definition fallback_format (analysisType : string) : string :=
  if bool_decide (analysisType = "summary") then default_summary_format
  else if bool_decide (analysisType = "key_points") then
    default_key_points_format
  else if bool_decide (analysisType = "action_items") then
    default_action_items_format
  else if bool_decide (analysisType = "topics") then default_topics_format
  else if bool_decide (analysisType = "sentiment_keywords") then
    default_sentiment_keywords_format
  else default_other_format.

(** A format without a verb before or after its one slot. *)
Fixpoint no_percent (s : string) : bool :=
  match s with
  | String c s' => negb (Ascii.eqb c "%"%char) && no_percent s'
  | EmptyString => true
  end.

(** A text of ASCII bytes only. *)
Fixpoint is_ascii (s : string) : bool :=
  match s with
  | String c s' => bool_decide (nat_of_ascii c < 128)%nat && is_ascii s'
  | EmptyString => true
  end.

(** [pattern], which is in lower case, occurs in [s] in some letter case. *)
Definition occurs_ignoring_case (s pattern : string) : Prop :=
  ∃ pre mid post, s = pre +:+ mid +:+ post ∧ ToLowerASCII mid = pattern.

Section Prompts.

(** [strings.ToLower] maps every Unicode letter to its lower case; it is
    taken as a parameter ([ToLowerASCII] is its restriction to ASCII). *)
Variable ToLower : string → string.

(** [isSafeInstruction] *)
Definition isSafeInstruction (instructions : string) : bool :=
  if bool_decide (5000 < GoString.len instructions) then false
  else
    let instructionsLower := ToLower instructions in
    forallb (λ pattern, negb (GoString.Contains instructionsLower pattern))
      harmfulPatterns.

(** [getDefaultPrompt] *)
Definition getDefaultPrompt (analysisType transcript : string) : string :=
  if bool_decide (analysisType = "summary") then
    Sprintf default_summary_format [transcript]
  else if bool_decide (analysisType = "key_points") then
    Sprintf default_key_points_format [transcript]
  else if bool_decide (analysisType = "action_items") then
    Sprintf default_action_items_format [transcript]
  else if bool_decide (analysisType = "topics") then
    Sprintf default_topics_format [transcript]
  else if bool_decide (analysisType = "sentiment_keywords") then
    Sprintf default_sentiment_keywords_format [transcript]
  else Sprintf default_other_format [transcript].

(** [buildDirectPrompt] *)
Definition buildDirectPrompt (analysisType clientInstructions transcript
    : string) : string :=
  if negb (isSafeInstruction clientInstructions) then
    getDefaultPrompt analysisType transcript
  else if bool_decide (analysisType = "summary") then
    Sprintf direct_summary_format [clientInstructions; transcript]
  else if bool_decide (analysisType = "key_points") then
    Sprintf direct_key_points_format [clientInstructions; transcript]
  else if bool_decide (analysisType = "action_items") then
    Sprintf direct_action_items_format [clientInstructions; transcript]
  else if bool_decide (analysisType = "topics") then
    Sprintf direct_topics_format [clientInstructions; transcript]
  else if bool_decide (analysisType = "sentiment_keywords") then
    Sprintf direct_sentiment_keywords_format [clientInstructions; transcript]
  else getDefaultPrompt analysisType transcript.

Definition taskDescription (analysisType : string) : string :=
  if bool_decide (analysisType = "summary") then
    "creating comprehensive meeting summaries"
  else if bool_decide (analysisType = "key_points") then
    "extracting key points and important takeaways"
  else if bool_decide (analysisType = "action_items") then
    "identifying actionable items and next steps"
  else if bool_decide (analysisType = "topics") then
    "analyzing discussion topics and themes"
  else if bool_decide (analysisType = "sentiment_keywords") then
    "analyzing sentiment and extracting keywords"
  else "analyzing meeting content".

(** [generateTaskPromptFromCustomInstructions]; the call on a nil provider
    panics. *)
Definition generateTaskPromptFromCustomInstructions (a : AnalystAgent)
    (analysisType customInstructions : string) : option (result string) :=
  let prompt :=
    Sprintf task_prompt_format
      [customInstructions; taskDescription analysisType] in
  provider ← llmProvider a;
  match Call provider prompt with
  | Err msg => Some (Err ("failed to generate task prompt: " +:+ msg))
  | Ok response =>
      let taskPrompt := GoString.TrimSpace response in
      if bool_decide (taskPrompt = "") then
        Some (Err "empty task prompt generated")
      else Some (Ok taskPrompt)
  end.

(** [buildSecurePromptFromInstructions] *)
Definition buildSecurePromptFromInstructions (a : AnalystAgent)
    (analysisType customInstructions transcript : string) : option string :=
  match CustomPrompt a with
  | None => Some (buildDirectPrompt analysisType customInstructions transcript)
  | Some customPrompt =>
      if bool_decide (customPrompt = "") then
        Some (buildDirectPrompt analysisType customInstructions transcript)
      else if negb (isSafeInstruction customPrompt) then
        Some (getDefaultPrompt analysisType transcript)
      else
        generated ←
          generateTaskPromptFromCustomInstructions a analysisType customPrompt;
        match generated with
        | Err _ =>
            Some (buildDirectPrompt analysisType customInstructions transcript)
        | Ok taskPrompt =>
            if bool_decide (analysisType = "summary") then
              Some (Sprintf secure_summary_format [taskPrompt; transcript])
            else if bool_decide (analysisType = "key_points") then
              Some (Sprintf secure_key_points_format [taskPrompt; transcript])
            else if bool_decide (analysisType = "action_items") then
              Some (Sprintf secure_action_items_format [taskPrompt; transcript])
            else if bool_decide (analysisType = "topics") then
              Some (Sprintf secure_topics_format [taskPrompt; transcript])
            else if bool_decide (analysisType = "sentiment_keywords") then
              Some (Sprintf secure_sentiment_keywords_format
                      [taskPrompt; transcript])
            else Some (getDefaultPrompt analysisType transcript)
        end
  end.

(** [buildAnalysisPrompt]; [defaultPrompt] is the format the task passes. *)
Definition buildAnalysisPrompt (a : AnalystAgent)
    (analysisType defaultPrompt transcript : string) : option string :=
  match CustomPrompt a with
  | Some customPrompt =>
      if bool_decide (customPrompt ≠ "") then
        buildSecurePromptFromInstructions a analysisType customPrompt
          transcript
      else Some (Sprintf defaultPrompt [transcript])
  | None => Some (Sprintf defaultPrompt [transcript])
  end.

End Prompts.

(** An instruction the validation rejects, in the words of the
    specification: longer than 5,000 characters (code points, or bytes as
    the code counts them), or with a denylisted pattern under a scan that
    ignores the letter case: the pattern is in the lowered form of the
    instruction, or the instruction is ASCII and holds the pattern in some
    letter case. *)
Definition rejected (ToLower : string → string) (instructions : string)
    : Prop :=
  5000 < code_points instructions
  ∨ 5000 < GoString.len instructions
  ∨ Exists (λ pattern, GoString.Contains (ToLower instructions) pattern = true)
      harmfulPatterns
  ∨ (is_ascii instructions = true
     ∧ Exists (occurs_ignoring_case instructions) harmfulPatterns).

Definition agent_with_prompt (instructions : string) : AnalystAgent :=
  {| agentID := agentID sample_agent; CustomPrompt := Some instructions;
     data := data sample_agent; filePath := filePath sample_agent;
     llmProvider := llmProvider sample_agent;
     lastAnalysis := lastAnalysis sample_agent;
     currentAnalysisSnapshot := None |}.

(** ** Citation merging *)

(** [supports[j], supports[j+1] = supports[j+1], supports[j]] when the end
    index at [j] is the smaller one. *)
Definition swap_if_less (supports : list GroundingSupport) (j : nat)
    : list GroundingSupport :=
  match supports !! j, supports !! S j with
  | Some x, Some y =>
      if bool_decide (EndIndex x < EndIndex y)
      then <[S j := x]> (<[j := y]> supports)
      else supports
  | _, _ => supports
  end.

(** The inner loop [for j := ...; j < bound; j++], [todo] iterations left. *)
Fixpoint bubble_inner (todo : nat) (j : nat) (supports : list GroundingSupport)
    : list GroundingSupport :=
  match todo with
  | O => supports
  | S todo' => bubble_inner todo' (S j) (swap_if_less supports j)
  end.

(** The outer loop [for i := ...; i < len(supports); i++]. *)
Fixpoint bubble_outer (todo : nat) (i : nat) (supports : list GroundingSupport)
    : list GroundingSupport :=
  match todo with
  | O => supports
  | S todo' =>
      bubble_outer todo' (S i)
        (bubble_inner (length supports - 1 - i) 0 supports)
  end.

Definition sort_supports (supports : list GroundingSupport)
    : list GroundingSupport :=
  bubble_outer (length supports) 0 supports.

(** [fmt.Sprintf("[%d](%s)", i+1, uri)] *)
Definition citation_link (i : Z) (uri : string) : string :=
  "[" +:+ GoString.itoa (i + 1) +:+ "](" +:+ uri +:+ ")".

(** [chunks[i]]; an index outside [0..len(chunks)-1] panics. *)
Definition chunk_at (chunks : list GroundingChunk) (i : Z)
    : option GroundingChunk :=
  if bool_decide (0 <= i) then chunks !! Z.to_nat i else None.

(** The loop over [support.GroundingChunkIndices]. *)
Fixpoint citation_links (chunks : list GroundingChunk) (indices : list Z)
    (citationLinks : list string) : option (list string) :=
  match indices with
  | [] => Some citationLinks
  | i :: rest =>
      if bool_decide (i < Z.of_nat (length chunks)) then
        chunk ← chunk_at chunks i;
        citation_links chunks rest
          (citationLinks ++ [citation_link i (URI chunk)])
      else citation_links chunks rest citationLinks
  end.

(** The body of the loop over the sorted supports. *)
Definition add_support (chunks : list GroundingChunk)
    (support : GroundingSupport) (result : string) : option string :=
  let endIndex := EndIndex support in
  if bool_decide (0 < length (GroundingChunkIndices support))%nat
     && bool_decide (endIndex <= GoString.len result)
  then
    citationLinks ← citation_links chunks (GroundingChunkIndices support) [];
    if bool_decide (0 < length citationLinks)%nat then
      let citationString := " " +:+ GoString.Join citationLinks ", " in
      before ← GoString.slice_to result endIndex;
      after ← GoString.slice_from result endIndex;
      Some (before +:+ citationString +:+ after)
    else Some result
  else Some result.

Fixpoint add_supports (chunks : list GroundingChunk)
    (supports : list GroundingSupport) (result : string) : option string :=
  match supports with
  | [] => Some result
  | support :: rest =>
      result' ← add_support chunks support result;
      add_supports chunks rest result'
  end.

(** [addCitations]; a nil [groundingMetadata] is [None]. *)
Definition addCitations (text : string)
    (groundingMetadata : option GroundingMetadata) : option string :=
  match groundingMetadata with
  | None => Some text
  | Some md =>
      if bool_decide (length (GroundingSupports md) = 0%nat) then Some text
      else
        add_supports (GroundingChunks md)
          (sort_supports (GroundingSupports md)) text
  end.

(** *** Markers, in the words of the specification *)

(** The token [[displayNumber](uri)] of chunk [i], display number [i + 1]. *)
Definition link_of (chunks : list GroundingChunk) (i : Z) : string :=
  citation_link i (from_option URI "" (chunks !! Z.to_nat i)).

(** The marker of a support: a space, then the tokens joined by [", "]. *)
Definition marker (chunks : list GroundingChunk) (indices : list Z) : string :=
  " " +:+ GoString.Join (link_of chunks <$> indices) ", ".

(** *** Sample metadata *)

Definition sample_chunks : list GroundingChunk :=
  [ {| URI := "https://a.example"; Title := "A" |};
    {| URI := "https://b.example"; Title := "B" |} ].

Definition support_at (endIndex : Z) (indices : list Z) : GroundingSupport :=
  {| StartIndex := 0; EndIndex := endIndex; SegmentText := "";
     GroundingChunkIndices := indices |}.

Definition metadata_of (supports : list GroundingSupport) : GroundingMetadata :=
  {| WebSearchQueries := []; GroundingChunks := sample_chunks;
     GroundingSupports := supports |}.

Definition sample_text : string :=
  "The quick brown fox jumps over the lazy dog".

(** ** The query accessor, with the memory it shares

    [GetAnalysis] returns a pointer to a copy of the record.  What the copy
    shares with the record is decided by the objects behind its slices and
    pointers, so the record is laid out in a heap here: a slice is the address
    of its backing array ([None] is the nil slice), a pointer is an address
    ([None] is nil). *)

Module Sharing.

Definition addr := nat.

Record TopicRef := {
  rTopic : string;
  rTopicStartTime : string;
  rTopicDuration : float64;
  rTopicSummary : string;
  rTopicParticipants : option addr
}.

Record GroundedRef := {
  rText : string;
  rTextWithCitations : string;
  rGroundingMetadata : option addr
}.

Inductive object : Type :=
  | OEntries (l : list TranscriptEntry)
  | OStrings (l : list string)
  | OItems (l : list ActionItem)
  | OTopics (l : list TopicRef)
  | OGrounded (g : GroundedRef)
  | OMetadata (m : GroundingMetadata).

Abbreviation heap := (list object) (only parsing).

(** The struct [AnalysisData] as it lies in memory. *)
Record DataRef := {
  rMeetingID : string;
  rMeetingURL : string;
  rStartTime : Time;
  rLastUpdated : Time;
  rTranscript : option addr;
  rSummary : string;
  rGroundedSummary : option addr;
  rKeyPoints : option addr;
  rGroundedKeyPoints : option addr;
  rActionItems : option addr;
  rTopics : option addr;
  rParticipants : option addr;
  rDurationMinutes : float64;
  rWordCount : Z;
  rSentiment : string;
  rKeywords : option addr
}.

Definition alloc (h : heap) (o : object) : heap * addr :=
  (h ++ [o], length h).

(** The elements of a slice; [None] when the address holds no array of
    the element type. *)
Definition entries_of (h : heap) (s : option addr)
    : option (list TranscriptEntry) :=
  match s with
  | None => Some []
  | Some p => match h !! p with Some (OEntries l) => Some l | _ => None end
  end.

Definition strings_of (h : heap) (s : option addr) : option (list string) :=
  match s with
  | None => Some []
  | Some p => match h !! p with Some (OStrings l) => Some l | _ => None end
  end.

Definition items_of (h : heap) (s : option addr) : option (list ActionItem) :=
  match s with
  | None => Some []
  | Some p => match h !! p with Some (OItems l) => Some l | _ => None end
  end.

Definition topics_of (h : heap) (s : option addr) : option (list TopicRef) :=
  match s with
  | None => Some []
  | Some p => match h !! p with Some (OTopics l) => Some l | _ => None end
  end.

Definition zero_item : ActionItem :=
  {| ID := ""; Description := ""; Assignee := ""; Priority := "";
     ItemType := ""; Status := ""; CreatedAt := GoTime.zero |}.

Definition zero_topic : TopicRef :=
  {| rTopic := ""; rTopicStartTime := ""; rTopicDuration := 0%Q;
     rTopicSummary := ""; rTopicParticipants := None |}.

(** [make([]T, len(src))] followed by [copy]. *)
Definition fresh_copy {A : Type} (zero : A) (src : list A) : list A :=
  go_copy (replicate (length src) zero) src.

(** [GetAnalysis]: [dataCopy := *a.data] copies every field, slice headers
    and pointers included; six slices then get an array of their own. *)
Definition GetAnalysis (h : heap) (d : DataRef) : option (heap * DataRef) :=
  transcript ← entries_of h (rTranscript d);
  let '(h, pTranscript) :=
    alloc h (OEntries (fresh_copy zero_entry transcript)) in
  keyPoints ← strings_of h (rKeyPoints d);
  let '(h, pKeyPoints) := alloc h (OStrings (fresh_copy "" keyPoints)) in
  actionItems ← items_of h (rActionItems d);
  let '(h, pActionItems) :=
    alloc h (OItems (fresh_copy zero_item actionItems)) in
  topics ← topics_of h (rTopics d);
  let '(h, pTopics) := alloc h (OTopics (fresh_copy zero_topic topics)) in
  participants ← strings_of h (rParticipants d);
  let '(h, pParticipants) :=
    alloc h (OStrings (fresh_copy "" participants)) in
  keywords ← strings_of h (rKeywords d);
  let '(h, pKeywords) := alloc h (OStrings (fresh_copy "" keywords)) in
  Some (h,
    {| rMeetingID := rMeetingID d; rMeetingURL := rMeetingURL d;
       rStartTime := rStartTime d; rLastUpdated := rLastUpdated d;
       rTranscript := Some pTranscript; rSummary := rSummary d;
       rGroundedSummary := rGroundedSummary d;
       rKeyPoints := Some pKeyPoints;
       rGroundedKeyPoints := rGroundedKeyPoints d;
       rActionItems := Some pActionItems; rTopics := Some pTopics;
       rParticipants := Some pParticipants;
       rDurationMinutes := rDurationMinutes d; rWordCount := rWordCount d;
       rSentiment := rSentiment d; rKeywords := Some pKeywords |}).

(** *** The value a record stands for *)

Definition read_metadata (h : heap) (p : option addr)
    : option (option GroundingMetadata) :=
  match p with
  | None => Some None
  | Some q => match h !! q with Some (OMetadata m) => Some (Some m) | _ => None end
  end.

Definition read_grounded (h : heap) (p : option addr)
    : option (option GroundedContent) :=
  match p with
  | None => Some None
  | Some q =>
      match h !! q with
      | Some (OGrounded g) =>
          md ← read_metadata h (rGroundingMetadata g);
          Some (Some {| ContentText := rText g;
                        TextWithCitations := rTextWithCitations g;
                        ContentMetadata := md |})
      | _ => None
      end
  end.

Definition read_topic (h : heap) (t : TopicRef) : option TopicDiscussion :=
  ps ← strings_of h (rTopicParticipants t);
  Some {| Topic := rTopic t; TopicStartTime := rTopicStartTime t;
          TopicDuration := rTopicDuration t; TopicSummary := rTopicSummary t;
          TopicParticipants := ps |}.

Definition read (h : heap) (d : DataRef) : option AnalysisData :=
  transcript ← entries_of h (rTranscript d);
  groundedSummary ← read_grounded h (rGroundedSummary d);
  keyPoints ← strings_of h (rKeyPoints d);
  groundedKeyPoints ← read_grounded h (rGroundedKeyPoints d);
  actionItems ← items_of h (rActionItems d);
  topicRefs ← topics_of h (rTopics d);
  topics ← mapM (read_topic h) topicRefs;
  participants ← strings_of h (rParticipants d);
  keywords ← strings_of h (rKeywords d);
  Some {| MeetingID := rMeetingID d; MeetingURL := rMeetingURL d;
          StartTime := rStartTime d; LastUpdated := rLastUpdated d;
          Transcript := transcript; Summary := rSummary d;
          GroundedSummary := groundedSummary; KeyPoints := keyPoints;
          GroundedKeyPoints := groundedKeyPoints;
          ActionItems := actionItems; Topics := topics;
          Participants := participants;
          DurationMinutes := rDurationMinutes d; WordCount := rWordCount d;
          Sentiment := rSentiment d; Keywords := keywords |}.

(** *** What a caller can do with the returned value *)

(** [p.Text = s] for a [*GroundedContent]. *)
Definition store_grounded_text (h : heap) (p : option addr) (s : string)
    : option heap :=
  q ← p;
  match h !! q with
  | Some (OGrounded g) =>
      Some (<[q := OGrounded {| rText := s;
                                rTextWithCitations := rTextWithCitations g;
                                rGroundingMetadata := rGroundingMetadata g |}]> h)
  | _ => None
  end.

(** [s[i] = e] for a [[]TranscriptEntry]. *)
Definition store_entry (h : heap) (s : option addr) (i : nat)
    (e : TranscriptEntry) : option heap :=
  q ← s;
  match h !! q with
  | Some (OEntries l) =>
      if bool_decide (i < length l)%nat then Some (<[q := OEntries (<[i := e]> l)]> h)
      else None
  | _ => None
  end.

(** A record with one transcript entry, a grounded summary and grounded
    key points. *)
Definition sample_heap : heap :=
  [ OEntries [ {| Timestamp := GoTime.Unix 1700000000; Speaker := "Ann";
                  Text := "hello"; IsAgent := false |} ];
    OGrounded {| rText := "summary"; rTextWithCitations := "summary [1](u)";
                 rGroundingMetadata := None |};
    OGrounded {| rText := "points"; rTextWithCitations := "points";
                 rGroundingMetadata := None |};
    OStrings ["Ann"] ].

Definition sample_record : DataRef :=
  {| rMeetingID := "agent-1"; rMeetingURL := "https://meet.example/abc";
     rStartTime := GoTime.Unix 1700000000;
     rLastUpdated := GoTime.Unix 1700000000;
     rTranscript := Some 0%nat; rSummary := "summary";
     rGroundedSummary := Some 1%nat; rKeyPoints := None;
     rGroundedKeyPoints := Some 2%nat; rActionItems := None;
     rTopics := None; rParticipants := Some 3%nat;
     rDurationMinutes := 0%Q; rWordCount := 1; rSentiment := "";
     rKeywords := None |}.

End Sharing.

(** ** More of the citation merger *)

(** One sweep of the inner loop read on the list itself: [n] comparisons of
    neighbours, from the head on. *)
Fixpoint pass (n : nat) (supports : list GroundingSupport)
    : list GroundingSupport :=
  match n, supports with
  | S n', x :: y :: rest =>
      if bool_decide (EndIndex x < EndIndex y) then y :: pass n' (x :: rest)
      else x :: pass n' (y :: rest)
  | _, _ => supports
  end.

(** A support the loop of [addCitations] inserts a marker for: its end index
    lies within the text and its chunk indices, at least one, are all within
    the chunk list. *)
Definition insertable (chunks : list GroundingChunk) (text : string)
    (support : GroundingSupport) : Prop :=
  0 <= EndIndex support <= GoString.len text
  ∧ GroundingChunkIndices support ≠ []
  ∧ Forall (λ i, 0 <= i < Z.of_nat (length chunks))
      (GroundingChunkIndices support).

(** The text with the marker of every support placed right after the first
    [EndIndex] bytes of the text; [sorted] lists the supports by descending
    end index. *)
Fixpoint splice (chunks : list GroundingChunk) (sorted : list GroundingSupport)
    (text : string) : string :=
  match sorted with
  | [] => text
  | support :: rest =>
      splice chunks rest
        (GoString.take (Z.to_nat (EndIndex support)) text)
      +:+ marker chunks (GroundingChunkIndices support)
      +:+ GoString.drop (Z.to_nat (EndIndex support)) text
  end.

(** The bytes all markers add. *)
Definition markers_len (chunks : list GroundingChunk)
    (supports : list GroundingSupport) : Z :=
  foldr Z.add 0
    ((λ support, GoString.len (marker chunks (GroundingChunkIndices support)))
       <$> supports).

(** [truncateString] of package [llm]. *)
Definition truncateString (s : string) (maxLen : Z) : option string :=
  if bool_decide (GoString.len s <= maxLen) then Some s
  else
    head ← GoString.slice_to s (maxLen - 3);
    Some (head +:+ "...").

(** ** Runs of ingestion *)

(** Calls of [ProcessUtterance] one after the other, each with its clock
    readings. *)
Fixpoint ingest (batches : list (clock * list (gmap string value)))
    (a : AnalystAgent) : AnalystAgent :=
  match batches with
  | [] => a
  | batch :: rest => ingest rest (ProcessUtterance batch.1 batch.2 a).1
  end.

(** The words of a transcript, counted as [ProcessUtterance] counts them. *)
Definition words_of (entries : list TranscriptEntry) : Z :=
  foldr Z.add 0 ((λ entry, GoString.FieldsCount (Text entry)) <$> entries).

(** The entries [getRecentTranscript] selects from. *)
Definition visible_entries (a : AnalystAgent) : list TranscriptEntry :=
  default (Transcript (data a)) (currentAnalysisSnapshot a).

(** [callLLM] *)
Definition callLLM (a : AnalystAgent) (prompt : string) : result string :=
  match llmProvider a with
  | None => Err "LLM provider not available"
  | Some provider =>
      if negb (IsAvailable provider) then Err "LLM provider not available"
      else Call provider prompt
  end.

(** A provider that answers every prompt with the same reply. *)
Definition constant_provider (reply : result string) : LLMProvider :=
  {| Call := λ _, reply; IsAvailable := true |}.

Definition agent_with (instructions : string) (provider : option LLMProvider)
    : AnalystAgent :=
  {| agentID := agentID sample_agent; CustomPrompt := Some instructions;
     data := data sample_agent; filePath := filePath sample_agent;
     llmProvider := provider;
     lastAnalysis := lastAnalysis sample_agent;
     currentAnalysisSnapshot := None |}.

(** ** Grounded results *)

(** [llm.GroundedResponse]; its fields [Text] and [GroundingMetadata] are
    named after the response here. *)
Record GroundedResponse := {
  ResponseText : string;
  ResponseMetadata : option GroundingMetadata
}.

Definition set_Summary (v : string) (d : AnalysisData) :=
  {| MeetingID := MeetingID d; MeetingURL := MeetingURL d;
     StartTime := StartTime d; LastUpdated := LastUpdated d;
     Transcript := Transcript d; Summary := v;
     GroundedSummary := GroundedSummary d; KeyPoints := KeyPoints d;
     GroundedKeyPoints := GroundedKeyPoints d; ActionItems := ActionItems d;
     Topics := Topics d; Participants := Participants d;
     DurationMinutes := DurationMinutes d; WordCount := WordCount d;
     Sentiment := Sentiment d; Keywords := Keywords d |}.

Definition set_GroundedSummary (v : option GroundedContent)
    (d : AnalysisData) :=
  {| MeetingID := MeetingID d; MeetingURL := MeetingURL d;
     StartTime := StartTime d; LastUpdated := LastUpdated d;
     Transcript := Transcript d; Summary := Summary d;
     GroundedSummary := v; KeyPoints := KeyPoints d;
     GroundedKeyPoints := GroundedKeyPoints d; ActionItems := ActionItems d;
     Topics := Topics d; Participants := Participants d;
     DurationMinutes := DurationMinutes d; WordCount := WordCount d;
     Sentiment := Sentiment d; Keywords := Keywords d |}.

Definition set_KeyPoints (v : list string) (d : AnalysisData) :=
  {| MeetingID := MeetingID d; MeetingURL := MeetingURL d;
     StartTime := StartTime d; LastUpdated := LastUpdated d;
     Transcript := Transcript d; Summary := Summary d;
     GroundedSummary := GroundedSummary d; KeyPoints := v;
     GroundedKeyPoints := GroundedKeyPoints d; ActionItems := ActionItems d;
     Topics := Topics d; Participants := Participants d;
     DurationMinutes := DurationMinutes d; WordCount := WordCount d;
     Sentiment := Sentiment d; Keywords := Keywords d |}.

Definition set_GroundedKeyPoints (v : option GroundedContent)
    (d : AnalysisData) :=
  {| MeetingID := MeetingID d; MeetingURL := MeetingURL d;
     StartTime := StartTime d; LastUpdated := LastUpdated d;
     Transcript := Transcript d; Summary := Summary d;
     GroundedSummary := GroundedSummary d; KeyPoints := KeyPoints d;
     GroundedKeyPoints := v; ActionItems := ActionItems d;
     Topics := Topics d; Participants := Participants d;
     DurationMinutes := DurationMinutes d; WordCount := WordCount d;
     Sentiment := Sentiment d; Keywords := Keywords d |}.

(** The bullet U+2022 and the separator of the key-points text. *)
Definition bullet : string := GoString.of_bytes [226; 128; 162; 32]%nat.
Definition bullet_separator : string :=
  GoString.of_bytes [10; 226; 128; 162; 32]%nat.

(** The text [processKeyPointsWithGrounding] builds from the points. *)
Definition keyPointsText (points : list string) : string :=
  let keyPointsText := GoString.Join points bullet_separator in
  if bool_decide (keyPointsText ≠ "") then bullet +:+ keyPointsText
  else keyPointsText.

Section Grounded.

(** [json.Unmarshal] into the result struct of the summary task (its
    [summary] field) and of the key-points task (its [key_points] field);
    both are taken as parameters. *)
Variable unmarshal_summary : string → result string.
Variable unmarshal_key_points : string → result (list string).

(** [processSummaryWithGrounding]: the agent afterwards and the error
    returned; [None] is a panic.  The last line of the success path reads
    the number of chunks through the metadata pointer. *)
Definition processSummaryWithGrounding
    (groundedResponse : option GroundedResponse) (a : AnalystAgent)
    : option (AnalystAgent * option string) :=
  match groundedResponse with
  | None => Some (a, Some "grounded response is nil")
  | Some response =>
      jsonData ← extractJSONFromResponse (ResponseText response);
      if bool_decide (jsonData ≠ "") then
        match unmarshal_summary jsonData with
        | Err err => Some (a, Some err)
        | Ok summary =>
            let a := set_data (set_Summary summary (data a)) a in
            textWithCitations ←
              match ResponseMetadata response with
              | Some _ => addCitations summary (ResponseMetadata response)
              | None => Some summary
              end;
            let groundedContent :=
              {| ContentText := summary;
                 TextWithCitations := textWithCitations;
                 ContentMetadata := ResponseMetadata response |} in
            let a :=
              set_data (set_GroundedSummary (Some groundedContent) (data a))
                a in
            metadata ← ResponseMetadata response;
            let logged := length (GroundingChunks metadata) in
            Some (a, None)
        end
      else Some (a, None)
  end.

(** [processKeyPointsWithGrounding] *)
Definition processKeyPointsWithGrounding
    (groundedResponse : option GroundedResponse) (a : AnalystAgent)
    : option (AnalystAgent * option string) :=
  match groundedResponse with
  | None => Some (a, Some "grounded response is nil")
  | Some response =>
      jsonData ← extractJSONFromResponse (ResponseText response);
      if bool_decide (jsonData ≠ "") then
        match unmarshal_key_points jsonData with
        | Err err => Some (a, Some err)
        | Ok points =>
            let a := set_data (set_KeyPoints points (data a)) a in
            let text := keyPointsText points in
            textWithCitations ←
              match ResponseMetadata response with
              | Some _ => addCitations text (ResponseMetadata response)
              | None => Some text
              end;
            let groundedContent :=
              {| ContentText := text;
                 TextWithCitations := textWithCitations;
                 ContentMetadata := ResponseMetadata response |} in
            let a :=
              set_data
                (set_GroundedKeyPoints (Some groundedContent) (data a)) a in
            metadata ← ResponseMetadata response;
            let logged := length (GroundingChunks metadata) in
            Some (a, None)
        end
      else Some (a, None)
  end.

End Grounded.

(** Instances of the two decoders for the texts [Json.decode] reads, with
    keys in the case of the struct tags: a missing or null field leaves the
    zero value, a field of another type is an error. *)
Definition field (name : string) (members : list (string * json))
    : option json :=
  (λ found, found.2.2) <$> list_find (λ member, member.1 = name) members.

Definition decode_summary (jsonData : string) : result string :=
  match Json.decode jsonData with
  | Some (JObject members) =>
      match field "summary" members with
      | Some (JString summary) => Ok summary
      | Some JNull | None => Ok ""
      | Some _ => Err "json: cannot unmarshal into Go struct field .summary"
      end
  | _ => Err "invalid character"
  end.

Definition decode_key_points (jsonData : string) : result (list string) :=
  match Json.decode jsonData with
  | Some (JObject members) =>
      match field "key_points" members with
      | Some (JArray elems) =>
          from_option Ok
            (Err "json: cannot unmarshal into Go struct field .key_points")
            (mapM (λ elem,
               match elem with JString point => Some point | _ => None end)
               elems)
      | Some JNull | None => Ok []
      | Some _ =>
          Err "json: cannot unmarshal into Go struct field .key_points"
      end
  | _ => Err "invalid character"
  end.

Definition summary_reply : string :=
  "Here is the summary. ```json {" +:+ GoString.dq +:+ "summary"
  +:+ GoString.dq +:+ ":" +:+ GoString.dq +:+ sample_text +:+ GoString.dq
  +:+ "} ``` Done.".

Definition key_points_reply : string :=
  "```json {" +:+ GoString.dq +:+ "key_points" +:+ GoString.dq +:+ ":["
  +:+ GoString.dq +:+ "first" +:+ GoString.dq +:+ "," +:+ GoString.dq
  +:+ "second" +:+ GoString.dq +:+ "]} ```".

(** * Properties *)

(** ** Facts about Go strings *)

Module GoStringFacts.
Import GoString.

Local Arguments String.append : simpl nomatch.
Local Arguments Ascii.eqb : simpl never.

Lemma str_app_nil_r s : s +:+ "" = s.
Proof. induction s as [|c s IH]; simpl; [done | by rewrite IH]. Qed.

Lemma str_app_assoc s1 s2 s3 : (s1 +:+ s2) +:+ s3 = s1 +:+ (s2 +:+ s3).
Proof. induction s1 as [|c s1 IH]; simpl; [done | by rewrite IH]. Qed.

Lemma str_length_app s1 s2 :
  String.length (s1 +:+ s2) = (String.length s1 + String.length s2)%nat.
Proof. induction s1 as [|c s1 IH]; simpl; [done | by rewrite IH]. Qed.

Lemma len_app s1 s2 : len (s1 +:+ s2) = len s1 + len s2.
Proof. unfold len. rewrite str_length_app. lia. Qed.

Lemma len_nonneg s : 0 <= len s.
Proof. unfold len. lia. Qed.

Lemma str_drop_0 s : drop 0 s = s.
Proof. by destruct s. Qed.

Lemma str_take_0 s : take 0 s = "".
Proof. by destruct s. Qed.

Lemma str_drop_app_length s1 s2 n :
  drop (String.length s1 + n) (s1 +:+ s2) = drop n s2.
Proof. induction s1 as [|c s1 IH]; simpl; [done | apply IH]. Qed.

Lemma str_take_app_length s1 s2 n :
  take (String.length s1 + n) (s1 +:+ s2) = s1 +:+ take n s2.
Proof. induction s1 as [|c s1 IH]; simpl; [done | by rewrite IH]. Qed.

Lemma str_take_drop s n : take n s +:+ drop n s = s.
Proof.
  revert n. induction s as [|c s IH]; intros [|n]; simpl; try done.
  by rewrite IH.
Qed.

Lemma str_length_take s n :
  (n <= String.length s)%nat → String.length (take n s) = n.
Proof.
  revert n. induction s as [|c s IH]; intros [|n] Hn; simpl in *;
    try done; try lia.
  rewrite IH; lia.
Qed.

Lemma str_length_drop s n :
  String.length (drop n s) = (String.length s - n)%nat.
Proof.
  revert n. induction s as [|c s IH]; intros [|n]; simpl; auto.
Qed.

Lemma str_take_take s n m : (n <= m)%nat → take n (take m s) = take n s.
Proof.
  revert n m. induction s as [|c s IH]; intros [|n] [|m] Hnm; simpl;
    try done; try lia.
  rewrite IH; [done | lia].
Qed.

Lemma slice_to_eq s hi :
  0 <= hi → hi <= len s → slice_to s hi = Some (take (Z.to_nat hi) s).
Proof.
  intros H0 H1. unfold slice_to, slice.
  rewrite bool_decide_eq_true_2 by lia.
  by rewrite Z.sub_0_r, str_drop_0.
Qed.

Lemma str_take_ge s n : (String.length s <= n)%nat → take n s = s.
Proof.
  revert n. induction s as [|c s IH]; intros [|n] Hn; simpl in *;
    try done; try lia.
  rewrite IH; [done | lia].
Qed.

Lemma slice_from_eq s lo :
  0 <= lo → lo <= len s → slice_from s lo = Some (drop (Z.to_nat lo) s).
Proof.
  intros H0 H1. unfold slice_from, slice.
  rewrite bool_decide_eq_true_2 by lia.
  f_equal. apply str_take_ge. rewrite str_length_drop. unfold len in *. lia.
Qed.

Lemma HasPrefix_app s rest : HasPrefix (s +:+ rest) s = true.
Proof.
  induction s as [|c s IH]; simpl; [by destruct rest |].
  by rewrite Ascii.eqb_refl, IH.
Qed.

Lemma find_cons c s sep :
  find (String c s) sep
  = if HasPrefix (String c s) sep then Some 0%nat else S <$> find s sep.
Proof. done. Qed.

Lemma find_prefix s sep : HasPrefix s sep = true → find s sep = Some 0%nat.
Proof.
  intros H. destruct s as [|c s].
  - change (find "" sep) with (if HasPrefix "" sep then Some 0%nat else None).
    by rewrite H.
  - by rewrite find_cons, H.
Qed.

Lemma Index_not_found s sep : Index s sep = -1 ↔ find s sep = None.
Proof. unfold Index. destruct (find s sep); split; intros; try done; lia. Qed.

Lemma Contains_false s sep : Contains s sep = false ↔ find s sep = None.
Proof.
  unfold Contains, Index. destruct (find s sep).
  - rewrite bool_decide_eq_false. split; [lia | done].
  - rewrite bool_decide_eq_false. split; [done | lia].
Qed.

(** The start marker has no proper prefix that is also a suffix, so an
    occurrence cannot begin in the text before the marker and end inside
    it. *)
Lemma no_overlap_start_marker pre rest :
  pre ≠ "" →
  HasPrefix pre "```json" = false →
  HasPrefix (pre +:+ "```json" +:+ rest) "```json" = false.
Proof.
  intros Hne Hpre.
  destruct pre as [|c1 pre]; [done |]. clear Hne.
  do 6 (simpl in *;
        match goal with
        | |- context [Ascii.eqb ?x ?c] =>
            destruct (Ascii.eqb_spec x c) as [<-|]; [| done]
        end;
        rewrite ?Ascii.eqb_refl in Hpre; simpl in *;
        destruct pre as [|? pre]; [done |]).
  simpl in *.
  match goal with
  | |- context [Ascii.eqb ?x ?c] =>
      destruct (Ascii.eqb_spec x c) as [<-|]; [| done]
  end.
  rewrite ?Ascii.eqb_refl in Hpre. simpl in *. by destruct pre.
Qed.

Lemma find_start_marker pre rest :
  find pre "```json" = None →
  find (pre +:+ "```json" +:+ rest) "```json" = Some (String.length pre).
Proof.
  induction pre as [|c pre IH]; intros Hnone.
  - apply find_prefix, (HasPrefix_app "```json").
  - rewrite find_cons in Hnone.
    destruct (HasPrefix (String c pre) "```json") eqn:Hp; [done |].
    destruct (find pre "```json") eqn:Hf; [done |].
    change (String c pre +:+ "```json" +:+ rest)
      with (String c (pre +:+ "```json" +:+ rest)).
    rewrite find_cons.
    change (String c (pre +:+ "```json" +:+ rest))
      with (String c pre +:+ "```json" +:+ rest).
    rewrite no_overlap_start_marker by done.
    by rewrite IH.
Qed.

Lemma str_take_app_le s1 s2 n :
  (n <= String.length s1)%nat → take n (s1 +:+ s2) = take n s1.
Proof.
  revert n. induction s1 as [|c s1 IH]; intros [|n] Hn; simpl in *;
    try done; try lia.
  rewrite IH; [done | lia].
Qed.

Lemma str_drop_app_le s1 s2 n :
  (n <= String.length s1)%nat → drop n (s1 +:+ s2) = drop n s1 +:+ s2.
Proof.
  revert n. induction s1 as [|c s1 IH]; intros [|n] Hn; simpl in *;
    try done; try lia.
  apply IH. lia.
Qed.

Lemma str_drop_take s n m : drop n (take m s) = take (m - n) (drop n s).
Proof.
  revert n m. induction s as [|c s IH]; intros [|n] [|m]; simpl; try done.
  by destruct (m - n)%nat.
Qed.

End GoStringFacts.

(** ** Reply parsing *)

Section ReplyParsing.
Import GoString GoStringFacts.

(** An occurrence lies within the string. *)
Lemma find_bound s sep i :
  find s sep = Some i → (i + String.length sep <= String.length s)%nat.
Proof.
  revert i. induction s as [|c s IH]; intros i.
  - destruct sep; [| done]. intros [= <-]. simpl. lia.
  - rewrite find_cons.
    destruct (HasPrefix (String c s) sep) eqn:Hp.
    + intros [= <-]. clear IH. revert Hp. generalize (String c s) as t.
      induction sep as [|a sep IHsep]; intros t Hp; simpl; [lia |].
      destruct t as [|b t]; [done |]. simpl in Hp.
      apply andb_true_iff in Hp as [_ Hp]. apply IHsep in Hp. simpl in *. lia.
    + destruct (find s sep) as [j|]; [| done]. intros [= <-].
      specialize (IH j eq_refl). simpl. lia.
Qed.

(** The function never panics: both slices are within the reply. *)
Lemma extractJSONFromResponse_total response :
  is_Some (extractJSONFromResponse response).
Proof.
  unfold extractJSONFromResponse, Index.
  destruct (find response "```json") as [i|] eqn:Hi; [| by eexists].
  rewrite bool_decide_eq_false_2 by lia.
  change (len "```json") with 7.
  apply find_bound in Hi. change (String.length "```json") with 7%nat in Hi.
  rewrite slice_from_eq by (unfold len; lia).
  simpl.
  destruct (find (drop _ response) "```") as [j|] eqn:Hj; [| by eexists].
  rewrite bool_decide_eq_false_2 by lia.
  apply find_bound in Hj. rewrite str_length_drop in Hj.
  change (String.length "```") with 3%nat in Hj.
  unfold slice. rewrite bool_decide_eq_true_2; [by eexists |].
  unfold len. lia.
Qed.

(** Without the start marker the result is the empty string. *)
Lemma extract_no_start_marker response :
  Contains response "```json" = false →
  extractJSONFromResponse response = Some "".
Proof.
  intros H. apply Contains_false, Index_not_found in H.
  unfold extractJSONFromResponse. by rewrite H.
Qed.

(** A block between the first start marker and the end marker that
    follows it is returned trimmed. *)
Lemma extract_fenced pre inner suf :
  find pre "```json" = None →
  find (inner +:+ "```" +:+ suf) "```" = Some (String.length inner) →
  extractJSONFromResponse (pre +:+ "```json" +:+ inner +:+ "```" +:+ suf)
  = Some (TrimSpace inner).
Proof.
  intros Hpre Hinner.
  unfold extractJSONFromResponse, Index.
  rewrite find_start_marker by done.
  rewrite bool_decide_eq_false_2 by lia.
  change (len "```json") with 7.
  assert (Hlen : len (pre +:+ "```json" +:+ inner +:+ "```" +:+ suf)
                 = len pre + 7 + len inner + 3 + len suf).
  { rewrite !len_app. change (len "```json") with 7.
    change (len "```") with 3. lia. }
  assert (Hdrop : drop (Z.to_nat (Z.of_nat (String.length pre) + 7))
                    (pre +:+ "```json" +:+ inner +:+ "```" +:+ suf)
                  = inner +:+ "```" +:+ suf).
  { replace (Z.to_nat (Z.of_nat (String.length pre) + 7))
      with (String.length pre + 7)%nat by lia.
    by rewrite str_drop_app_length. }
  rewrite slice_from_eq; [| lia | rewrite Hlen; unfold len; lia].
  rewrite Hdrop. simpl. rewrite Hinner.
  rewrite bool_decide_eq_false_2 by lia.
  unfold slice. rewrite bool_decide_eq_true_2.
  2:{ rewrite Hlen. unfold len. lia. }
  rewrite Hdrop. do 2 f_equal.
  replace (Z.to_nat _) with (String.length inner + 0)%nat by lia.
  by rewrite str_take_app_length, str_take_0, str_app_nil_r.
Qed.

Local Arguments String.append : simpl nomatch.
Local Arguments Ascii.eqb : simpl never.

Lemma sample_block_end suf :
  find ((" " +:+ sample_object +:+ " ") +:+ "```" +:+ suf) "```"
  = Some (String.length (" " +:+ sample_object +:+ " ")).
Proof.
  unfold sample_object, dq. simpl. by destruct suf.
Qed.

(** C7: a reply with no [```json] marker yields the empty extraction; the
    reply [prefix ```json {"a":1} ``` suffix] yields exactly the trimmed
    content [{"a":1}], which decodes to the object with the one member
    [a = 1]; and so does the same block between any other text before it
    (free of the marker) and after it. *)
Theorem extractJSONFromResponse_contract (response pre suf : string) :
  Contains response "```json" = false →
  Contains pre "```json" = false →
  extractJSONFromResponse response = Some ""
  ∧ extractJSONFromResponse sample_reply = Some sample_object
  ∧ extractJSONFromResponse
      (pre +:+ "```json " +:+ sample_object +:+ " ```" +:+ suf)
    = Some sample_object
  ∧ Json.decode sample_object = Some (JObject [("a", JNumber 1)]).
Proof.
  intros Hresponse Hpre. split; [by apply extract_no_start_marker |].
  split; [by vm_compute |]. split; [| by vm_compute].
  change (pre +:+ "```json " +:+ sample_object +:+ " ```" +:+ suf)
    with (pre +:+ "```json" +:+ (" " +:+ sample_object +:+ " ")
            +:+ "```" +:+ suf).
  rewrite extract_fenced.
  - by vm_compute.
  - by apply Contains_false.
  - apply sample_block_end.
Qed.

Lemma extractJSONFromResponse_contract_witness :
  Contains "The meeting went well." "```json" = false
  ∧ Contains "Here is the result: " "```json" = false
  ∧ extractJSONFromResponse "The meeting went well." = Some ""
  ∧ extractJSONFromResponse
      ("Here is the result: " +:+ "```json " +:+ sample_object +:+ " ```"
         +:+ " Let me know.")
    = Some sample_object.
Proof.
  split; [reflexivity |]. split; [reflexivity |].
  destruct (extractJSONFromResponse_contract
              "The meeting went well." "Here is the result: "
              " Let me know." eq_refl eq_refl) as (H1 & _ & H3 & _).
  split; [exact H1 | exact H3].
Defined.

End ReplyParsing.

(** ** Ingestion *)

Section Ingestion.
Import GoString GoStringFacts.

Implicit Types (segments : list (gmap string value)) (st : scan).

Lemma scan_step_speaker i segment st :
  speaker (scan_step i segment st)
  = default (speaker st) (supplied_speaker segment).
Proof.
  unfold scan_step, supplied_speaker. simpl.
  destruct (as_string (segment !! "speaker")); [| done].
  by case_bool_decide.
Qed.

Lemma scan_step_timestamp i segment st :
  timestamp (scan_step i segment st)
  = default (timestamp st) (supplied_timestamp segment).
Proof.
  unfold scan_step, supplied_timestamp. simpl.
  by destruct (as_float64 (segment !! "timestamp")).
Qed.

Lemma scan_step_text i segment st :
  fullText (scan_step i segment st)
  = match supplied_text segment with
    | Some t =>
        (if bool_decide (0 < i)%nat then fullText st +:+ " "
         else fullText st) +:+ t
    | None => fullText st
    end.
Proof.
  unfold scan_step, supplied_text. simpl.
  destruct (as_string (segment !! "text")); [| done].
  by case_bool_decide.
Qed.

Lemma default_last_cons {A} (x d : A) (l : list A) :
  default d (last (x :: l)) = default x (last l).
Proof. rewrite last_cons. by destruct (last l). Qed.

Lemma scan_from_speaker i segments st :
  speaker (scan_from i segments st)
  = default (speaker st) (last (omap supplied_speaker segments)).
Proof.
  revert i st. induction segments as [|segment rest IH]; intros i st.
  - done.
  - simpl. rewrite IH, scan_step_speaker.
    destruct (supplied_speaker segment); simpl; [| done].
    by rewrite default_last_cons.
Qed.

Lemma scan_from_timestamp i segments st :
  timestamp (scan_from i segments st)
  = default (timestamp st) (last (omap supplied_timestamp segments)).
Proof.
  revert i st. induction segments as [|segment rest IH]; intros i st.
  - done.
  - simpl. rewrite IH, scan_step_timestamp.
    destruct (supplied_timestamp segment); simpl; [| done].
    by rewrite default_last_cons.
Qed.

(** After the first fragment every text is preceded by a space. *)
Lemma scan_from_text i segments st :
  (0 < i)%nat →
  fullText (scan_from i segments st)
  = fullText st +:+ spaced (omap supplied_text segments).
Proof.
  revert i st. induction segments as [|segment rest IH]; intros i st Hi.
  - simpl. by rewrite str_app_nil_r.
  - simpl. rewrite IH by lia. rewrite scan_step_text.
    destruct (supplied_text segment) as [t|]; simpl; [| done].
    rewrite bool_decide_eq_true_2 by done.
    by rewrite !str_app_assoc.
Qed.

(** The text [ProcessUtterance] builds: the first fragment's text without
    a space, every later text with one. *)
Lemma scan_segments_text now segment rest :
  fullText (scan_segments now (segment :: rest))
  = default "" (supplied_text segment) +:+ spaced (omap supplied_text rest).
Proof.
  unfold scan_segments. simpl. rewrite scan_from_text by lia.
  rewrite scan_step_text. simpl. by destruct (supplied_text segment).
Qed.

Lemma Join_cons_spaced t texts : Join (t :: texts) " " = t +:+ spaced texts.
Proof.
  unfold Join. revert t. induction texts as [|u texts IH]; intros t.
  - simpl. by rewrite str_app_nil_r.
  - change (String.concat " " (t :: u :: texts))
      with (t +:+ " " +:+ String.concat " " (u :: texts)).
    by rewrite IH.
Qed.

(** When the first fragment supplies a text, the entry's text is the
    fragment texts joined by single spaces. *)
Lemma scan_segments_text_joined now segment rest t :
  supplied_text segment = Some t →
  fullText (scan_segments now (segment :: rest))
  = spec_text (segment :: rest).
Proof.
  intros Ht. rewrite scan_segments_text. unfold spec_text. simpl.
  rewrite Ht. by rewrite Join_cons_spaced.
Qed.

(** When the first fragment supplies no text and a later one does, the
    entry's text is the joined texts with a space in front. *)
Lemma scan_segments_text_leading_space now segment rest :
  supplied_text segment = None →
  omap supplied_text rest ≠ [] →
  fullText (scan_segments now (segment :: rest))
  = " " +:+ spec_text (segment :: rest).
Proof.
  intros Hnone Hrest. rewrite scan_segments_text. unfold spec_text.
  cbn [omap list_omap]. rewrite Hnone.
  destruct (omap supplied_text rest) as [|t texts]; [done |].
  by rewrite Join_cons_spaced.
Qed.

Lemma scan_segments_text_now now now' segments :
  fullText (scan_segments now segments)
  = fullText (scan_segments now' segments).
Proof.
  destruct segments as [|segment rest]; [done |].
  by rewrite !scan_segments_text.
Qed.

Lemma scan_segments_silent now segments :
  Forall (λ segment, supplied_text segment = None) segments →
  fullText (scan_segments now segments) = "".
Proof.
  intros Hall. destruct segments as [|segment rest]; [done |].
  rewrite scan_segments_text.
  apply Forall_cons in Hall as [-> Hrest]. simpl.
  replace (omap supplied_text rest) with (@nil string); [done |].
  symmetry. induction Hrest as [|s l Hs _ IH]; [done |].
  simpl. by rewrite Hs.
Qed.

Lemma updateParticipants_Transcript name d :
  Transcript (updateParticipants name d) = Transcript d.
Proof. unfold updateParticipants. by case_bool_decide. Qed.

(** What an accepted batch does to the agent. *)
Lemma ProcessUtterance_accepted clk segments a :
  accepted segments →
  ∃ entry d,
    ProcessUtterance clk segments a
    = (set_data d a,
       SaveAnalysis (filePath a) d
         :: (if trigger (now_trigger clk) (set_data d a)
             then [GoUpdateAnalysis] else []))
    ∧ Transcript d = Transcript (data a) ++ [entry]
    ∧ Text entry = fullText (scan_segments 0 segments)
    ∧ Speaker entry = spec_speaker segments
    ∧ Timestamp entry = spec_timestamp (now_timestamp clk) segments
    ∧ IsAgent entry = false
    ∧ LastUpdated d = now_updated clk.
Proof.
  unfold accepted. intros Hacc.
  rewrite (scan_segments_text_now 0 (now_timestamp clk)) in Hacc.
  unfold ProcessUtterance.
  rewrite bool_decide_eq_false_2 by (by destruct segments).
  rewrite bool_decide_eq_false_2 by done.
  eexists _, _. split; [reflexivity |]. simpl.
  rewrite updateParticipants_Transcript. simpl.
  repeat split.
  - apply scan_segments_text_now.
  - unfold scan_segments. by rewrite scan_from_speaker.
  - unfold scan_segments. by rewrite scan_from_timestamp.
Qed.

(** The parts of the contract of [Append] that hold for every accepted
    batch: one new entry, with the last supplied speaker and the last
    supplied timestamp; and with the joined texts when the first fragment
    supplies one. *)
Lemma ProcessUtterance_entry clk segment rest a :
  accepted (segment :: rest) →
  ∃ entry,
    Transcript (data (ProcessUtterance clk (segment :: rest) a).1)
    = Transcript (data a) ++ [entry]
    ∧ Speaker entry = spec_speaker (segment :: rest)
    ∧ Timestamp entry = spec_timestamp (now_timestamp clk) (segment :: rest)
    ∧ (is_Some (supplied_text segment) →
       Text entry = spec_text (segment :: rest)).
Proof.
  intros Hacc.
  destruct (ProcessUtterance_accepted clk _ a Hacc)
    as (entry & d & -> & HT & Htext & Hsp & Hts & _).
  exists entry. simpl. repeat split; try done.
  intros [t Ht]. rewrite Htext. by eapply scan_segments_text_joined.
Qed.

(** C3: on the batch whose first fragment carries only a speaker and whose
    second fragment carries the text [hello], [ProcessUtterance] appends one
    entry whose text is [ hello], with a space in front, where the fragment
    texts joined by single spaces are [hello]; its speaker is the one the
    contract names.  The same happens when the first fragment carries an
    empty text. *)
Theorem ProcessUtterance_late_text_leading_space :
  let a' := (ProcessUtterance sample_clock late_text_batch sample_agent).1 in
  let a'' := (ProcessUtterance sample_clock empty_first_batch sample_agent).1 in
  Text <$> Transcript (data a') = [" hello"]
  ∧ spec_text late_text_batch = "hello"
  ∧ Speaker <$> Transcript (data a') = [spec_speaker late_text_batch]
  ∧ Text <$> Transcript (data a') ≠ [spec_text late_text_batch]
  ∧ Text <$> Transcript (data a'') = [" hello"]
  ∧ spec_text empty_first_batch = "hello".
Proof. by vm_compute. Qed.

(** C4: a batch in which no fragment supplies a non-empty text leaves the
    agent as it was (transcript, word count, participants, duration and
    [LastUpdated] included), writes nothing and starts no cycle. *)
Theorem ProcessUtterance_silent_noop clk segments a :
  Forall (λ segment, supplied_text segment = None) segments →
  let r := ProcessUtterance clk segments a in
  r = (a, [])
  ∧ Transcript (data r.1) = Transcript (data a)
  ∧ WordCount (data r.1) = WordCount (data a)
  ∧ Participants (data r.1) = Participants (data a)
  ∧ DurationMinutes (data r.1) = DurationMinutes (data a)
  ∧ LastUpdated (data r.1) = LastUpdated (data a)
  ∧ (∀ path d, SaveAnalysis path d ∉ r.2)
  ∧ GoUpdateAnalysis ∉ r.2.
Proof.
  intros Hall.
  assert (ProcessUtterance clk segments a = (a, [])) as ->.
  { unfold ProcessUtterance. case_bool_decide; [done |].
    by rewrite scan_segments_silent, bool_decide_eq_true_2. }
  simpl. repeat split; try done.
  - intros path d Hin. by apply elem_of_nil in Hin.
  - intros Hin. by apply elem_of_nil in Hin.
Qed.

Lemma ProcessUtterance_silent_noop_witness :
  Forall (λ segment, supplied_text segment = None) silent_batch
  ∧ ProcessUtterance sample_clock silent_batch sample_agent
    = (sample_agent, []).
Proof.
  assert (H : Forall (λ segment, supplied_text segment = None) silent_batch).
  { repeat constructor. }
  split; [exact H |].
  exact (proj1 (ProcessUtterance_silent_noop sample_clock silent_batch
                  sample_agent H)).
Defined.

(** C10: the entry an accepted batch appends has [IsAgent = false]. *)
Theorem ProcessUtterance_entry_not_agent clk segments a :
  accepted segments →
  ∃ entry,
    Transcript (data (ProcessUtterance clk segments a).1)
    = Transcript (data a) ++ [entry]
    ∧ IsAgent entry = false.
Proof.
  intros Hacc.
  destruct (ProcessUtterance_accepted clk _ a Hacc)
    as (entry & d & -> & HT & _ & _ & _ & Hagent & _).
  by exists entry.
Qed.

Lemma two_fragment_batch_accepted : accepted two_fragment_batch.
Proof. by vm_compute. Qed.

Lemma ProcessUtterance_entry_not_agent_witness :
  accepted two_fragment_batch
  ∧ ∃ entry,
      Transcript (data (ProcessUtterance sample_clock two_fragment_batch
                          sample_agent).1)
      = Transcript (data sample_agent) ++ [entry]
      ∧ IsAgent entry = false.
Proof.
  split; [exact two_fragment_batch_accepted |].
  exact (ProcessUtterance_entry_not_agent sample_clock two_fragment_batch
           sample_agent two_fragment_batch_accepted).
Defined.

(** The saturation of [time.Since] does not change the comparison with
    five minutes. *)
Lemma Since_exceeds_five_minutes now t :
  5 * GoTime.Minute < GoTime.Since now t ↔ 5 * GoTime.Minute < now - t.
Proof.
  unfold GoTime.Since, GoTime.Sub, GoTime.Minute, GoTime.Second,
    GoTime.maxDuration, GoTime.minDuration.
  lia.
Qed.

(** C6: after an accepted batch, [updateAnalysis] is started exactly when
    more than five minutes have passed since [lastAnalysis] or the length of
    the transcript, the new entry included, is a multiple of 20. *)
Theorem ProcessUtterance_trigger clk segments a :
  accepted segments →
  let r := ProcessUtterance clk segments a in
  length (Transcript (data r.1)) = S (length (Transcript (data a)))
  ∧ (GoUpdateAnalysis ∈ r.2
     ↔ 5 * GoTime.Minute < now_trigger clk - lastAnalysis a
       ∨ (20 | Z.of_nat (length (Transcript (data r.1))))).
Proof.
  intros Hacc.
  destruct (ProcessUtterance_accepted clk _ a Hacc)
    as (entry & d & -> & HT & _). simpl.
  split.
  { rewrite HT, List.length_app. simpl. lia. }
  rewrite elem_of_cons. unfold trigger. simpl.
  rewrite <- Since_exceeds_five_minutes, <- Z.rem_divide by done.
  destruct (bool_decide (5 * GoTime.Minute < _)) eqn:Hd;
    [apply bool_decide_eq_true in Hd | apply bool_decide_eq_false in Hd];
    simpl.
  - split; [by left | intros _; right; by apply list_elem_of_singleton].
  - destruct (bool_decide (Z.rem _ 20 = 0)) eqn:Hr;
      [apply bool_decide_eq_true in Hr | apply bool_decide_eq_false in Hr].
    + split; [by right | intros _; right; by apply list_elem_of_singleton].
    + split; [| tauto].
      intros [? | Hin]; [done |]. by apply elem_of_nil in Hin.
Qed.

Lemma ProcessUtterance_trigger_witness :
  accepted two_fragment_batch
  ∧ (GoUpdateAnalysis
       ∈ (ProcessUtterance sample_clock two_fragment_batch sample_agent).2
     ↔ 5 * GoTime.Minute
         < now_trigger sample_clock - lastAnalysis sample_agent
       ∨ (20 | Z.of_nat
                 (length
                    (Transcript
                       (data (ProcessUtterance sample_clock
                                two_fragment_batch sample_agent).1))))).
Proof.
  split; [exact two_fragment_batch_accepted |].
  exact (proj2 (ProcessUtterance_trigger sample_clock two_fragment_batch
                  sample_agent two_fragment_batch_accepted)).
Defined.

End Ingestion.

(** ** The analysis cycle *)

Section Cycle.

Implicit Types (entries snapshot : list TranscriptEntry) (a : AnalystAgent).

Lemma go_copy_fresh {A} (zero : A) (src : list A) :
  go_copy (replicate (length src) zero) src = src.
Proof.
  unfold go_copy. rewrite length_replicate, Nat.min_id.
  rewrite firstn_all, drop_replicate, Nat.sub_diag. simpl.
  apply app_nil_r.
Qed.

(** The shared body returns the last [min(count, length)] entries. *)
Lemma tail_window_spec entries count :
  0 <= count → tail_window entries count = Some (window entries count).
Proof.
  intros Hcount. unfold tail_window, window, last_entries.
  case_bool_decide as Hlen.
  { destruct entries; [done | simpl in Hlen; lia]. }
  set (total := Z.of_nat (length entries)) in *.
  set (start := if bool_decide (total - count < 0) then 0 else total - count).
  assert (Hstart : 0 <= start ∧ start <= total
                   ∧ start = total - Z.min count total).
  { unfold start. case_bool_decide; lia. }
  destruct Hstart as (H0 & H1 & Hstart).
  unfold go_make, entries_from.
  rewrite !bool_decide_eq_true_2 by lia. simpl.
  replace (Z.to_nat (total - start))
    with (length (drop (Z.to_nat start) entries))
    by (rewrite length_drop; unfold total; lia).
  rewrite go_copy_fresh. do 2 f_equal. unfold total in *. lia.
Qed.

Lemma getRecentTranscript_snapshot a snapshot count :
  currentAnalysisSnapshot a = Some snapshot →
  0 <= count →
  getRecentTranscript a count = Some (window snapshot count).
Proof.
  intros Hsnap Hcount. unfold getRecentTranscript. rewrite Hsnap.
  by apply tail_window_spec.
Qed.

(** Ingestion does not touch the snapshot. *)
Lemma ProcessUtterance_snapshot clk segments a :
  currentAnalysisSnapshot (ProcessUtterance clk segments a).1
  = currentAnalysisSnapshot a.
Proof.
  unfold ProcessUtterance. by repeat case_bool_decide.
Qed.

Lemma task_counts_app steps1 steps2 :
  task_counts (steps1 ++ steps2) = task_counts steps1 ++ task_counts steps2.
Proof. apply omap_app. Qed.

Lemma task_counts_appends (batches : list (clock * list (gmap string value))) :
  task_counts ((λ c, StepAppend c.1 c.2) <$> batches) = [].
Proof. by induction batches. Qed.

Lemma task_counts_cycle concurrent :
  task_counts (cycle_steps concurrent) = snd <$> analysis_tasks.
Proof.
  unfold cycle_steps. simpl.
  rewrite !task_counts_app, !task_counts_appends. done.
Qed.

(** Whatever is appended between the tasks, every task sees the window of
    the snapshot. *)
Lemma run_steps_windows commit steps a snapshot seen :
  currentAnalysisSnapshot a = Some snapshot →
  Forall (λ count, 0 <= count) (task_counts steps) →
  ∃ a',
    run_steps commit steps (a, seen)
    = Some (a', seen ++ (window snapshot <$> task_counts steps))
    ∧ currentAnalysisSnapshot a' = Some snapshot.
Proof.
  revert a seen. induction steps as [|s steps IH]; intros a seen Hsnap Hcounts.
  - exists a. simpl. by rewrite app_nil_r.
  - destruct s as [clk segments | name count]; simpl in *.
    + destruct (IH (ProcessUtterance clk segments a).1 seen) as (a' & -> & Ha');
        [by rewrite ProcessUtterance_snapshot | done |].
      by exists a'.
    + apply Forall_cons in Hcounts as [Hcount Hcounts].
      rewrite (getRecentTranscript_snapshot a snapshot count) by done.
      simpl.
      case_bool_decide.
      * destruct (IH a (seen ++ [window snapshot count]))
          as (a' & Hrun & Ha'); [done.. |].
        exists a'. split; [| done].
        change (run_steps commit steps (a, seen ++ [window snapshot count])
                = Some (a', seen ++ window snapshot count
                              :: (window snapshot <$> task_counts steps))).
        by rewrite Hrun, <- app_assoc.
      * destruct (IH (set_data (commit name (window snapshot count) (data a)) a)
                    (seen ++ [window snapshot count]))
          as (a' & Hrun & Ha'); [done.. |].
        exists a'. split; [| done].
        change (run_steps commit steps
                  (set_data (commit name (window snapshot count) (data a)) a,
                   seen ++ [window snapshot count])
                = Some (a', seen ++ window snapshot count
                              :: (window snapshot <$> task_counts steps))).
        by rewrite Hrun, <- app_assoc.
Qed.

(** C1: while a snapshot is installed, [getRecentTranscript count] returns
    the last [min(count, length)] entries of the snapshot; two agents with
    the same snapshot get the same window, whatever their live transcripts
    are; in any run of tasks and concurrent appends every task sees the
    window of the snapshot; and the five tasks of [updateAnalysis] see the
    windows of the transcript as it was when the cycle began. *)
Theorem getRecentTranscript_snapshot_isolation a a' snapshot count :
  currentAnalysisSnapshot a = Some snapshot →
  currentAnalysisSnapshot a' = Some snapshot →
  0 <= count →
  getRecentTranscript a count
  = Some (last_entries
            (Z.to_nat (Z.min count (Z.of_nat (length snapshot)))) snapshot)
  ∧ getRecentTranscript a' count = getRecentTranscript a count
  ∧ (∀ commit steps,
       Forall (λ count, 0 <= count) (task_counts steps) →
       ∃ a'',
         run_steps commit steps (a, [])
         = Some (a'', window snapshot <$> task_counts steps))
  ∧ (∀ now_begin now_end commit concurrent a0,
       Transcript (data a0) ≠ [] →
       ∃ a1,
         updateAnalysis now_begin now_end commit concurrent a0
         = Some (a1, (λ task, window (Transcript (data a0)) task.2)
                       <$> analysis_tasks)).
Proof.
  intros Hsnap Hsnap' Hcount. split; [| split; [| split]].
  - by apply getRecentTranscript_snapshot.
  - by rewrite !(getRecentTranscript_snapshot _ snapshot).
  - intros commit steps Hcounts.
    destruct (run_steps_windows commit steps a snapshot [] Hsnap Hcounts)
      as (a'' & Hrun & _).
    by exists a''.
  - intros now_begin now_end commit concurrent a0 Hne.
    unfold updateAnalysis, begin_cycle. simpl.
    rewrite go_copy_fresh.
    rewrite bool_decide_eq_false_2 by (by destruct (Transcript (data a0))).
    destruct (run_steps_windows commit (cycle_steps concurrent)
                (set_snapshot (Some (Transcript (data a0)))
                   (set_lastAnalysis now_begin a0))
                (Transcript (data a0)) []) as (a2 & -> & _).
    + done.
    + rewrite task_counts_cycle. simpl. repeat constructor; lia.
    + simpl. eexists. rewrite task_counts_cycle. by rewrite <- list_fmap_compose.
Qed.

Lemma getRecentTranscript_snapshot_isolation_witness :
  currentAnalysisSnapshot mid_cycle_agent
  = Some [entry_of "Ann" "good morning" 1700000001;
          entry_of "Bob" "hello Ann" 1700000002]
  ∧ getRecentTranscript mid_cycle_agent 1
    = Some [entry_of "Bob" "hello Ann" 1700000002]
  ∧ getRecentTranscript later_mid_cycle_agent 1
    = getRecentTranscript mid_cycle_agent 1.
Proof.
  split; [reflexivity |].
  destruct (getRecentTranscript_snapshot_isolation
              mid_cycle_agent later_mid_cycle_agent
              [entry_of "Ann" "good morning" 1700000001;
               entry_of "Bob" "hello Ann" 1700000002] 1
              eq_refl eq_refl ltac:(lia)) as (H1 & H2 & _).
  split; [exact H1 | exact H2].
Defined.

End Cycle.

(** ** Prompt construction *)

Section PromptProperties.
Import GoString GoStringFacts.

Local Arguments String.append : simpl nomatch.

Variable ToLower : string → string.

(** The one fact about [strings.ToLower] that is used: on a text of ASCII
    bytes it lowers the letters [A] to [Z] and keeps every other byte. *)
Hypothesis ToLower_ascii :
  ∀ s, is_ascii s = true → ToLower s = ToLowerASCII s.

Lemma ToLower_empty : ToLower "" = "".
Proof. by rewrite ToLower_ascii. Qed.

Lemma code_points_le_len s : code_points s <= len s.
Proof.
  unfold len. induction s as [|c s IH]; [done |].
  cbn [code_points String.length]. case_bool_decide; lia.
Qed.

Lemma ToLowerASCII_app s1 s2 :
  ToLowerASCII (s1 +:+ s2) = ToLowerASCII s1 +:+ ToLowerASCII s2.
Proof. induction s1 as [|c s1 IH]; [done |]. simpl. by rewrite IH. Qed.

Lemma find_infix pre sep post : is_Some (find (pre +:+ sep +:+ post) sep).
Proof.
  induction pre as [|c pre IH].
  - change ("" +:+ sep +:+ post) with (sep +:+ post).
    rewrite find_prefix; [by eexists | apply HasPrefix_app].
  - change (String c pre +:+ sep +:+ post)
      with (String c (pre +:+ sep +:+ post)).
    rewrite find_cons. destruct (HasPrefix _ _); [by eexists |].
    destruct IH as [i ->]. by eexists.
Qed.

Lemma Contains_infix pre sep post :
  Contains (pre +:+ sep +:+ post) sep = true.
Proof.
  unfold Contains, Index. destruct (find_infix pre sep post) as [i ->].
  apply bool_decide_eq_true_2. lia.
Qed.

(** On an ASCII instruction the scan ignores the letter case. *)
Lemma Contains_ignoring_case instructions pattern :
  is_ascii instructions = true →
  occurs_ignoring_case instructions pattern →
  Contains (ToLower instructions) pattern = true.
Proof.
  intros Hascii (pre & mid & post & -> & <-).
  rewrite ToLower_ascii by done.
  rewrite !ToLowerASCII_app. apply Contains_infix.
Qed.

Lemma isSafeInstruction_long instructions :
  5000 < len instructions → isSafeInstruction ToLower instructions = false.
Proof.
  intros H. unfold isSafeInstruction. by rewrite bool_decide_eq_true_2.
Qed.

Lemma isSafeInstruction_pattern instructions :
  Exists (λ pattern, Contains (ToLower instructions) pattern = true)
    harmfulPatterns →
  isSafeInstruction ToLower instructions = false.
Proof.
  intros H. unfold isSafeInstruction. case_bool_decide; [done |].
  apply not_true_is_false. intros Hall.
  rewrite forallb_forall in Hall.
  apply Exists_exists in H as (pattern & Hin & Hc).
  apply list_elem_of_In in Hin. specialize (Hall pattern Hin).
  by rewrite Hc in Hall.
Qed.

Lemma rejected_unsafe instructions :
  rejected ToLower instructions →
  isSafeInstruction ToLower instructions = false.
Proof.
  intros [H | [H | [H | [Hascii H]]]].
  - apply isSafeInstruction_long. pose proof (code_points_le_len instructions). lia.
  - by apply isSafeInstruction_long.
  - by apply isSafeInstruction_pattern.
  - apply isSafeInstruction_pattern.
    eapply Exists_impl; [exact H |].
    intros pattern Hocc. by apply Contains_ignoring_case.
Qed.

(** The empty string passes the validation, so a rejected instruction is
    not empty. *)
Lemma isSafeInstruction_empty : isSafeInstruction ToLower "" = true.
Proof. unfold isSafeInstruction. rewrite ToLower_empty. by vm_compute. Qed.

(** [getDefaultPrompt] fills the format of its case with the transcript. *)
Lemma getDefaultPrompt_fallback analysisType transcript :
  getDefaultPrompt analysisType transcript
  = Sprintf (fallback_format analysisType) [transcript].
Proof.
  unfold getDefaultPrompt, fallback_format.
  repeat (case_bool_decide; [done |]). done.
Qed.

(** *** The fallback formats are not the formats of the tasks *)

Lemma str_app_inv_head s x y : s +:+ x = s +:+ y → x = y.
Proof.
  induction s as [|c s IH]; [done |]. simpl. intros [= H]. by apply IH.
Qed.

(** A format whose only verb is the [%s] at offset [n]. *)
Lemma Sprintf_no_percent format :
  no_percent format = true → Sprintf format [] = format.
Proof.
  induction format as [|c format IH]; [done |].
  cbn [no_percent]. intros [Hc Hrest]%andb_true_iff.
  apply negb_true_iff, Ascii.eqb_neq in Hc.
  destruct c as [[] [] [] [] [] [] [] []];
    first [done | cbn [Sprintf]; by rewrite IH].
Qed.

Lemma Sprintf_slot (n : nat) format arg :
  no_percent (take n format) = true →
  HasPrefix (drop n format) "%s" = true →
  no_percent (drop (n + 2) format) = true →
  Sprintf format [arg] = take n format +:+ arg +:+ drop (n + 2) format.
Proof.
  revert format. induction n as [|n IH]; intros format Hpre Hslot Hpost.
  - rewrite str_drop_0 in Hslot. rewrite str_take_0.
    destruct format as [|c1 [|c2 format]];
      [done | cbn [HasPrefix] in Hslot; by rewrite andb_false_r in Hslot |].
    cbn [HasPrefix] in Hslot.
    apply andb_true_iff in Hslot as [<-%Ascii.eqb_eq Hslot].
    apply andb_true_iff in Hslot as [<-%Ascii.eqb_eq _].
    change (drop (0 + 2) (String "%" (String "s" format))) with format in *.
    cbn [Sprintf]. by rewrite Sprintf_no_percent.
  - destruct format as [|c format]; [done |].
    change (take (S n) (String c format)) with (String c (take n format)) in *.
    change (drop (S n) (String c format)) with (drop n format) in *.
    change (drop (S n + 2) (String c format)) with (drop (n + 2) format) in *.
    cbn [no_percent] in Hpre.
    apply andb_true_iff in Hpre as [Hc Hpre].
    apply negb_true_iff, Ascii.eqb_neq in Hc.
    change (String c (take n format) +:+ arg +:+ drop (n + 2) format)
      with (String c (take n format +:+ arg +:+ drop (n + 2) format)).
    rewrite <- (IH format) by done.
    destruct c as [[] [] [] [] [] [] [] []];
      first [done | by cbn [Sprintf]].
Qed.

Lemma fallback_is_not_task_format analysisType format transcript :
  (analysisType, format) ∈ task_formats →
  Sprintf (fallback_format analysisType) [transcript]
  ≠ Sprintf format [transcript].
Proof.
  unfold task_formats. intros Hin H.
  repeat (apply elem_of_cons in Hin as [[= -> ->] | Hin]);
    [| | | | | by apply elem_of_nil in Hin].
  - apply (f_equal (take 270)) in H. vm_compute in H. discriminate H.
  - apply (f_equal (take 20)) in H. vm_compute in H. discriminate H.
  - apply (f_equal (take 1440)) in H. vm_compute in H. discriminate H.
  - change (fallback_format "topics") with default_topics_format in H.
    rewrite (Sprintf_slot 234 default_topics_format) in H by done.
    rewrite (Sprintf_slot 234 extractTopics_format) in H by done.
    change (take 234 extractTopics_format)
      with (take 234 default_topics_format) in H.
    apply str_app_inv_head, str_app_inv_head in H.
    vm_compute in H. discriminate H.
  - change (fallback_format "sentiment_keywords")
      with default_sentiment_keywords_format in H.
    rewrite (Sprintf_slot 191 default_sentiment_keywords_format) in H by done.
    rewrite (Sprintf_slot 191 analyzeSentimentAndKeywords_format) in H by done.
    change (take 191 analyzeSentimentAndKeywords_format)
      with (take 191 default_sentiment_keywords_format) in H.
    apply str_app_inv_head, str_app_inv_head in H.
    vm_compute in H. discriminate H.
Qed.


End PromptProperties.

Lemma DROP_TABLE_rejected :
  rejected ToLowerASCII "Summarise, then DROP TABLE users".
Proof.
  do 3 right. split; [done |]. unfold harmfulPatterns.
  do 11 apply Exists_cons_tl. apply Exists_cons_hd.
  by exists "Summarise, then ", "DROP TABLE", " users".
Qed.



(** ** Citation merging *)

Section Citations.
Import GoString GoStringFacts.

Implicit Types (chunks : list GroundingChunk) (indices : list Z)
  (support : GroundingSupport).

(** Without negative indices the loop keeps the links of the indices
    below the number of chunks and skips the others. *)
Lemma citation_links_nonneg chunks indices acc :
  Forall (λ i, 0 <= i) indices →
  citation_links chunks indices acc
  = Some (acc ++ (link_of chunks
                    <$> filter (λ i, i < Z.of_nat (length chunks)) indices)).
Proof.
  revert acc. induction indices as [|i indices IH]; intros acc Hall.
  - simpl. by rewrite app_nil_r.
  - apply Forall_cons in Hall as [Hi Hall]. simpl.
    rewrite filter_cons. case_bool_decide as Hlt.
    + rewrite decide_True by done.
      unfold chunk_at. rewrite bool_decide_eq_true_2 by done.
      destruct (lookup_lt_is_Some_2 chunks (Z.to_nat i)) as [chunk Hchunk];
        [lia |].
      rewrite Hchunk. simpl. rewrite IH by done.
      unfold link_of at 2. rewrite Hchunk. simpl.
      by rewrite <- app_assoc.
    + rewrite decide_False by done. by apply IH.
Qed.

Lemma citation_links_in_range chunks indices :
  Forall (λ i, 0 <= i < Z.of_nat (length chunks)) indices →
  citation_links chunks indices [] = Some (link_of chunks <$> indices).
Proof.
  intros Hall. rewrite citation_links_nonneg.
  - simpl. do 2 f_equal. induction Hall as [|i l [_ Hi] _ IH]; [done |].
    rewrite filter_cons, decide_True by done. by rewrite IH.
  - eapply Forall_impl; [done |]. simpl. lia.
Qed.

(** A negative index passes the guard [i < len(chunks)] and the access
    [chunks[i]] panics. *)
Lemma citation_links_negative chunks i rest acc :
  i < 0 → citation_links chunks (i :: rest) acc = None.
Proof.
  intros Hi. simpl. rewrite bool_decide_eq_true_2 by lia.
  unfold chunk_at. by rewrite bool_decide_eq_false_2 by lia.
Qed.

(** A support with links in range is spliced in at its end index. *)
Lemma add_support_in_range chunks support result :
  GroundingChunkIndices support ≠ [] →
  Forall (λ i, 0 <= i < Z.of_nat (length chunks))
    (GroundingChunkIndices support) →
  0 <= EndIndex support <= len result →
  add_support chunks support result
  = Some (take (Z.to_nat (EndIndex support)) result
          +:+ marker chunks (GroundingChunkIndices support)
          +:+ drop (Z.to_nat (EndIndex support)) result).
Proof.
  intros Hne Hall [H0 H1]. unfold add_support.
  rewrite !bool_decide_eq_true_2;
    [| done | by destruct (GroundingChunkIndices support); simpl; [| lia]].
  simpl. rewrite citation_links_in_range by done. simpl.
  rewrite bool_decide_eq_true_2.
  2:{ rewrite length_fmap.
      destruct (GroundingChunkIndices support); simpl; [done | lia]. }
  by rewrite slice_to_eq, slice_from_eq by done.
Qed.

(** A support whose end index exceeds the length of the text is skipped. *)
Lemma add_support_beyond chunks support result :
  len result < EndIndex support →
  add_support chunks support result = Some result.
Proof.
  intros H. unfold add_support.
  rewrite (bool_decide_eq_false_2 (EndIndex support <= len result)) by lia.
  by rewrite andb_false_r.
Qed.

Lemma sort_supports_pair x y :
  sort_supports [x; y]
  = if bool_decide (EndIndex x < EndIndex y) then [y; x] else [x; y].
Proof.
  unfold sort_supports. simpl. unfold swap_if_less. simpl.
  by case_bool_decide.
Qed.

(** No metadata, no supports, or one support beyond the text: the text
    comes back as it is. *)
Lemma addCitations_nil text : addCitations text None = Some text.
Proof. done. Qed.

Lemma addCitations_no_supports text md :
  GroundingSupports md = [] → addCitations text (Some md) = Some text.
Proof. intros H. unfold addCitations. by rewrite H. Qed.

Lemma addCitations_support_beyond text md support :
  GroundingSupports md = [support] →
  len text < EndIndex support →
  addCitations text (Some md) = Some text.
Proof.
  intros H Hend. unfold addCitations. rewrite H. simpl.
  by rewrite add_support_beyond.
Qed.

(** C2, as the code has it: with two supports at the end indices 10 and
    20 (in either order in the metadata), both within the text and both
    with in-range chunk indices, the support at 20 is processed first and
    the result is the text with the marker of the support at 10 at offset
    10 and the marker of the support at 20 after the twentieth byte of the
    text.  Neither insertion moves the other's offset; in the final
    string the marker for 10 comes first. *)
Theorem addCitations_two_supports
    (text : string) (queries : list string) chunks
    (s10 s20 : GroundingSupport) (supports : list GroundingSupport) :
  EndIndex s10 = 10 →
  EndIndex s20 = 20 →
  20 <= len text →
  GroundingChunkIndices s10 ≠ [] →
  GroundingChunkIndices s20 ≠ [] →
  Forall (λ i, 0 <= i < Z.of_nat (length chunks)) (GroundingChunkIndices s10) →
  Forall (λ i, 0 <= i < Z.of_nat (length chunks)) (GroundingChunkIndices s20) →
  supports = [s10; s20] ∨ supports = [s20; s10] →
  sort_supports supports = [s20; s10]
  ∧ addCitations text
      (Some {| WebSearchQueries := queries; GroundingChunks := chunks;
               GroundingSupports := supports |})
    = Some (take 10 text
            +:+ marker chunks (GroundingChunkIndices s10)
            +:+ take 10 (drop 10 text)
            +:+ marker chunks (GroundingChunkIndices s20)
            +:+ drop 20 text)
  ∧ len (take 10 text) = 10
  ∧ len (take 10 (drop 10 text)) = 10.
Proof.
  intros H10 H20 Hlen Hne10 Hne20 Hin10 Hin20 Hsupports.
  assert (Hsort : sort_supports supports = [s20; s10]).
  { destruct Hsupports as [-> | ->]; rewrite sort_supports_pair.
    - by rewrite bool_decide_eq_true_2 by lia.
    - by rewrite bool_decide_eq_false_2 by lia. }
  assert (Hlen' : (20 <= String.length text)%nat) by (unfold len in Hlen; lia).
  split; [done |]. split.
  - unfold addCitations. cbn [GroundingSupports GroundingChunks].
    rewrite bool_decide_eq_false_2 by (by destruct Hsupports as [-> | ->]).
    rewrite Hsort. cbn [add_supports].
    rewrite add_support_in_range by (rewrite ?H20; done || lia).
    cbn [mbind option_bind]. rewrite H20. change (Z.to_nat 20) with 20%nat.
    rewrite add_support_in_range; [| done | done |].
    2:{ rewrite H10, !len_app.
        pose proof (len_nonneg (marker chunks (GroundingChunkIndices s20))).
        pose proof (len_nonneg (drop 20 text)).
        unfold len at 1. rewrite str_length_take by done. lia. }
    cbn [mbind option_bind]. rewrite H10. f_equal.
    change (Z.to_nat 10) with 10%nat.
    rewrite str_take_app_le by (rewrite str_length_take; lia).
    rewrite str_take_take by lia.
    rewrite str_drop_app_le by (rewrite str_length_take; lia).
    by rewrite str_drop_take.
  - unfold len. rewrite !str_length_take; [lia | | lia].
    rewrite str_length_drop. lia.
Qed.

Lemma addCitations_two_supports_witness :
  20 <= len sample_text
  ∧ addCitations sample_text
      (Some (metadata_of [support_at 10 [0]; support_at 20 [1]]))
    = Some (take 10 sample_text
            +:+ marker sample_chunks [0]
            +:+ take 10 (drop 10 sample_text)
            +:+ marker sample_chunks [1]
            +:+ drop 20 sample_text).
Proof.
  split; [by vm_compute |].
  refine (proj1 (proj2 (addCitations_two_supports sample_text [] sample_chunks
                          (support_at 10 [0]) (support_at 20 [1])
                          [support_at 10 [0]; support_at 20 [1]]
                          eq_refl eq_refl _ _ _ _ _ (or_introl eq_refl)))).
  - by vm_compute.
  - done.
  - done.
  - apply Forall_singleton. simpl. lia.
  - apply Forall_singleton. simpl. lia.
Defined.

(** C2, as the claim states it, fails: in the final string the marker of
    the support at 20 does not come before the marker of the support at
    10. *)
Lemma addCitations_marker_order_counterexample :
  ∃ final,
    addCitations sample_text
      (Some (metadata_of [support_at 10 [0]; support_at 20 [1]]))
    = Some final
    ∧ final = "The quick  [1](https://a.example)brown fox  [2](https://b.example)jumps over the lazy dog"
    ∧ Index final (marker sample_chunks [0]) = 10
    ∧ Index final (marker sample_chunks [1]) = 43
    ∧ ¬ (Index final (marker sample_chunks [1])
         < Index final (marker sample_chunks [0])).
Proof.
  eexists. split; [by vm_compute |]. split; [done |].
  split; [by vm_compute |]. split; [by vm_compute |].
  by vm_compute.
Qed.

(** C8: a chunk index of [-1] is out of range of the chunk list, yet the
    support is not skipped: the index passes the guard and the run ends in
    a panic.  An index beyond the list, in the same place, is skipped and
    the in-range index next to it still gives its token. *)
Theorem addCitations_negative_chunk_index :
  addCitations "abc" (Some (metadata_of [support_at 3 [-1]])) = None
  ∧ addCitations "abc" (Some (metadata_of [support_at 3 [-1; 0]])) = None
  ∧ addCitations "abc" (Some (metadata_of [support_at 3 [5; 0]]))
    = Some "abc [1](https://a.example)".
Proof. by vm_compute. Qed.

End Citations.

(** ** The query accessor *)

Module SharingFacts.
Import Sharing.

Implicit Types (h ext : heap) (d : DataRef).

(** Objects stay where they are when the heap grows. *)
Lemma entries_of_ext h ext s l :
  entries_of h s = Some l → entries_of (h ++ ext) s = Some l.
Proof.
  destruct s as [p|]; [| done]. simpl.
  destruct (h !! p) as [o|] eqn:E; [| done].
  by rewrite (lookup_app_l_Some _ _ _ _ E).
Qed.

Lemma strings_of_ext h ext s l :
  strings_of h s = Some l → strings_of (h ++ ext) s = Some l.
Proof.
  destruct s as [p|]; [| done]. simpl.
  destruct (h !! p) as [o|] eqn:E; [| done].
  by rewrite (lookup_app_l_Some _ _ _ _ E).
Qed.

Lemma items_of_ext h ext s l :
  items_of h s = Some l → items_of (h ++ ext) s = Some l.
Proof.
  destruct s as [p|]; [| done]. simpl.
  destruct (h !! p) as [o|] eqn:E; [| done].
  by rewrite (lookup_app_l_Some _ _ _ _ E).
Qed.

Lemma topics_of_ext h ext s l :
  topics_of h s = Some l → topics_of (h ++ ext) s = Some l.
Proof.
  destruct s as [p|]; [| done]. simpl.
  destruct (h !! p) as [o|] eqn:E; [| done].
  by rewrite (lookup_app_l_Some _ _ _ _ E).
Qed.

Lemma read_metadata_ext h ext p m :
  read_metadata h p = Some m → read_metadata (h ++ ext) p = Some m.
Proof.
  destruct p as [q|]; [| done]. simpl.
  destruct (h !! q) as [o|] eqn:E; [| done].
  by rewrite (lookup_app_l_Some _ _ _ _ E).
Qed.

Lemma read_grounded_ext h ext p g :
  read_grounded h p = Some g → read_grounded (h ++ ext) p = Some g.
Proof.
  destruct p as [q|]; [| done]. simpl.
  destruct (h !! q) as [o|] eqn:E; [| done].
  rewrite (lookup_app_l_Some _ _ _ _ E).
  destruct o as [| | | | gr |]; try done.
  destruct (read_metadata h (rGroundingMetadata gr)) as [m|] eqn:Em; [| done].
  by rewrite (read_metadata_ext _ ext _ _ Em).
Qed.

Lemma read_topic_ext h ext t v :
  read_topic h t = Some v → read_topic (h ++ ext) t = Some v.
Proof.
  unfold read_topic.
  destruct (strings_of h (rTopicParticipants t)) as [ps|] eqn:E; [| done].
  by rewrite (strings_of_ext _ ext _ _ E).
Qed.

Lemma read_topics_ext h ext (ts : list TopicRef) vs :
  mapM (read_topic h) ts = Some vs → mapM (read_topic (h ++ ext)) ts = Some vs.
Proof.
  rewrite !mapM_Some. intros H.
  eapply Forall2_impl; [exact H |]. intros t v. apply read_topic_ext.
Qed.

(** The value of a record does not change when the heap grows. *)
Lemma read_ext h ext d v : read h d = Some v → read (h ++ ext) d = Some v.
Proof.
  unfold read. intros H.
  destruct (entries_of h (rTranscript d)) as [x1|] eqn:E1; [| done].
  destruct (read_grounded h (rGroundedSummary d)) as [x2|] eqn:E2; [| done].
  destruct (strings_of h (rKeyPoints d)) as [x3|] eqn:E3; [| done].
  destruct (read_grounded h (rGroundedKeyPoints d)) as [x4|] eqn:E4; [| done].
  destruct (items_of h (rActionItems d)) as [x5|] eqn:E5; [| done].
  destruct (topics_of h (rTopics d)) as [x6|] eqn:E6; [| done].
  simpl in H.
  destruct (mapM (read_topic h) x6) as [x7|] eqn:E7; [| done].
  destruct (strings_of h (rParticipants d)) as [x8|] eqn:E8; [| done].
  destruct (strings_of h (rKeywords d)) as [x9|] eqn:E9; [| done].
  rewrite (entries_of_ext _ ext _ _ E1), (read_grounded_ext _ ext _ _ E2),
    (strings_of_ext _ ext _ _ E3), (read_grounded_ext _ ext _ _ E4),
    (items_of_ext _ ext _ _ E5), (topics_of_ext _ ext _ _ E6).
  simpl.
  rewrite (read_topics_ext _ ext _ _ E7), (strings_of_ext _ ext _ _ E8),
    (strings_of_ext _ ext _ _ E9).
  exact H.
Qed.

Lemma fresh_copy_id {A} (zero : A) (src : list A) : fresh_copy zero src = src.
Proof.
  unfold fresh_copy, go_copy. rewrite length_replicate, Nat.min_id.
  rewrite firstn_all, drop_replicate, Nat.sub_diag. apply app_nil_r.
Qed.

(** What does hold of the copy: on a heap in which the record can be read,
    [GetAnalysis] succeeds, the value it returns reads the same as the
    record, and the record still reads the same. *)
Lemma GetAnalysis_reads_equal h d v :
  read h d = Some v →
  ∃ h' copy,
    GetAnalysis h d = Some (h', copy)
    ∧ read h' copy = Some v
    ∧ read h' d = Some v.
Proof.
  intros Hread. pose proof Hread as H. unfold read in H.
  destruct (entries_of h (rTranscript d)) as [x1|] eqn:E1; [| done].
  destruct (read_grounded h (rGroundedSummary d)) as [x2|] eqn:E2; [| done].
  destruct (strings_of h (rKeyPoints d)) as [x3|] eqn:E3; [| done].
  destruct (read_grounded h (rGroundedKeyPoints d)) as [x4|] eqn:E4; [| done].
  destruct (items_of h (rActionItems d)) as [x5|] eqn:E5; [| done].
  destruct (topics_of h (rTopics d)) as [x6|] eqn:E6; [| done].
  simpl in H.
  destruct (mapM (read_topic h) x6) as [x7|] eqn:E7; [| done].
  destruct (strings_of h (rParticipants d)) as [x8|] eqn:E8; [| done].
  destruct (strings_of h (rKeywords d)) as [x9|] eqn:E9; [| done].
  simpl in H.
  set (ext := [OEntries x1; OStrings x3; OItems x5; OTopics x6;
               OStrings x8; OStrings x9]).
  exists (h ++ ext). eexists. split; [| split].
  - unfold GetAnalysis, alloc. rewrite E1. cbn [mbind option_bind].
    rewrite (strings_of_ext _ _ _ _ E3). cbn [mbind option_bind].
    rewrite <- !app_assoc.
    rewrite (items_of_ext _ _ _ _ E5). cbn [mbind option_bind].
    rewrite <- !app_assoc.
    rewrite (topics_of_ext _ _ _ _ E6). cbn [mbind option_bind].
    rewrite <- !app_assoc.
    rewrite (strings_of_ext _ _ _ _ E8). cbn [mbind option_bind].
    rewrite <- !app_assoc.
    rewrite (strings_of_ext _ _ _ _ E9). cbn [mbind option_bind].
    rewrite <- !app_assoc. rewrite !fresh_copy_id. simpl. reflexivity.
  - unfold read. cbn [rTranscript rGroundedSummary rKeyPoints
      rGroundedKeyPoints rActionItems rTopics rParticipants rKeywords
      rMeetingID rMeetingURL rStartTime rLastUpdated rSummary
      rDurationMinutes rWordCount rSentiment].
    rewrite (read_grounded_ext _ ext _ _ E2), (read_grounded_ext _ ext _ _ E4).
    unfold entries_of, strings_of, items_of, topics_of.
    rewrite !length_app. simpl length.
    rewrite !lookup_app_r by lia.
    replace (length h - length h)%nat with 0%nat by lia.
    replace (length h + 1 - length h)%nat with 1%nat by lia.
    replace (length h + 2 - length h)%nat with 2%nat by lia.
    replace (length h + 3 - length h)%nat with 3%nat by lia.
    replace (length h + 4 - length h)%nat with 4%nat by lia.
    replace (length h + 5 - length h)%nat with 5%nat by lia.
    simpl. rewrite (read_topics_ext _ ext _ _ E7). simpl. exact H.
  - by apply read_ext.
Qed.

(** The copy keeps the two pointers of the record. *)
Lemma GetAnalysis_pointers h d h1 copy :
  GetAnalysis h d = Some (h1, copy) →
  rGroundedSummary copy = rGroundedSummary d
  ∧ rGroundedKeyPoints copy = rGroundedKeyPoints d
  ∧ ∃ ext, h1 = h ++ ext.
Proof.
  unfold GetAnalysis, alloc. intros H.
  destruct (entries_of h (rTranscript d)) as [x1|]; [| done].
  cbn [mbind option_bind] in H.
  destruct (strings_of _ (rKeyPoints d)) as [x3|]; [| done].
  cbn [mbind option_bind] in H.
  destruct (items_of _ (rActionItems d)) as [x5|]; [| done].
  cbn [mbind option_bind] in H.
  destruct (topics_of _ (rTopics d)) as [x6|]; [| done].
  cbn [mbind option_bind] in H.
  destruct (strings_of _ (rParticipants d)) as [x8|]; [| done].
  cbn [mbind option_bind] in H.
  destruct (strings_of _ (rKeywords d)) as [x9|]; [| done].
  cbn [mbind option_bind] in H.
  injection H as <- <-. simpl. repeat split.
  rewrite <- !app_assoc. by eexists.
Qed.

Lemma read_GroundedSummary h d v :
  read h d = Some v →
  read_grounded h (rGroundedSummary d) = Some (GroundedSummary v).
Proof.
  unfold read. intros H.
  destruct (entries_of h (rTranscript d)) as [x1|]; [| done].
  destruct (read_grounded h (rGroundedSummary d)) as [x2|]; [| done].
  destruct (strings_of h (rKeyPoints d)) as [x3|]; [| done].
  destruct (read_grounded h (rGroundedKeyPoints d)) as [x4|]; [| done].
  destruct (items_of h (rActionItems d)) as [x5|]; [| done].
  destruct (topics_of h (rTopics d)) as [x6|]; [| done].
  simpl in H.
  destruct (mapM (read_topic h) x6) as [x7|]; [| done].
  destruct (strings_of h (rParticipants d)) as [x8|]; [| done].
  destruct (strings_of h (rKeywords d)) as [x9|]; [| done].
  simpl in H. by injection H as <-.
Qed.

(** What does not hold: whenever the record has a grounded summary, a new
    text stored through the returned value is the text the record reads
    afterwards. *)
Lemma GetAnalysis_grounded_summary_shared h d v q g s h1 copy h3 :
  read h d = Some v →
  rGroundedSummary d = Some q →
  h !! q = Some (OGrounded g) →
  s ≠ rText g →
  GetAnalysis h d = Some (h1, copy) →
  store_grounded_text h1 (rGroundedSummary copy) s = Some h3 →
  read h3 d ≠ Some v.
Proof.
  intros Hread Hq Hg Hs Hget Hstore Hread3.
  apply GetAnalysis_pointers in Hget as (Hp & _ & ext & ->).
  rewrite Hp, Hq in Hstore. unfold store_grounded_text in Hstore.
  cbn [mbind option_bind] in Hstore.
  rewrite (lookup_app_l_Some _ _ _ _ Hg) in Hstore.
  injection Hstore as <-.
  apply read_GroundedSummary in Hread, Hread3.
  rewrite Hq in Hread, Hread3. simpl in Hread, Hread3.
  rewrite Hg in Hread.
  rewrite list_lookup_insert_eq in Hread3.
  2:{ rewrite length_app. apply lookup_lt_Some in Hg. lia. }
  simpl in Hread3.
  destruct (read_metadata h (rGroundingMetadata g)) as [m|]; [| done].
  destruct (read_metadata _ (rGroundingMetadata g)) as [m'|]; [| done].
  simpl in *. congruence.
Qed.

(** C5: on a record with a grounded summary, the value [GetAnalysis]
    returns reads the same as the record, and a write into its transcript
    slice leaves the record alone; but a write to the text of its grounded
    summary (or of its grounded key points) changes the record the agent
    holds: the two pointers are copied, not what they point to. *)
Theorem GetAnalysis_shares_grounded_content :
  ∃ h1 copy h2 h3 h4,
    GetAnalysis sample_heap sample_record = Some (h1, copy)
    ∧ read h1 copy = read sample_heap sample_record
    ∧ read h1 sample_record = read sample_heap sample_record
    ∧ store_entry h1 (rTranscript copy) 0 zero_entry = Some h2
    ∧ read h2 sample_record = read sample_heap sample_record
    ∧ store_grounded_text h1 (rGroundedSummary copy) "tampered" = Some h3
    ∧ (ContentText <$> (read h3 sample_record ≫= GroundedSummary))
      = Some "tampered"
    ∧ (ContentText <$> (read sample_heap sample_record ≫= GroundedSummary))
      = Some "summary"
    ∧ read h3 sample_record ≠ read sample_heap sample_record
    ∧ store_grounded_text h1 (rGroundedKeyPoints copy) "tampered" = Some h4
    ∧ read h4 sample_record ≠ read sample_heap sample_record.
Proof.
  do 5 eexists.
  split; [by vm_compute |]. split; [by vm_compute |].
  split; [by vm_compute |]. split; [by vm_compute |].
  split; [by vm_compute |]. split; [by vm_compute |].
  split; [by vm_compute |]. split; [by vm_compute |].
  split; [vm_compute; intros [=] |].
  split; [by vm_compute |].
  vm_compute; intros [=].
Qed.

End SharingFacts.

(** ** The sort of the citation merger *)

Section SupportSort.

Implicit Types (supports pre : list GroundingSupport).

(** Descending by end index. *)
Local Abbreviation desc :=
  (λ x y : GroundingSupport, EndIndex y <= EndIndex x).

Lemma swap_if_less_short supports j :
  (length supports <= S j)%nat → swap_if_less supports j = supports.
Proof.
  intros H. unfold swap_if_less.
  destruct (supports !! j) as [x|]; [| done].
  by rewrite (lookup_ge_None_2 supports (S j)) by lia.
Qed.

Lemma bubble_inner_short todo supports j :
  (length supports <= S j)%nat → bubble_inner todo j supports = supports.
Proof.
  revert j. induction todo as [|todo IH]; intros j H; [done |].
  simpl. rewrite swap_if_less_short by done. apply IH. lia.
Qed.

Lemma swap_if_less_middle pre x y rest :
  swap_if_less (pre ++ x :: y :: rest) (length pre)
  = if bool_decide (EndIndex x < EndIndex y) then pre ++ y :: x :: rest
    else pre ++ x :: y :: rest.
Proof.
  unfold swap_if_less.
  rewrite list_lookup_middle by done.
  replace (pre ++ x :: y :: rest) with ((pre ++ [x]) ++ y :: rest)
    by (by rewrite <- app_assoc).
  rewrite (list_lookup_middle (pre ++ [x]) rest y (S (length pre)))
    by (rewrite length_app; simpl; lia).
  case_bool_decide; [| done].
  rewrite <- app_assoc. simpl.
  rewrite insert_app_r_alt by lia. rewrite Nat.sub_diag. simpl.
  rewrite insert_app_r_alt by lia.
  replace (S (length pre) - length pre)%nat with 1%nat by lia. done.
Qed.

(** The inner loop is a sweep over the part of the list from [j] on. *)
Lemma bubble_inner_pass todo pre supports :
  bubble_inner todo (length pre) (pre ++ supports) = pre ++ pass todo supports.
Proof.
  revert pre supports. induction todo as [|todo IH]; intros pre supports.
  - by destruct supports.
  - destruct supports as [|x [|y rest]].
    + simpl pass. apply bubble_inner_short. rewrite length_app. simpl. lia.
    + simpl pass. apply bubble_inner_short. rewrite length_app. simpl. lia.
    + cbn [bubble_inner pass]. rewrite swap_if_less_middle.
      case_bool_decide.
      * replace (pre ++ y :: x :: rest) with ((pre ++ [y]) ++ x :: rest)
          by (by rewrite <- app_assoc).
        replace (S (length pre)) with (length (pre ++ [y]))
          by (rewrite length_app; simpl; lia).
        rewrite IH. by rewrite <- app_assoc.
      * replace (pre ++ x :: y :: rest) with ((pre ++ [x]) ++ y :: rest)
          by (by rewrite <- app_assoc).
        replace (S (length pre)) with (length (pre ++ [x]))
          by (rewrite length_app; simpl; lia).
        rewrite IH. by rewrite <- app_assoc.
Qed.

Lemma pass_Permutation n supports : pass n supports ≡ₚ supports.
Proof.
  revert supports. induction n as [|n IH]; intros supports.
  - by destruct supports.
  - destruct supports as [|x [|y rest]]; [done.. |].
    simpl. case_bool_decide.
    + rewrite IH. apply Permutation_swap.
    + by rewrite IH.
Qed.

Lemma pass_length n supports : length (pass n supports) = length supports.
Proof. apply Permutation_length, pass_Permutation. Qed.

(** A sweep does not reach beyond its [n + 1] first elements. *)
Lemma pass_app n supports tail :
  (n < length supports)%nat →
  pass n (supports ++ tail) = pass n supports ++ tail.
Proof.
  revert supports. induction n as [|n IH]; intros supports Hn.
  - by destruct supports, tail.
  - destruct supports as [|x [|y rest]]; simpl in Hn; [lia.. |].
    simpl. case_bool_decide.
    + change (y :: pass n ((x :: rest) ++ tail) = y :: pass n (x :: rest) ++ tail).
      f_equal. apply (IH (x :: rest)). simpl. lia.
    + change (x :: pass n ((y :: rest) ++ tail) = x :: pass n (y :: rest) ++ tail).
      f_equal. apply (IH (y :: rest)). simpl. lia.
Qed.

(** A full sweep moves a support of least end index to the end. *)
Lemma pass_full n supports :
  supports ≠ [] →
  (length supports <= S n)%nat →
  ∃ front least,
    pass n supports = front ++ [least]
    ∧ Forall (λ x, EndIndex least <= EndIndex x) supports.
Proof.
  revert supports. induction n as [|n IH]; intros supports Hne Hlen.
  - destruct supports as [|x [|y rest]]; simpl in Hlen; [done | | lia].
    exists [], x. split; [done |]. by apply Forall_singleton.
  - destruct supports as [|x [|y rest]]; [done | |].
    + exists [], x. split; [done |]. by apply Forall_singleton.
    + simpl in Hlen. simpl. case_bool_decide as Hxy.
      * destruct (IH (x :: rest)) as (front & least & -> & Hleast);
          [done | simpl; lia |].
        exists (y :: front), least. split; [done |].
        apply Forall_cons in Hleast as [Hx Hrest].
        repeat (apply Forall_cons; split); [done | lia | done].
      * destruct (IH (y :: rest)) as (front & least & -> & Hleast);
          [done | simpl; lia |].
        exists (x :: front), least. split; [done |].
        apply Forall_cons in Hleast as [Hy Hrest].
        repeat (apply Forall_cons; split); [lia | done | done].
Qed.

(** The invariant of the outer loop: after [i] sweeps the last [i] supports
    are in their final place. *)
Lemma bubble_outer_sorted todo i front back :
  length front = todo →
  length back = i →
  StronglySorted desc back →
  Forall (λ x, Forall (λ y, EndIndex y <= EndIndex x) back) front →
  bubble_outer todo i (front ++ back) ≡ₚ front ++ back
  ∧ StronglySorted desc (bubble_outer todo i (front ++ back)).
Proof.
  revert i front back.
  induction todo as [|todo IH]; intros i front back Hfront Hback Hsorted Hle.
  - destruct front; [| done]. done.
  - cbn [bubble_outer].
    replace (length (front ++ back) - 1 - i)%nat with todo
      by (rewrite length_app; lia).
    change (bubble_inner todo 0 (front ++ back))
      with (bubble_inner todo (length (@nil GroundingSupport))
              ([] ++ (front ++ back))).
    rewrite bubble_inner_pass. cbn [app].
    rewrite pass_app by lia.
    destruct (pass_full todo front) as (front' & least & Hpass & Hleast);
      [by destruct front | lia |].
    pose proof (pass_Permutation todo front) as Hperm.
    rewrite Hpass in Hperm |- *.
    rewrite <- app_assoc. simpl.
    assert (Hin : least ∈ front).
    { rewrite <- Hperm. apply elem_of_app. right. by apply list_elem_of_singleton. }
    assert (Hfront' : Forall (λ x, x ∈ front) front').
    { apply Forall_forall. intros x Hx. rewrite <- Hperm.
      apply elem_of_app. by left. }
    destruct (IH (S i) front' (least :: back)) as [Hp Hs].
    + apply Permutation_length in Hperm. rewrite length_app in Hperm.
      simpl in Hperm. lia.
    + simpl. lia.
    + constructor; [done |].
      rewrite Forall_forall in Hle. by apply Hle.
    + apply Forall_forall. intros x Hx.
      rewrite Forall_forall in Hfront'. specialize (Hfront' x Hx).
      apply Forall_cons. split.
      * rewrite Forall_forall in Hleast. by apply Hleast.
      * rewrite Forall_forall in Hle. by apply Hle.
    + split; [| done]. rewrite Hp.
      rewrite <- Hperm. by rewrite <- app_assoc.
Qed.

Lemma sort_supports_bubble supports :
  sort_supports supports ≡ₚ supports
  ∧ StronglySorted desc (sort_supports supports).
Proof.
  unfold sort_supports.
  pose proof (bubble_outer_sorted (length supports) 0 supports []) as H.
  rewrite app_nil_r in H. apply H; try done.
  - constructor.
  - apply Forall_forall. intros x _. constructor.
Qed.

(** X1: the bubble sort of [addCitations] returns the supports it was given,
    rearranged so that the end indices descend: of two supports of the
    result, the later one never ends after the earlier one. *)
Theorem sort_supports_sorted supports :
  sort_supports supports ≡ₚ supports
  ∧ StronglySorted desc (sort_supports supports)
  ∧ ∀ i j x y,
      (i < j)%nat →
      sort_supports supports !! i = Some x →
      sort_supports supports !! j = Some y →
      EndIndex y <= EndIndex x.
Proof.
  destruct (sort_supports_bubble supports) as [Hperm Hsorted].
  split; [done |]. split; [done |].
  revert Hsorted. generalize (sort_supports supports). clear.
  intros l Hsorted. induction Hsorted as [|a l _ IH Hall]; intros i j x y Hij Hi Hj.
  - by rewrite lookup_nil in Hi.
  - destruct j as [|j]; [lia |]. cbn in Hj. destruct i as [|i].
    + injection Hi as <-. rewrite Forall_forall in Hall.
      apply Hall. by eapply list_elem_of_lookup_2.
    + cbn in Hi. apply (IH i j); [lia | done | done].
Qed.

End SupportSort.

Section SupportSortStable.

Implicit Types (supports : list GroundingSupport).

Lemma pass_filter_end (e : Z) n supports :
  filter (λ x, EndIndex x = e) (pass n supports)
  = filter (λ x, EndIndex x = e) supports.
Proof.
  revert supports. induction n as [|n IH]; intros supports.
  - by destruct supports.
  - destruct supports as [|x [|y rest]]; [done.. |].
    simpl. case_bool_decide as Hxy.
    + rewrite !filter_cons, IH, !filter_cons.
      repeat case_decide; try done; lia.
    + by rewrite !(filter_cons _ x), IH.
Qed.

Lemma bubble_outer_filter_end (e : Z) todo i supports :
  filter (λ x, EndIndex x = e) (bubble_outer todo i supports)
  = filter (λ x, EndIndex x = e) supports.
Proof.
  revert i supports. induction todo as [|todo IH]; intros i supports; [done |].
  cbn [bubble_outer]. rewrite IH.
  change (bubble_inner (length supports - 1 - i) 0 supports)
    with (bubble_inner (length supports - 1 - i)
            (length (@nil GroundingSupport)) ([] ++ supports)).
  rewrite bubble_inner_pass. apply pass_filter_end.
Qed.

(** X2: the sort is stable: supports with the same end index keep the order
    they have in the metadata. *)
Theorem sort_supports_stable (e : Z) supports :
  filter (λ x, EndIndex x = e) (sort_supports supports)
  = filter (λ x, EndIndex x = e) supports.
Proof. apply bubble_outer_filter_end. Qed.

End SupportSortStable.

(** ** Where the markers end up *)

Section Splice.
Import GoString GoStringFacts.

Implicit Types (chunks : list GroundingChunk) (supports : list GroundingSupport)
  (support : GroundingSupport).

Local Abbreviation desc :=
  (λ x y : GroundingSupport, EndIndex y <= EndIndex x).

Lemma slice_to_Some s hi r :
  slice_to s hi = Some r → 0 <= hi <= len s ∧ r = take (Z.to_nat hi) s.
Proof.
  unfold slice_to, slice. case_bool_decide as H; [| done].
  intros [= <-]. split; [lia |].
  by rewrite Z.sub_0_r.
Qed.

Lemma slice_from_Some s lo r :
  slice_from s lo = Some r → 0 <= lo <= len s ∧ r = drop (Z.to_nat lo) s.
Proof.
  intros H. assert (Hlo : 0 <= lo <= len s).
  { unfold slice_from, slice in H. case_bool_decide; [lia | done]. }
  split; [done |]. rewrite slice_from_eq in H by lia. by injection H.
Qed.

Lemma slice_to_negative s hi : hi < 0 → slice_to s hi = None.
Proof.
  intros H. unfold slice_to, slice. by rewrite bool_decide_eq_false_2 by lia.
Qed.

(** Whatever a support does to a text, it does not shorten it. *)
Lemma add_support_len chunks support result result' :
  add_support chunks support result = Some result' →
  len result <= len result'.
Proof.
  unfold add_support. intros H.
  destruct (bool_decide _ && bool_decide _); [| by injection H as <-].
  destruct (citation_links _ _ _) as [links|]; [| done].
  cbn [mbind option_bind] in H.
  case_bool_decide; [| by injection H as <-].
  destruct (slice_to result (EndIndex support)) as [before|] eqn:Hb; [| done].
  destruct (slice_from result (EndIndex support)) as [after|] eqn:Ha; [| done].
  cbn [mbind option_bind] in H. injection H as <-.
  apply slice_to_Some in Hb as [_ ->]. apply slice_from_Some in Ha as [_ ->].
  rewrite <- (str_take_drop result (Z.to_nat (EndIndex support))) at 1.
  rewrite !len_app.
  pose proof (len_nonneg (Join links ", ")). change (len " ") with 1. lia.
Qed.

(** An insertion within a prefix of the text leaves the rest of the text
    alone. *)
Lemma add_support_app chunks support front back :
  EndIndex support <= len front →
  add_support chunks support (front +:+ back)
  = (λ r, r +:+ back) <$> add_support chunks support front.
Proof.
  intros He. unfold add_support.
  pose proof (len_nonneg back). rewrite len_app.
  rewrite (bool_decide_eq_true_2 (EndIndex support <= len front + len back))
    by lia.
  rewrite (bool_decide_eq_true_2 (EndIndex support <= len front)) by done.
  rewrite !andb_true_r. case_bool_decide; [| done].
  destruct (citation_links _ _ _) as [links|]; [| done].
  cbn [mbind option_bind]. case_bool_decide; [| done].
  destruct (decide (0 <= EndIndex support)) as [Hpos|Hneg].
  - rewrite !slice_to_eq, !slice_from_eq by (rewrite ?len_app; lia).
    cbn [mbind option_bind fmap option_fmap option_map]. f_equal.
    assert (Hn : (Z.to_nat (EndIndex support) <= String.length front)%nat)
      by (unfold len in He; lia).
    rewrite str_take_app_le, str_drop_app_le by done.
    by rewrite !str_app_assoc.
  - by rewrite !slice_to_negative by lia.
Qed.

Lemma add_supports_app chunks supports front back :
  Forall (λ support, EndIndex support <= len front) supports →
  add_supports chunks supports (front +:+ back)
  = (λ r, r +:+ back) <$> add_supports chunks supports front.
Proof.
  revert front. induction supports as [|support rest IH]; intros front Hall.
  - done.
  - apply Forall_cons in Hall as [He Hrest]. cbn [add_supports].
    rewrite add_support_app by done.
    destruct (add_support chunks support front) as [front'|] eqn:Hs; [| done].
    cbn [mbind option_bind fmap option_fmap option_map].
    apply add_support_len in Hs. apply IH.
    eapply Forall_impl; [exact Hrest |]. simpl. lia.
Qed.

(** With the supports in descending order, every marker lands right after
    the first [EndIndex] bytes of the text as it was given. *)
Lemma add_supports_splice chunks supports text :
  StronglySorted desc supports →
  Forall (insertable chunks text) supports →
  add_supports chunks supports text = Some (splice chunks supports text).
Proof.
  revert text. induction supports as [|support rest IH]; intros text Hs Hall.
  - done.
  - apply StronglySorted_inv in Hs as [Hs Hle].
    apply Forall_cons in Hall as [(He & Hne & Hin) Hrest].
    cbn [add_supports splice].
    rewrite add_support_in_range by done.
    cbn [mbind option_bind].
    assert (Hn : (Z.to_nat (EndIndex support) <= String.length text)%nat)
      by (unfold len in He; lia).
    assert (Hlen : len (take (Z.to_nat (EndIndex support)) text)
                   = EndIndex support)
      by (unfold len; rewrite str_length_take by done; lia).
    rewrite add_supports_app.
    2:{ rewrite Hlen. done. }
    rewrite IH; [done | done |].
    rewrite Forall_forall in Hle, Hrest. apply Forall_forall. intros s Hs'.
    destruct (Hrest s Hs') as ([H0 _] & Hne' & Hin').
    repeat split; try done. rewrite Hlen. by apply Hle.
Qed.

Lemma insertable_Permutation chunks text supports supports' :
  supports ≡ₚ supports' →
  Forall (insertable chunks text) supports →
  Forall (insertable chunks text) supports'.
Proof. intros Hp H. by rewrite <- Hp. Qed.

(** X3: the whole merger on supports that are all insertable: the markers are
    spliced into the text as given, each after the first [EndIndex] bytes,
    in whatever order the metadata lists the supports. *)
Theorem addCitations_splice text md :
  Forall (insertable (GroundingChunks md) text) (GroundingSupports md) →
  addCitations text (Some md)
  = Some (splice (GroundingChunks md) (sort_supports (GroundingSupports md))
            text).
Proof.
  intros Hall. unfold addCitations.
  destruct (sort_supports_bubble (GroundingSupports md)) as [Hperm Hsorted].
  case_bool_decide as Hempty.
  - destruct (GroundingSupports md); [done | done].
  - apply add_supports_splice; [done |].
    by apply (insertable_Permutation _ _ (GroundingSupports md)).
Qed.

Lemma addCitations_splice_witness :
  Forall (insertable sample_chunks sample_text)
    [support_at 10 [0]; support_at 43 [1; 0]; support_at 20 [1]]
  ∧ addCitations sample_text
      (Some (metadata_of
               [support_at 10 [0]; support_at 43 [1; 0]; support_at 20 [1]]))
    = Some (splice sample_chunks
              [support_at 43 [1; 0]; support_at 20 [1]; support_at 10 [0]]
              sample_text).
Proof.
  assert (H : Forall (insertable sample_chunks sample_text)
                [support_at 10 [0]; support_at 43 [1; 0]; support_at 20 [1]]).
  { unfold insertable. refine (bool_decide_unpack _ _). vm_compute. exact I. }
  split; [exact H |].
  exact (addCitations_splice sample_text
           (metadata_of
              [support_at 10 [0]; support_at 43 [1; 0]; support_at 20 [1]]) H).
Defined.

(** The markers are all the merger adds. *)
Lemma splice_len chunks supports text :
  len (splice chunks supports text) = len text + markers_len chunks supports.
Proof.
  revert text. induction supports as [|support rest IH]; intros text.
  - unfold markers_len. simpl. lia.
  - cbn [splice]. rewrite !len_app, IH.
    rewrite <- (str_take_drop text (Z.to_nat (EndIndex support))) at 3.
    rewrite len_app. unfold markers_len. cbn [fmap list_fmap foldr]. lia.
Qed.

End Splice.

Section CitationEdges.
Import GoString GoStringFacts.

Implicit Types (chunks : list GroundingChunk) (supports : list GroundingSupport)
  (support : GroundingSupport).

Lemma markers_len_Permutation chunks supports supports' :
  supports ≡ₚ supports' →
  markers_len chunks supports = markers_len chunks supports'.
Proof.
  unfold markers_len. induction 1 as [|x l l' _ IH|x y l|l l' l'' _ IH1 _ IH2];
    cbn [fmap list_fmap foldr] in *; lia.
Qed.

(** X4: on insertable supports the merger succeeds and adds exactly the bytes
    of the markers, one marker per support. *)
Theorem addCitations_length text md :
  Forall (insertable (GroundingChunks md) text) (GroundingSupports md) →
  ∃ result,
    addCitations text (Some md) = Some result
    ∧ len result
      = len text + markers_len (GroundingChunks md) (GroundingSupports md).
Proof.
  intros Hall.
  destruct (sort_supports_bubble (GroundingSupports md)) as [Hperm Hsorted].
  exists (splice (GroundingChunks md) (sort_supports (GroundingSupports md))
            text).
  split.
  - unfold addCitations. case_bool_decide as Hempty.
    + destruct (GroundingSupports md); [done | done].
    + apply add_supports_splice; [done |].
      by apply (insertable_Permutation _ _ (GroundingSupports md)).
  - rewrite splice_len. f_equal. by apply markers_len_Permutation.
Qed.

Lemma addCitations_length_witness :
  Forall (insertable sample_chunks sample_text)
    [support_at 10 [0]; support_at 20 [1]]
  ∧ ∃ result,
      addCitations sample_text
        (Some (metadata_of [support_at 10 [0]; support_at 20 [1]]))
      = Some result
      ∧ len result
        = len sample_text
          + markers_len sample_chunks [support_at 10 [0]; support_at 20 [1]].
Proof.
  assert (H : Forall (insertable sample_chunks sample_text)
                [support_at 10 [0]; support_at 20 [1]]).
  { unfold insertable. refine (bool_decide_unpack _ _). vm_compute. exact I. }
  split; [exact H |].
  exact (addCitations_length sample_text
           (metadata_of [support_at 10 [0]; support_at 20 [1]]) H).
Defined.

Lemma citation_links_beyond chunks indices acc :
  Forall (λ i, Z.of_nat (length chunks) <= i) indices →
  citation_links chunks indices acc = Some acc.
Proof.
  induction 1 as [|i rest Hi _ IH]; [done |].
  simpl. by rewrite bool_decide_eq_false_2 by lia.
Qed.

Lemma add_support_no_links chunks support result :
  Forall (λ i, Z.of_nat (length chunks) <= i) (GroundingChunkIndices support) →
  add_support chunks support result = Some result.
Proof.
  intros H. unfold add_support.
  destruct (bool_decide _ && bool_decide _); [| done].
  by rewrite citation_links_beyond.
Qed.

(** X5: supports that reference no chunk of the list (no index at all, or only
    indices at or beyond its length) leave the text as it is, wherever their
    end indices point, negative ones included; no stray space is added. *)
Theorem addCitations_no_usable_chunk text md :
  Forall (λ support,
            Forall (λ i, Z.of_nat (length (GroundingChunks md)) <= i)
              (GroundingChunkIndices support))
    (GroundingSupports md) →
  addCitations text (Some md) = Some text.
Proof.
  intros Hall. unfold addCitations. case_bool_decide; [done |].
  destruct (sort_supports_bubble (GroundingSupports md)) as [Hperm _].
  rewrite <- Hperm in Hall. clear Hperm.
  induction Hall as [|support rest Hs _ IH]; [done |].
  cbn [add_supports]. by rewrite add_support_no_links.
Qed.

Lemma addCitations_no_usable_chunk_witness :
  Forall (λ support,
            Forall (λ i, Z.of_nat (length sample_chunks) <= i)
              (GroundingChunkIndices support))
    [support_at (-4) [2]; support_at 10 []; support_at 20 [7; 2]]
  ∧ addCitations sample_text
      (Some (metadata_of
               [support_at (-4) [2]; support_at 10 []; support_at 20 [7; 2]]))
    = Some sample_text.
Proof.
  assert (H : Forall (λ support,
                Forall (λ i, Z.of_nat (length sample_chunks) <= i)
                  (GroundingChunkIndices support))
                [support_at (-4) [2]; support_at 10 []; support_at 20 [7; 2]]).
  { refine (bool_decide_unpack _ _). vm_compute. exact I. }
  split; [exact H |].
  exact (addCitations_no_usable_chunk sample_text
           (metadata_of
              [support_at (-4) [2]; support_at 10 []; support_at 20 [7; 2]])
           H).
Defined.

(** X6: a negative end index passes the guard [endIndex <= len(result)]; when
    the support has a link to insert, the slice [result[:endIndex]] panics. *)
Theorem addCitations_negative_end_index text md support :
  GroundingSupports md = [support] →
  EndIndex support < 0 →
  GroundingChunkIndices support ≠ [] →
  Forall (λ i, 0 <= i < Z.of_nat (length (GroundingChunks md)))
    (GroundingChunkIndices support) →
  addCitations text (Some md) = None.
Proof.
  intros Hs He Hne Hin. unfold addCitations. rewrite Hs. simpl.
  unfold add_support.
  pose proof (len_nonneg text).
  rewrite !bool_decide_eq_true_2;
    [| lia | by destruct (GroundingChunkIndices support); simpl; [| lia]].
  simpl. rewrite citation_links_in_range by done. simpl.
  rewrite bool_decide_eq_true_2.
  2:{ rewrite length_fmap.
      destruct (GroundingChunkIndices support); simpl; [done | lia]. }
  by rewrite slice_to_negative.
Qed.

Lemma addCitations_negative_end_index_witness :
  addCitations sample_text (Some (metadata_of [support_at (-1) [0]])) = None.
Proof.
  refine (addCitations_negative_end_index sample_text
            (metadata_of [support_at (-1) [0]]) (support_at (-1) [0])
            eq_refl _ _ _).
  - done.
  - done.
  - apply Forall_singleton. simpl. lia.
Defined.

(** X7: [truncateString] with room for the ellipsis: the result is never longer
    than [maxLen]; a string that fits comes back as it is, a longer one is
    cut to [maxLen - 3] bytes followed by three dots, [maxLen] bytes in all. *)
Theorem truncateString_bound s maxLen :
  3 <= maxLen →
  ∃ r,
    truncateString s maxLen = Some r
    ∧ len r <= maxLen
    ∧ (len s <= maxLen → r = s)
    ∧ (maxLen < len s →
       r = take (Z.to_nat (maxLen - 3)) s +:+ "..." ∧ len r = maxLen).
Proof.
  intros Hmax. unfold truncateString. case_bool_decide as Hfit.
  - exists s. repeat split; try done; lia.
  - rewrite slice_to_eq by lia. cbn [mbind option_bind].
    eexists. split; [done |].
    assert (Hlen : len (take (Z.to_nat (maxLen - 3)) s +:+ "...") = maxLen).
    { rewrite len_app. unfold len at 1.
      rewrite str_length_take by (unfold len in Hfit; lia).
      change (len "...") with 3. lia. }
    repeat split; try done; lia.
Qed.

Lemma truncateString_bound_witness :
  3 <= 8
  ∧ truncateString "transcript" 8 = Some "trans..."
  ∧ truncateString "short" 8 = Some "short".
Proof.
  split; [lia |].
  destruct (truncateString_bound "transcript" 8 ltac:(lia))
    as (r & Hr & _ & _ & Hcut).
  destruct (truncateString_bound "short" 8 ltac:(lia))
    as (r' & Hr' & _ & Hfit & _).
  split.
  - rewrite Hr. f_equal. exact (proj1 (Hcut ltac:(by vm_compute))).
  - rewrite Hr'. f_equal. exact (Hfit ltac:(by vm_compute)).
Defined.

(** X8: [truncateString] without room for the ellipsis: a string longer than a
    [maxLen] below 3 makes the slice bound negative, and the call panics. *)
Theorem truncateString_small_limit s maxLen :
  maxLen < 3 → maxLen < len s → truncateString s maxLen = None.
Proof.
  intros Hmax Hlong. unfold truncateString.
  rewrite bool_decide_eq_false_2 by lia.
  by rewrite slice_to_negative by lia.
Qed.

Lemma truncateString_small_limit_witness :
  2 < 3 ∧ 2 < len "abc" ∧ truncateString "abc" 2 = None.
Proof.
  split; [lia |]. split; [by vm_compute |].
  apply truncateString_small_limit; [lia | by vm_compute].
Defined.

End CitationEdges.

(** ** More on reply parsing *)

Section ReplyBlocks.
Import GoString GoStringFacts.

Local Arguments String.append : simpl nomatch.
Local Arguments Ascii.eqb : simpl never.

Lemma HasPrefix_empty s : HasPrefix s "" = true.
Proof. by destruct s. Qed.

Lemma find_cons_None c s sep :
  find (String c s) sep = None →
  HasPrefix (String c s) sep = false ∧ find s sep = None.
Proof.
  rewrite find_cons. destruct (HasPrefix (String c s) sep); [done |].
  by destruct (find s sep).
Qed.

(** The end marker is found right after a content without backticks. *)
Lemma find_end_marker inner suf :
  find inner "`" = None →
  find (inner +:+ "```" +:+ suf) "```" = Some (String.length inner).
Proof.
  induction inner as [|c inner IH]; intros Hnone.
  - apply find_prefix, (HasPrefix_app "```").
  - apply find_cons_None in Hnone as [Hc Hrest].
    simpl in Hc. rewrite HasPrefix_empty, andb_true_r in Hc.
    change (String c inner +:+ "```" +:+ suf)
      with (String c (inner +:+ "```" +:+ suf)).
    rewrite find_cons. simpl HasPrefix. rewrite Hc.
    cbn [andb]. by rewrite IH.
Qed.

(** X9: the content of the first block is returned trimmed, whatever comes
    after the block: the text before it holds no start marker, the content
    no backtick. *)
Theorem extractJSONFromResponse_first_block pre inner suf :
  Contains pre "```json" = false →
  Contains inner "`" = false →
  extractJSONFromResponse (pre +:+ "```json" +:+ inner +:+ "```" +:+ suf)
  = Some (TrimSpace inner).
Proof.
  intros Hpre Hinner. apply extract_fenced.
  - by apply Contains_false.
  - by apply find_end_marker, Contains_false.
Qed.

Lemma extractJSONFromResponse_first_block_witness :
  Contains "Sure. " "```json" = false
  ∧ Contains " [1, 2] " "`" = false
  ∧ extractJSONFromResponse
      ("Sure. " +:+ "```json" +:+ " [1, 2] " +:+ "```" +:+ " and ```json [3] ```")
    = Some "[1, 2]".
Proof.
  split; [reflexivity |]. split; [reflexivity |].
  exact (extractJSONFromResponse_first_block "Sure. " " [1, 2] "
           " and ```json [3] ```" eq_refl eq_refl).
Defined.

(** X10: a block that is opened and never closed yields the empty extraction. *)
Theorem extractJSONFromResponse_unterminated pre rest :
  Contains pre "```json" = false →
  Contains rest "```" = false →
  extractJSONFromResponse (pre +:+ "```json" +:+ rest) = Some "".
Proof.
  intros Hpre Hrest.
  apply Contains_false in Hpre. apply Contains_false in Hrest.
  unfold extractJSONFromResponse, Index.
  rewrite find_start_marker by done.
  rewrite bool_decide_eq_false_2 by lia.
  change (len "```json") with 7.
  rewrite slice_from_eq;
    [| lia | rewrite !len_app; change (len "```json") with 7;
             pose proof (len_nonneg rest); unfold len; lia].
  replace (Z.to_nat (Z.of_nat (String.length pre) + 7))
    with (String.length pre + 7)%nat by lia.
  rewrite str_drop_app_length. simpl. by rewrite Hrest.
Qed.

Lemma extractJSONFromResponse_unterminated_witness :
  Contains "Here it is: " "```json" = false
  ∧ Contains " {summary: ok} and nothing more" "```" = false
  ∧ extractJSONFromResponse
      ("Here it is: " +:+ "```json" +:+ " {summary: ok} and nothing more")
    = Some "".
Proof.
  split; [reflexivity |]. split; [reflexivity |].
  exact (extractJSONFromResponse_unterminated "Here it is: "
           " {summary: ok} and nothing more" eq_refl eq_refl).
Defined.

End ReplyBlocks.

(** ** Runs of ingestion *)

Section IngestionRuns.
Import GoString GoStringFacts.

Implicit Types (segments : list (gmap string value))
  (batches : list (clock * list (gmap string value))).

(** One call, spelled out: a batch that is not accepted returns the agent
    as it is; an accepted one appends one entry and updates the three
    derived fields. *)
Lemma ProcessUtterance_step clk segments a :
  (¬ accepted segments ∧ ProcessUtterance clk segments a = (a, []))
  ∨ (accepted segments
     ∧ ∃ entry,
         Text entry ≠ ""
         ∧ IsAgent entry = false
         ∧ ∀ d,
             d = set_metadata (now_updated clk)
                   (WordCount (data a) + FieldsCount (Text entry))
                   (GoTime.Minutes
                      (GoTime.Since (now_duration clk) (StartTime (data a))))
                   (updateParticipants (Speaker entry)
                      (set_Transcript (Transcript (data a) ++ [entry])
                         (data a))) →
             ProcessUtterance clk segments a
             = (set_data d a,
                SaveAnalysis (filePath a) d
                  :: (if trigger (now_trigger clk) (set_data d a)
                      then [GoUpdateAnalysis] else []))).
Proof.
  unfold ProcessUtterance, accepted.
  rewrite (scan_segments_text_now 0 (now_timestamp clk)).
  case_bool_decide as Hlen.
  { left. split; [| done]. destruct segments; [| done]. by intros H. }
  case_bool_decide as Htext; [left; split; [by intros H | done] |].
  right. split; [done |].
  exists {| Timestamp := timestamp (scan_segments (now_timestamp clk) segments);
            Speaker := speaker (scan_segments (now_timestamp clk) segments);
            Text := fullText (scan_segments (now_timestamp clk) segments);
            IsAgent := false |}.
  split; [exact Htext |]. split; [done |]. intros d ->. simpl.
  unfold updateParticipants. case_bool_decide; reflexivity.
Qed.

Lemma updateParticipants_fields name d :
  let d' := updateParticipants name d in
  Transcript d' = Transcript d ∧ WordCount d' = WordCount d
  ∧ (Participants d' = Participants d ∧ name ∈ Participants d
     ∨ Participants d' = Participants d ++ [name] ∧ name ∉ Participants d).
Proof.
  unfold updateParticipants. case_bool_decide; simpl; auto.
Qed.

(** What one call does to the transcript, the participants and the word
    count. *)
Lemma ProcessUtterance_fields clk segments a :
  let a' := (ProcessUtterance clk segments a).1 in
  (¬ accepted segments ∧ a' = a)
  ∨ (accepted segments
     ∧ ∃ entry,
         Text entry ≠ "" ∧ IsAgent entry = false
         ∧ Transcript (data a') = Transcript (data a) ++ [entry]
         ∧ WordCount (data a')
           = WordCount (data a) + FieldsCount (Text entry)
         ∧ (Participants (data a') = Participants (data a)
            ∧ Speaker entry ∈ Participants (data a)
            ∨ Participants (data a')
              = Participants (data a) ++ [Speaker entry]
              ∧ Speaker entry ∉ Participants (data a))).
Proof.
  destruct (ProcessUtterance_step clk segments a)
    as [[Hno ->] | (Hacc & entry & Ht & Hag & Hstep)]; [by left |].
  right. split; [done |]. exists entry.
  rewrite (Hstep _ eq_refl). cbn [fst].
  pose proof (updateParticipants_fields (Speaker entry)
                (set_Transcript (Transcript (data a) ++ [entry]) (data a)))
    as (HT & HW & HP).
  simpl in *. rewrite HT. auto.
Qed.

(** X11: the transcript only grows: a run of calls appends one entry per accepted
    batch, each with a non-empty text and [IsAgent = false], and never
    changes or removes an entry that is already there. *)
Theorem ingest_transcript batches a :
  ∃ new,
    Transcript (data (ingest batches a)) = Transcript (data a) ++ new
    ∧ Forall (λ entry, Text entry ≠ "" ∧ IsAgent entry = false) new
    ∧ length new
      = length (filter (λ batch, fullText (scan_segments 0 batch.2) ≠ "")
                  batches).
Proof.
  revert a. induction batches as [|[clk segments] rest IH]; intros a.
  - exists []. simpl. rewrite app_nil_r. by repeat split.
  - cbn [ingest fst snd]. rewrite filter_cons. cbn [snd].
    destruct (IH (ProcessUtterance clk segments a).1) as (new & -> & Hall & Hlen).
    destruct (ProcessUtterance_fields clk segments a)
      as [[Hno ->] | (Hacc & entry & Ht & Hag & -> & _)].
    + exists new. rewrite decide_False by done. by repeat split.
    + exists (entry :: new). rewrite decide_True by done.
      rewrite <- app_assoc. repeat split; try done.
      * by apply Forall_cons.
      * simpl. by rewrite Hlen.
Qed.

(** X12: the participants list never holds a name twice, keeps its order and
    only grows at the end; and every speaker of the transcript is in it. *)
Theorem ingest_participants batches a :
  NoDup (Participants (data a)) →
  Forall (λ entry, Speaker entry ∈ Participants (data a))
    (Transcript (data a)) →
  NoDup (Participants (data (ingest batches a)))
  ∧ Participants (data a) `prefix_of` Participants (data (ingest batches a))
  ∧ Forall (λ entry, Speaker entry ∈ Participants (data (ingest batches a)))
      (Transcript (data (ingest batches a))).
Proof.
  revert a. induction batches as [|[clk segments] rest IH]; intros a Hnd Hsp.
  - done.
  - cbn [ingest fst snd].
    destruct (ProcessUtterance_fields clk segments a)
      as [[Hno Heq] | (Hacc & entry & Ht & Hag & HT & _ & HP)].
    + cbn zeta in Heq. rewrite Heq. by apply IH.
    + cbn zeta in HT, HP.
      destruct (IH (ProcessUtterance clk segments a).1) as (Hnd' & Hpre & Hsp').
      * destruct HP as [[-> _] | [-> Hnew]]; [done |].
        apply NoDup_app. repeat split; [done | | apply NoDup_singleton].
        intros x Hx Hx'. apply list_elem_of_singleton in Hx'. by subst.
      * rewrite HT. apply Forall_app. split.
        -- eapply Forall_impl; [exact Hsp |]. intros e He. simpl in *.
           destruct HP as [[-> _] | [-> _]]; [done |].
           apply elem_of_app. by left.
        -- apply Forall_singleton.
           destruct HP as [[-> Hin] | [-> _]]; [done |].
           apply elem_of_app. right. by apply list_elem_of_singleton.
      * repeat split; try done.
        etrans; [| exact Hpre].
        destruct HP as [[-> _] | [-> _]]; [done |]. by apply prefix_app_r.
Qed.

Lemma ingest_participants_witness :
  NoDup (Participants (data sample_agent))
  ∧ Forall (λ entry, Speaker entry ∈ Participants (data sample_agent))
      (Transcript (data sample_agent))
  ∧ (let a' := ingest [(sample_clock, two_fragment_batch);
                       (sample_clock, late_text_batch);
                       (sample_clock, two_fragment_batch)] sample_agent in
     NoDup (Participants (data a'))
     ∧ Participants (data sample_agent) `prefix_of` Participants (data a')
     ∧ Forall (λ entry, Speaker entry ∈ Participants (data a'))
         (Transcript (data a'))).
Proof.
  assert (H1 : NoDup (Participants (data sample_agent))) by constructor.
  assert (H2 : Forall (λ entry, Speaker entry ∈ Participants (data sample_agent))
                 (Transcript (data sample_agent))) by constructor.
  split; [exact H1 |]. split; [exact H2 |].
  exact (ingest_participants
           [(sample_clock, two_fragment_batch);
            (sample_clock, late_text_batch);
            (sample_clock, two_fragment_batch)] sample_agent H1 H2).
Defined.

Lemma words_of_snoc entries entry :
  words_of (entries ++ [entry])
  = words_of entries + FieldsCount (Text entry).
Proof.
  unfold words_of. induction entries as [|e l IH];
    cbn [app fmap list_fmap foldr] in *; lia.
Qed.

(** X13: the word count follows the transcript: when it is the number of words
    of the transcript before a run, it is so after it. *)
Theorem ingest_word_count batches a :
  WordCount (data a) = words_of (Transcript (data a)) →
  WordCount (data (ingest batches a))
  = words_of (Transcript (data (ingest batches a))).
Proof.
  revert a. induction batches as [|[clk segments] rest IH]; intros a Hinv.
  - done.
  - cbn [ingest fst snd]. apply IH.
    destruct (ProcessUtterance_fields clk segments a)
      as [[Hno Heq] | (Hacc & entry & Ht & Hag & HT & HW & _)].
    + cbn zeta in Heq. by rewrite Heq.
    + cbn zeta in HT, HW. by rewrite HT, HW, Hinv, words_of_snoc.
Qed.

Lemma ingest_word_count_witness :
  WordCount (data sample_agent) = words_of (Transcript (data sample_agent))
  ∧ (let a' := ingest [(sample_clock, two_fragment_batch);
                       (sample_clock, silent_batch);
                       (sample_clock, late_text_batch)] sample_agent in
     WordCount (data a') = words_of (Transcript (data a'))).
Proof.
  split; [reflexivity |].
  exact (ingest_word_count
           [(sample_clock, two_fragment_batch);
            (sample_clock, silent_batch);
            (sample_clock, late_text_batch)] sample_agent eq_refl).
Defined.

End IngestionRuns.

Section IngestionFrame.
Import GoString GoStringFacts.

Implicit Types (segments : list (gmap string value))
  (batches : list (clock * list (gmap string value))).

(** X14: what ingestion leaves alone: the agent's configuration, its provider,
    the time of the last cycle and the snapshot of a running cycle; and in
    the record the identity, the start time and every result of the
    analysis. *)
Theorem ingest_frame batches a :
  let a' := ingest batches a in
  agentID a' = agentID a ∧ CustomPrompt a' = CustomPrompt a
  ∧ filePath a' = filePath a ∧ llmProvider a' = llmProvider a
  ∧ lastAnalysis a' = lastAnalysis a
  ∧ currentAnalysisSnapshot a' = currentAnalysisSnapshot a
  ∧ MeetingID (data a') = MeetingID (data a)
  ∧ MeetingURL (data a') = MeetingURL (data a)
  ∧ StartTime (data a') = StartTime (data a)
  ∧ Summary (data a') = Summary (data a)
  ∧ GroundedSummary (data a') = GroundedSummary (data a)
  ∧ KeyPoints (data a') = KeyPoints (data a)
  ∧ GroundedKeyPoints (data a') = GroundedKeyPoints (data a)
  ∧ ActionItems (data a') = ActionItems (data a)
  ∧ Topics (data a') = Topics (data a)
  ∧ Sentiment (data a') = Sentiment (data a)
  ∧ Keywords (data a') = Keywords (data a).
Proof.
  revert a. induction batches as [|[clk segments] rest IH]; intros a.
  - by repeat split.
  - cbn [ingest fst snd]. cbn zeta in *.
    specialize (IH (ProcessUtterance clk segments a).1).
    destruct (ProcessUtterance_step clk segments a)
      as [[_ Heq] | (_ & entry & _ & _ & Hstep)].
    + by rewrite Heq in *.
    + rewrite (Hstep _ eq_refl) in *. cbn [fst] in *.
      destruct IH as (-> & -> & -> & -> & -> & -> & -> & -> & -> & -> & ->
                        & -> & -> & -> & -> & -> & ->).
      unfold updateParticipants. case_bool_decide; by repeat split.
Qed.

(** X15: an accepted batch is written once, to the agent's file, and what is
    written is the record the agent holds after the call; the only other
    effect can be the start of a cycle. *)
Theorem ProcessUtterance_saves_record clk segments a :
  accepted segments →
  let r := ProcessUtterance clk segments a in
  ∃ rest,
    r.2 = SaveAnalysis (filePath a) (data r.1) :: rest
    ∧ (rest = [] ∨ rest = [GoUpdateAnalysis])
    ∧ filePath r.1 = filePath a.
Proof.
  intros Hacc.
  destruct (ProcessUtterance_step clk segments a)
    as [[Hno _] | (_ & entry & _ & _ & Hstep)]; [done |].
  cbn zeta. rewrite (Hstep _ eq_refl). cbn [fst snd].
  eexists. split; [reflexivity |].
  split; [| done]. destruct (trigger _ _); auto.
Qed.

Lemma ProcessUtterance_saves_record_witness :
  accepted two_fragment_batch
  ∧ let r := ProcessUtterance sample_clock two_fragment_batch sample_agent in
    ∃ rest,
      r.2 = SaveAnalysis (filePath sample_agent) (data r.1) :: rest
      ∧ (rest = [] ∨ rest = [GoUpdateAnalysis])
      ∧ filePath r.1 = filePath sample_agent.
Proof.
  split; [exact two_fragment_batch_accepted |].
  exact (ProcessUtterance_saves_record sample_clock two_fragment_batch
           sample_agent two_fragment_batch_accepted).
Defined.

(** X16: before the first cycle [lastAnalysis] is the zero time, and every
    accepted batch that arrives at a clock reading of 1970 or later starts a
    cycle, whatever the length of the transcript. *)
Theorem ProcessUtterance_first_trigger clk segments a :
  lastAnalysis a = GoTime.zero →
  0 <= now_trigger clk →
  accepted segments →
  GoUpdateAnalysis ∈ (ProcessUtterance clk segments a).2.
Proof.
  intros Hzero Hnow Hacc.
  destruct (ProcessUtterance_step clk segments a)
    as [[Hno _] | (_ & entry & _ & _ & Hstep)]; [done |].
  rewrite (Hstep _ eq_refl). cbn [snd].
  apply elem_of_cons. right. unfold trigger. cbn [lastAnalysis set_data].
  rewrite Hzero, bool_decide_eq_true_2.
  - apply list_elem_of_singleton. done.
  - apply Since_exceeds_five_minutes.
    unfold GoTime.zero, GoTime.Unix, GoTime.Minute, GoTime.Second. lia.
Qed.

Lemma ProcessUtterance_first_trigger_witness :
  let a :=
    {| agentID := agentID sample_agent; CustomPrompt := None;
       data := data sample_agent; filePath := filePath sample_agent;
       llmProvider := None; lastAnalysis := GoTime.zero;
       currentAnalysisSnapshot := None |} in
  lastAnalysis a = GoTime.zero
  ∧ 0 <= now_trigger sample_clock
  ∧ accepted two_fragment_batch
  ∧ GoUpdateAnalysis
      ∈ (ProcessUtterance sample_clock two_fragment_batch a).2.
Proof.
  cbn zeta. split; [reflexivity |].
  assert (H : 0 <= now_trigger sample_clock) by (by vm_compute).
  split; [exact H |]. split; [exact two_fragment_batch_accepted |].
  exact (ProcessUtterance_first_trigger sample_clock two_fragment_batch
           {| agentID := agentID sample_agent; CustomPrompt := None;
              data := data sample_agent; filePath := filePath sample_agent;
              llmProvider := None; lastAnalysis := GoTime.zero;
              currentAnalysisSnapshot := None |}
           eq_refl H two_fragment_batch_accepted).
Defined.

End IngestionFrame.

(** ** More on window selection and the cycle *)

Section Windows.

Implicit Types (entries : list TranscriptEntry) (a : AnalystAgent).

Lemma getRecentTranscript_visible a count :
  getRecentTranscript a count = tail_window (visible_entries a) count.
Proof.
  unfold getRecentTranscript, visible_entries.
  by destruct (currentAnalysisSnapshot a).
Qed.

Lemma window_suffix entries count :
  0 <= count →
  window entries count `suffix_of` entries
  ∧ Z.of_nat (length (window entries count))
    = Z.min count (Z.of_nat (length entries)).
Proof.
  intros Hc. unfold window, last_entries. split.
  - apply suffix_drop.
  - rewrite length_drop. lia.
Qed.

(** X17: a window is always the tail of what the agent can see, the snapshot of
    a running cycle or else the live transcript: [min(count, length)]
    entries, hence all of them when [count] is at least the length. *)
Theorem getRecentTranscript_tail a count :
  0 <= count →
  ∃ w,
    getRecentTranscript a count = Some w
    ∧ w `suffix_of` visible_entries a
    ∧ Z.of_nat (length w)
      = Z.min count (Z.of_nat (length (visible_entries a)))
    ∧ (Z.of_nat (length (visible_entries a)) <= count →
       w = visible_entries a).
Proof.
  intros Hc. rewrite getRecentTranscript_visible, tail_window_spec by done.
  eexists. split; [done |].
  destruct (window_suffix (visible_entries a) count Hc) as [Hsuf Hlen].
  repeat split; try done.
  intros Hall. unfold window, last_entries.
  replace (_ - _)%nat with 0%nat by lia. done.
Qed.

Lemma getRecentTranscript_tail_witness :
  0 <= 50
  ∧ getRecentTranscript later_mid_cycle_agent 50
    = Some (visible_entries later_mid_cycle_agent).
Proof.
  split; [lia |].
  destruct (getRecentTranscript_tail later_mid_cycle_agent 50 ltac:(lia))
    as (w & Hw & _ & _ & Hall).
  rewrite Hw. f_equal. apply Hall. by vm_compute.
Defined.

(** X18: a negative [count] is not clamped: when there is an entry to select
    from and [total - count] is in the range of an [int] (it exceeds that
    range, and wraps, only for a [count] within [total] of the least
    [int]), [start] lies beyond the entries, the length handed to [make] is
    negative and the call panics; on an empty transcript the early return
    comes first. *)
Theorem getRecentTranscript_negative_count a count :
  count < 0 →
  Z.of_nat (length (visible_entries a)) - count < 2 ^ 63 →
  (visible_entries a ≠ [] → getRecentTranscript a count = None)
  ∧ (visible_entries a = [] → getRecentTranscript a count = Some []).
Proof.
  intros Hc _. rewrite getRecentTranscript_visible. unfold tail_window. split.
  - intros Hne. rewrite bool_decide_eq_false_2
      by (destruct (visible_entries a); [done | simpl; lia]).
    rewrite bool_decide_eq_false_2 by lia.
    unfold go_make. by rewrite bool_decide_eq_false_2 by lia.
  - intros ->. done.
Qed.

Lemma getRecentTranscript_negative_count_witness :
  -1 < 0
  ∧ Z.of_nat (length (visible_entries mid_cycle_agent)) - -1 < 2 ^ 63
  ∧ getRecentTranscript mid_cycle_agent (-1) = None
  ∧ getRecentTranscript sample_agent (-1) = Some [].
Proof.
  split; [lia |].
  assert (H : Z.of_nat (length (visible_entries mid_cycle_agent)) - -1
              < 2 ^ 63) by (by vm_compute).
  split; [exact H |]. split.
  - apply (getRecentTranscript_negative_count mid_cycle_agent (-1));
      [lia | exact H | done].
  - apply (getRecentTranscript_negative_count sample_agent (-1));
      [lia | by vm_compute | done].
Defined.

Lemma run_steps_lastAnalysis commit steps a seen a' seen' :
  run_steps commit steps (a, seen) = Some (a', seen') →
  lastAnalysis a' = lastAnalysis a.
Proof.
  revert a seen. induction steps as [|s steps IH]; intros a seen H.
  - by injection H as <- <-.
  - cbn [run_steps] in H.
    destruct (run_step commit s (a, seen)) as [[a1 seen1]|] eqn:Hs; [| done].
    cbn [mbind option_bind] in H. rewrite (IH _ _ H).
    destruct s as [clk segments | name count]; simpl in Hs.
    + injection Hs as <- <-.
      destruct (ProcessUtterance_step clk segments a)
        as [[_ ->] | (_ & entry & _ & _ & Hstep)]; [done |].
      by rewrite (Hstep _ eq_refl).
    + destruct (getRecentTranscript a count); [| done]. simpl in Hs.
      case_bool_decide; by injection Hs as <- <-.
Qed.

(** X19: a cycle whose tasks return always ends, whatever is appended
    meanwhile, and [lastAnalysis] is then the time it began.  On an empty
    transcript that is all it does: no snapshot is installed and no task
    runs.  Otherwise the snapshot is cleared again at the end and
    [LastUpdated] is the time the cycle ended. *)
Theorem updateAnalysis_outcome now_begin now_end commit concurrent a :
  ∃ a' seen,
    updateAnalysis now_begin now_end commit concurrent a = Some (a', seen)
    ∧ lastAnalysis a' = now_begin
    ∧ (Transcript (data a) = [] →
       a' = set_lastAnalysis now_begin a ∧ seen = [])
    ∧ (Transcript (data a) ≠ [] →
       currentAnalysisSnapshot a' = None ∧ LastUpdated (data a') = now_end).
Proof.
  unfold updateAnalysis, begin_cycle. simpl. rewrite go_copy_fresh.
  destruct (decide (Transcript (data a) = [])) as [Hnil | Hne].
  - rewrite Hnil. simpl. eexists _, _. by repeat split.
  - rewrite bool_decide_eq_false_2 by (by destruct (Transcript (data a))).
    destruct (run_steps_windows commit (cycle_steps concurrent)
                (set_snapshot (Some (Transcript (data a)))
                   (set_lastAnalysis now_begin a))
                (Transcript (data a)) []) as (a2 & Hrun & _).
    + done.
    + rewrite task_counts_cycle. simpl. repeat constructor; lia.
    + rewrite Hrun. simpl. eexists _, _. split; [done |].
      apply run_steps_lastAnalysis in Hrun. by repeat split.
Qed.

End Windows.

(** ** More on prompt construction *)

Section PromptPaths.
Import GoString GoStringFacts.

Variable ToLower : string → string.

Implicit Types (a : AnalystAgent) (provider : LLMProvider).

(** X20: an agent whose provider could not be set up holds a nil provider.  An
    analysis call on it fails with an error; building a prompt from safe
    custom instructions calls the provider without that check and
    panics. *)
Theorem buildAnalysisPrompt_nil_provider a instructions
    analysisType defaultPrompt transcript :
  llmProvider a = None →
  CustomPrompt a = Some instructions →
  instructions ≠ "" →
  isSafeInstruction ToLower instructions = true →
  buildAnalysisPrompt ToLower a analysisType defaultPrompt transcript = None
  ∧ ∀ prompt, callLLM a prompt = Err "LLM provider not available".
Proof.
  intros Hnil Hcustom Hne Hsafe. split.
  - unfold buildAnalysisPrompt, buildSecurePromptFromInstructions,
      generateTaskPromptFromCustomInstructions.
    rewrite Hcustom, bool_decide_eq_true_2 by done.
    rewrite bool_decide_eq_false_2 by done.
    rewrite Hsafe, Hnil. done.
  - intros prompt. unfold callLLM. by rewrite Hnil.
Qed.

(** X21: when the provider fails to turn safe custom instructions into a task
    prompt, by an error or by a reply that is blank, the prompt is the one
    [buildDirectPrompt] makes from the instructions themselves; the format
    the task passed is not used. *)
Theorem buildAnalysisPrompt_generation_failure a provider instructions
    analysisType defaultPrompt transcript :
  llmProvider a = Some provider →
  CustomPrompt a = Some instructions →
  instructions ≠ "" →
  isSafeInstruction ToLower instructions = true →
  (let reply :=
     Call provider
       (Sprintf task_prompt_format
          [instructions; taskDescription analysisType]) in
   (∃ msg, reply = Err msg)
   ∨ (∃ response, reply = Ok response ∧ TrimSpace response = "")) →
  buildAnalysisPrompt ToLower a analysisType defaultPrompt transcript
  = Some (buildDirectPrompt ToLower analysisType instructions transcript).
Proof.
  intros Hprov Hcustom Hne Hsafe Hreply. cbn zeta in Hreply.
  unfold buildAnalysisPrompt, buildSecurePromptFromInstructions,
    generateTaskPromptFromCustomInstructions.
  rewrite Hcustom, bool_decide_eq_true_2 by done.
  rewrite bool_decide_eq_false_2 by done.
  rewrite Hsafe, Hprov. cbn [negb mbind option_bind].
  destruct Hreply as [[msg ->] | (response & -> & Hblank)]; [done |].
  rewrite (bool_decide_eq_true_2 (TrimSpace response = "")) by done.
  reflexivity.
Qed.

(** X22: for an analysis type outside the five the agent knows, custom
    instructions have no effect once a provider is present: whether they
    are rejected, turned into a task prompt or not, the prompt is the
    default prompt of unknown types. *)
Theorem buildAnalysisPrompt_unknown_type a provider instructions
    analysisType defaultPrompt transcript :
  analysisType ∉ ["summary"; "key_points"; "action_items"; "topics";
                  "sentiment_keywords"] →
  llmProvider a = Some provider →
  CustomPrompt a = Some instructions →
  instructions ≠ "" →
  buildAnalysisPrompt ToLower a analysisType defaultPrompt transcript
  = Some (Sprintf default_other_format [transcript]).
Proof.
  intros Htype Hprov Hcustom Hne.
  assert (Hdefault : getDefaultPrompt analysisType transcript
                     = Sprintf default_other_format [transcript]).
  { unfold getDefaultPrompt.
    repeat (rewrite bool_decide_eq_false_2;
            [| intros ->; apply Htype; set_solver]). done. }
  assert (Hdirect : buildDirectPrompt ToLower analysisType instructions
                      transcript
                    = Sprintf default_other_format [transcript]).
  { unfold buildDirectPrompt. destruct (negb _); [done |].
    repeat (rewrite bool_decide_eq_false_2;
            [| intros ->; apply Htype; set_solver]). done. }
  unfold buildAnalysisPrompt, buildSecurePromptFromInstructions,
    generateTaskPromptFromCustomInstructions.
  rewrite Hcustom, bool_decide_eq_true_2 by done.
  rewrite bool_decide_eq_false_2 by done.
  rewrite Hprov. cbn [mbind option_bind].
  destruct (negb _); [by rewrite Hdefault |].
  destruct (Call provider _) as [response | msg];
    [| cbn [mbind option_bind]; by rewrite Hdirect].
  destruct (bool_decide (TrimSpace response = ""));
    cbn [mbind option_bind]; [by rewrite Hdirect |].
  repeat (rewrite bool_decide_eq_false_2;
          [| intros ->; apply Htype; set_solver]).
  by rewrite Hdefault.
Qed.

End PromptPaths.

Lemma buildAnalysisPrompt_nil_provider_witness :
  let a := agent_with "You are a sales coach." None in
  llmProvider a = None
  ∧ CustomPrompt a = Some "You are a sales coach."
  ∧ "You are a sales coach." ≠ ""
  ∧ isSafeInstruction ToLowerASCII "You are a sales coach." = true
  ∧ buildAnalysisPrompt ToLowerASCII a "summary" extractKeyPoints_format
      "[10:00:00] Ann: hello" = None
  ∧ ∀ prompt, callLLM a prompt = Err "LLM provider not available".
Proof.
  cbn zeta.
  assert (Hsafe : isSafeInstruction ToLowerASCII "You are a sales coach."
                  = true) by (by vm_compute).
  assert (Hne : "You are a sales coach." ≠ "") by done.
  split; [reflexivity |]. split; [reflexivity |]. split; [exact Hne |].
  split; [exact Hsafe |].
  exact (buildAnalysisPrompt_nil_provider ToLowerASCII
           (agent_with "You are a sales coach." None)
           "You are a sales coach." "summary" extractKeyPoints_format
           "[10:00:00] Ann: hello" eq_refl eq_refl Hne Hsafe).
Defined.

Lemma buildAnalysisPrompt_generation_failure_witness :
  let provider := constant_provider (Ok "  ") in
  let a := agent_with "You are a sales coach." (Some provider) in
  buildAnalysisPrompt ToLowerASCII a "summary" extractKeyPoints_format
    "[10:00:00] Ann: hello"
  = Some (buildDirectPrompt ToLowerASCII "summary" "You are a sales coach."
            "[10:00:00] Ann: hello").
Proof.
  cbn zeta.
  apply (buildAnalysisPrompt_generation_failure ToLowerASCII
           (agent_with "You are a sales coach."
              (Some (constant_provider (Ok "  "))))
           (constant_provider (Ok "  "))
           "You are a sales coach." "summary" extractKeyPoints_format
           "[10:00:00] Ann: hello" eq_refl eq_refl).
  - done.
  - by vm_compute.
  - right. exists "  ". split; [reflexivity | by vm_compute].
Defined.

Lemma buildAnalysisPrompt_unknown_type_witness :
  let provider := constant_provider (Ok "Coach the seller.") in
  let a := agent_with "You are a sales coach." (Some provider) in
  buildAnalysisPrompt ToLowerASCII a "risks" extractKeyPoints_format
    "[10:00:00] Ann: hello"
  = Some (Sprintf default_other_format ["[10:00:00] Ann: hello"]).
Proof.
  cbn zeta.
  apply (buildAnalysisPrompt_unknown_type ToLowerASCII
           (agent_with "You are a sales coach."
              (Some (constant_provider (Ok "Coach the seller."))))
           (constant_provider (Ok "Coach the seller."))
           "You are a sales coach." "risks" extractKeyPoints_format
           "[10:00:00] Ann: hello"); [| reflexivity | reflexivity | done].
  refine (bool_decide_unpack _ _). vm_compute. exact I.
Defined.

(** ** Grounded results *)

Section GroundedProperties.
Import GoString GoStringFacts.

Local Arguments String.append : simpl nomatch.

Variable unmarshal_summary : string → result string.
Variable unmarshal_key_points : string → result (list string).

Implicit Types (a : AnalystAgent) (response : GroundedResponse).

(** X23: a grounded reply that carries a decodable block but no grounding
    metadata brings [processSummaryWithGrounding] and
    [processKeyPointsWithGrounding] down: after the result has been
    stored, the log line reads the number of chunks through the nil
    metadata and the call panics. *)
Theorem grounded_nil_metadata_panics a response jsonData :
  ResponseMetadata response = None →
  extractJSONFromResponse (ResponseText response) = Some jsonData →
  jsonData ≠ "" →
  (∀ summary,
     unmarshal_summary jsonData = Ok summary →
     processSummaryWithGrounding unmarshal_summary (Some response) a = None)
  ∧ (∀ points,
       unmarshal_key_points jsonData = Ok points →
       processKeyPointsWithGrounding unmarshal_key_points (Some response) a
       = None).
Proof.
  intros Hmd Hjson Hne.
  unfold processSummaryWithGrounding, processKeyPointsWithGrounding.
  rewrite Hjson. cbn [mbind option_bind].
  rewrite bool_decide_eq_true_2 by done.
  split; intros result Hdec; by rewrite Hdec, Hmd.
Qed.

(** X24: whenever [processSummaryWithGrounding] or
    [processKeyPointsWithGrounding] returns an error, the agent is as it
    was: nothing of a reply that is nil or does not decode is stored. *)
Theorem grounded_error_keeps_agent groundedResponse a a' err :
  processSummaryWithGrounding unmarshal_summary groundedResponse a
  = Some (a', Some err)
  ∨ processKeyPointsWithGrounding unmarshal_key_points groundedResponse a
    = Some (a', Some err) →
  a' = a.
Proof.
  unfold processSummaryWithGrounding, processKeyPointsWithGrounding.
  destruct groundedResponse as [response|]; [| by intros [[= <-] | [= <-]]].
  destruct (extractJSONFromResponse _) as [jsonData|];
    [| by intros [[=] | [=]]].
  cbn [mbind option_bind]. case_bool_decide; [| by intros [[=] | [=]]].
  intros [Hret | Hret].
  - destruct (unmarshal_summary jsonData); [| by injection Hret as <-].
    destruct (ResponseMetadata response); [| done].
    destruct (addCitations _ _); done.
  - destruct (unmarshal_key_points jsonData); [| by injection Hret as <-].
    destruct (ResponseMetadata response); [| done].
    destruct (addCitations _ _); done.
Qed.

(** X25: a grounded reply without a fenced block is dropped without an
    error by [processSummaryWithGrounding] and by
    [processKeyPointsWithGrounding]: the agent is unchanged and the caller
    is told nothing. *)
Theorem grounded_reply_without_block a response :
  Contains (ResponseText response) "```json" = false →
  processSummaryWithGrounding unmarshal_summary (Some response) a
  = Some (a, None)
  ∧ processKeyPointsWithGrounding unmarshal_key_points (Some response) a
    = Some (a, None).
Proof.
  intros H. apply extract_no_start_marker in H.
  unfold processSummaryWithGrounding, processKeyPointsWithGrounding.
  rewrite H. cbn [mbind option_bind].
  by rewrite bool_decide_eq_false_2 by (by intros []).
Qed.

(** X26: what a call of [processSummaryWithGrounding] that returns without
    an error has done with a reply that holds a non-empty block: the reply
    had metadata, the record holds a grounded summary whose text is the
    stored [Summary], whose citations are those [addCitations] merges into
    it and whose metadata is that of the reply; no other field of the
    record and nothing else of the agent has changed. *)
Theorem processSummaryWithGrounding_stores a a' response :
  extractJSONFromResponse (ResponseText response) ≠ Some "" →
  processSummaryWithGrounding unmarshal_summary (Some response) a
  = Some (a', None) →
  ∃ metadata cited,
    ResponseMetadata response = Some metadata
    ∧ addCitations (Summary (data a')) (Some metadata) = Some cited
    ∧ GroundedSummary (data a')
      = Some {| ContentText := Summary (data a');
                TextWithCitations := cited;
                ContentMetadata := Some metadata |}
    ∧ a' = set_data
             (set_GroundedSummary (GroundedSummary (data a'))
                (set_Summary (Summary (data a')) (data a))) a.
Proof.
  unfold processSummaryWithGrounding.
  destruct (extractJSONFromResponse _) as [jsonData|]; [| done].
  intros Hblock. cbn [mbind option_bind].
  rewrite bool_decide_eq_true_2 by (by intros ->).
  destruct (unmarshal_summary jsonData) as [summary|]; [| done].
  destruct (ResponseMetadata response) as [metadata|]; [| done].
  destruct (addCitations summary (Some metadata)) as [cited|] eqn:Hcited;
    [| done].
  cbn [mbind option_bind]. intros [= <-].
  exists metadata, cited. by repeat split.
Qed.

End GroundedProperties.

Section KeyPointsText.
Import GoString GoStringFacts.

Local Arguments String.append : simpl nomatch.

Lemma Join_cons x l sep :
  l ≠ [] → Join (x :: l) sep = x +:+ sep +:+ Join l sep.
Proof. by destruct l. Qed.

Lemma Join_bullets p rest :
  bullet +:+ Join (p :: rest) bullet_separator
  = Join ((λ point, bullet +:+ point) <$> p :: rest)
      (String (ascii_of_nat 10) "").
Proof.
  revert p. induction rest as [|q rest IH]; intros p; [done |].
  rewrite Join_cons by done. rewrite fmap_cons.
  rewrite (Join_cons (bullet +:+ p) (_ <$> q :: rest)) by done.
  rewrite <- IH.
  change bullet_separator with (String (ascii_of_nat 10) "" +:+ bullet).
  by rewrite !str_app_assoc.
Qed.

(** X27: the text of the key points: one line per point, each behind a bullet
    and a space.  No points give the empty text, and so does a single empty
    point, which gets no bullet. *)
Theorem keyPointsText_lines points :
  keyPointsText points
  = if bool_decide (points = [] ∨ points = [""]) then ""
    else Join ((λ point, bullet +:+ point) <$> points)
           (String (ascii_of_nat 10) "").
Proof.
  unfold keyPointsText. destruct points as [|p rest].
  - rewrite (bool_decide_eq_true_2 (_ ∨ _)) by auto.
    by rewrite bool_decide_eq_false_2 by (by intros []).
  - destruct (decide (p = "" ∧ rest = [])) as [[-> ->] | Hne].
    + rewrite (bool_decide_eq_true_2 (_ ∨ _)) by auto.
      by rewrite bool_decide_eq_false_2 by (by intros []).
    + rewrite (bool_decide_eq_false_2 (_ ∨ _)) by (intros [[=] | [= -> ->]]; auto).
      rewrite bool_decide_eq_true_2; [apply Join_bullets |].
      destruct rest as [|q rest].
      * cbn. intros ->. auto.
      * rewrite Join_cons by done. intros H.
        apply (f_equal String.length) in H.
        rewrite !str_length_app in H. cbn in H. lia.
Qed.

End KeyPointsText.

Lemma grounded_nil_metadata_panics_witness :
  let response :=
    {| ResponseText := summary_reply; ResponseMetadata := None |} in
  processSummaryWithGrounding decode_summary (Some response) sample_agent
  = None.
Proof.
  cbn zeta.
  refine (proj1
            (grounded_nil_metadata_panics decode_summary decode_key_points
               sample_agent
               {| ResponseText := summary_reply; ResponseMetadata := None |}
               (GoString.TrimSpace
                  (" {" +:+ GoString.dq +:+ "summary" +:+ GoString.dq +:+ ":"
                   +:+ GoString.dq +:+ sample_text +:+ GoString.dq +:+ "} "))
               eq_refl _ _) sample_text _); by vm_compute.
Defined.

Lemma grounded_error_keeps_agent_witness :
  let response :=
    {| ResponseText := "```json {oops ```"; ResponseMetadata := None |} in
  processSummaryWithGrounding decode_summary (Some response) mid_cycle_agent
  = Some (mid_cycle_agent, Some "invalid character")
  ∧ mid_cycle_agent = mid_cycle_agent.
Proof.
  cbn zeta.
  assert (H : processSummaryWithGrounding decode_summary
                (Some {| ResponseText := "```json {oops ```";
                         ResponseMetadata := None |}) mid_cycle_agent
              = Some (mid_cycle_agent, Some "invalid character"))
    by (by vm_compute).
  split; [exact H |].
  exact (grounded_error_keeps_agent decode_summary decode_key_points
           _ mid_cycle_agent mid_cycle_agent "invalid character"
           (or_introl H)).
Defined.

Lemma grounded_reply_without_block_witness :
  let response :=
    {| ResponseText := "I could not find anything.";
       ResponseMetadata := None |} in
  processSummaryWithGrounding decode_summary (Some response) sample_agent
  = Some (sample_agent, None)
  ∧ processKeyPointsWithGrounding decode_key_points (Some response)
      sample_agent
    = Some (sample_agent, None).
Proof.
  cbn zeta.
  apply (grounded_reply_without_block decode_summary decode_key_points
           sample_agent
           {| ResponseText := "I could not find anything.";
              ResponseMetadata := None |}).
  by vm_compute.
Defined.

Lemma processSummaryWithGrounding_stores_witness :
  let metadata := metadata_of [support_at 9 [0]; support_at 19 [1]] in
  let response :=
    {| ResponseText := summary_reply; ResponseMetadata := Some metadata |} in
  let cited :=
    "The quick [1](https://a.example) brown fox"
    +:+ " [2](https://b.example) jumps over the lazy dog" in
  let a' :=
    set_data
      (set_GroundedSummary
         (Some {| ContentText := sample_text; TextWithCitations := cited;
                  ContentMetadata := Some metadata |})
         (set_Summary sample_text (data sample_agent))) sample_agent in
  processSummaryWithGrounding decode_summary (Some response) sample_agent
  = Some (a', None)
  ∧ ∃ metadata' cited',
      ResponseMetadata response = Some metadata'
      ∧ addCitations (Summary (data a')) (Some metadata') = Some cited'
      ∧ GroundedSummary (data a')
        = Some {| ContentText := Summary (data a');
                  TextWithCitations := cited';
                  ContentMetadata := Some metadata' |}
      ∧ a' = set_data
               (set_GroundedSummary (GroundedSummary (data a'))
                  (set_Summary (Summary (data a')) (data sample_agent)))
               sample_agent.
Proof.
  cbn zeta.
  assert (Hblock : extractJSONFromResponse summary_reply ≠ Some "")
    by (by vm_compute).
  assert (Hrun :
    processSummaryWithGrounding decode_summary
      (Some {| ResponseText := summary_reply;
               ResponseMetadata :=
                 Some (metadata_of [support_at 9 [0]; support_at 19 [1]]) |})
      sample_agent
    = Some
        (set_data
           (set_GroundedSummary
              (Some {| ContentText := sample_text;
                       TextWithCitations :=
                         "The quick [1](https://a.example) brown fox"
                         +:+ " [2](https://b.example) jumps over the lazy dog";
                       ContentMetadata :=
                         Some (metadata_of
                                 [support_at 9 [0]; support_at 19 [1]]) |})
              (set_Summary sample_text (data sample_agent))) sample_agent,
         None)) by (by vm_compute).
  split; [exact Hrun |].
  exact (processSummaryWithGrounding_stores decode_summary sample_agent _
           {| ResponseText := summary_reply;
              ResponseMetadata :=
                Some (metadata_of [support_at 9 [0]; support_at 19 [1]]) |}
           Hblock Hrun).
Defined.
